(** * Form builder: schema editing, drop-index computation and validation

    A shallow embedding of the TypeScript form builder:
    - [client/lib/form-schema.ts]: the schema model ([FormField],
      [FormSection], [FormItem], [createDefaultField], [getAllFields]);
    - [client/lib/form-validation.ts] (src/unnamed/part_001):
      [validateField] and [validateForm];
    - [FormCanvas] (src/unnamed/part_003): the structural edit handlers
      ([handleAddField], [handleReorderField], [handleCloneField], ...)
      and [getDropZonePosition];
    - [client/components/form-builder/FormRenderer.tsx]: [canSubmit], the
      validation step of [handleSubmit], [renderField].

    JavaScript values are modelled by an inductive type with the coercions
    the code relies on ([!value], [typeof], [Number(value)], [trim]).
    JavaScript numbers are exact rationals extended with NaN and the two
    infinities; rounding to IEEE doubles is not modelled.  A string is held
    as its UTF-8 encoding, one [ascii] per byte: [length] counts UTF-16
    code units, [trim] strips the white space and line terminators of
    ECMA-262, and [toLowerCase], whose table is the Unicode one, is a
    service of the host.  A plain object used as a map is a finite map of
    its own properties, read through [Object.prototype] for the keys it does
    not own.

    The handlers of the canvas mutate [schema.items] in place and hand a
    shallow copy of the schema to [onSchemaChange]; a handler is modelled
    by the function from the editor state before the call to the state
    after it.  The [properties] bag of a field is shared by reference
    between a field and its clone, so bags live in an explicit store and a
    field holds a reference into it. *)

From Stdlib Require Import QArith Qpower Qminmax Lqa Ascii.
From stdpp Require Import base option list strings gmap.

Set Warnings "-register-all".

Open Scope Z_scope.

(** ** JavaScript numbers *)

Module JS.

Inductive JSNumber :=
  | Fin (q : Q)
  | NaN
  | PosInf
  | NegInf.

Definition ofZ (z : Z) : JSNumber := Fin (inject_Z z).
Definition ofNat (n : nat) : JSNumber := ofZ (Z.of_nat n).

Definition Qltb (a b : Q) : bool := negb (Qle_bool b a).

(** [a < b] on numbers: every comparison with NaN is false. *)
Definition ltb (a b : JSNumber) : bool :=
  match a, b with
  | NaN, _ | _, NaN => false
  | Fin x, Fin y => Qltb x y
  | NegInf, (Fin _ | PosInf) => true
  | Fin _, PosInf => true
  | _, _ => false
  end.

Definition gtb (a b : JSNumber) : bool := ltb b a.

Definition isNaN (n : JSNumber) : bool :=
  match n with NaN => true | _ => false end.

(** ToBoolean on a number: [0] and [NaN] are falsy. *)
Definition numTruthy (n : JSNumber) : bool :=
  match n with
  | Fin q => negb (Qeq_bool q 0)
  | NaN => false
  | PosInf | NegInf => true
  end.

(** ** Strings

    A string is the UTF-8 encoding of the JavaScript string, one [ascii]
    per byte.  Strings with an unpaired surrogate have no encoding and are
    outside the model. *)

(** The UTF-16 code units a byte stands for: a code point below U+10000
    (one to three bytes, counted at its first byte) is one unit, a code
    point from U+10000 on (four bytes, first byte F0 or above) is two, and
    a continuation byte (80..BF) adds nothing. *)
Definition codeUnits (c : ascii) : nat :=
  let n := nat_of_ascii c in
  if (n <? 128)%nat then 1%nat
  else if (n <? 192)%nat then 0%nat
  else if (n <? 240)%nat then 1%nat
  else 2%nat.

(** [s.length] *)
Fixpoint length (s : string) : nat :=
  match s with
  | String c s' => (codeUnits c + length s')%nat
  | EmptyString => 0%nat
  end.

(** The code points of WhiteSpace and LineTerminator (ECMA-262, 12.2 and
    12.3), which [trim] and [Number] strip, by the bytes that encode them:
    - U+0009 to U+000D and U+0020: one byte;
    - U+00A0: C2 A0;
    - U+1680: E1 9A 80;
    - U+2000 to U+200A, U+2028, U+2029 and U+202F: E2 80 followed by
      80..8A, A8, A9 or AF;
    - U+205F: E2 81 9F;
    - U+3000: E3 80 80;
    - U+FEFF: EF BB BF. *)
Definition isWhiteSpace1 (a : ascii) : bool := Ascii.is_space a.

Definition isWhiteSpace2 (a b : ascii) : bool :=
  ((nat_of_ascii a =? 194) && (nat_of_ascii b =? 160))%nat.

Definition isWhiteSpace3 (a b c : ascii) : bool :=
  let x := nat_of_ascii a in
  let y := nat_of_ascii b in
  let z := nat_of_ascii c in
  ((x =? 225) && (y =? 154) && (z =? 128)
   || (x =? 226) && (y =? 128)
      && ((128 <=? z) && (z <=? 138) || (z =? 168) || (z =? 169)
          || (z =? 175))
   || (x =? 226) && (y =? 129) && (z =? 159)
   || (x =? 227) && (y =? 128) && (z =? 128)
   || (x =? 239) && (y =? 187) && (z =? 191))%nat.

(** Drops the white space at the front of [s], one code point at a time;
    [ws2] and [ws3] recognise the two-byte and three-byte ones. *)
Fixpoint stripLeading (ws2 : ascii -> ascii -> bool)
    (ws3 : ascii -> ascii -> ascii -> bool) (s : string) : string :=
  match s with
  | EmptyString => EmptyString
  | String a s1 =>
      if isWhiteSpace1 a then stripLeading ws2 ws3 s1
      else
        match s1 with
        | EmptyString => s
        | String b s2 =>
            if ws2 a b then stripLeading ws2 ws3 s2
            else
              match s2 with
              | EmptyString => s
              | String c s3 =>
                  if ws3 a b c then stripLeading ws2 ws3 s3 else s
              end
        end
  end.

Definition trimStart (s : string) : string :=
  stripLeading isWhiteSpace2 isWhiteSpace3 s.

(** The end is trimmed on the reversed string, where the bytes of a code
    point come last byte first. *)
Definition trimEnd (s : string) : string :=
  String.rev
    (stripLeading (fun a b => isWhiteSpace2 b a)
                  (fun a b c => isWhiteSpace3 c b a) (String.rev s)).

(** [s.trim()] *)
Definition trim (s : string) : string := trimEnd (trimStart s).

(** Whether every code point of [s] is in the ASCII range. *)
Fixpoint isASCII (s : string) : bool :=
  match s with
  | String c s' => (nat_of_ascii c <? 128)%nat && isASCII s'
  | EmptyString => true
  end.

Definition toLowerAscii (c : ascii) : ascii :=
  let n := nat_of_ascii c in
  if (Nat.leb 65 n && Nat.leb n 90)%bool then ascii_of_nat (n + 32) else c.

(** [s.toLowerCase()] for a string of ASCII characters: there the Unicode
    case conversion maps [A]..[Z] to [a]..[z] and leaves every other
    character as it is.  For other strings [toLowerCase] is the host's
    [String_toLowerCase]. *)
Fixpoint toLowerCaseASCII (s : string) : string :=
  match s with
  | String c s' => String (toLowerAscii c) (toLowerCaseASCII s')
  | EmptyString => EmptyString
  end.

(** [s.split(".").pop()]: the text after the last dot, the whole string
    when there is none. *)
Fixpoint lastSegment (acc : string) (s : string) : string :=
  match s with
  | EmptyString => String.rev acc
  | String c s' =>
      if Ascii.eqb c "."%char then lastSegment EmptyString s'
      else lastSegment (String c acc) s'
  end.

(** [l.join(sep)] *)
Fixpoint join (sep : string) (l : list string) : string :=
  match l with
  | [] => ""
  | [x] => x
  | x :: rest => x +:+ sep +:+ join sep rest
  end.

(** [s.startsWith(p)] *)
Definition startsWith (p s : string) : bool := String.prefix p s.

(** ** StringToNumber, the conversion behind [Number(aString)] *)

Definition digitValue (base : Z) (c : ascii) : option Z :=
  let n := Z.of_nat (nat_of_ascii c) in
  let v :=
    if (48 <=? n) && (n <=? 57) then Some (n - 48)
    else if (97 <=? n) && (n <=? 102) then Some (n - 87)
    else if (65 <=? n) && (n <=? 70) then Some (n - 55)
    else None in
  match v with
  | Some d => if d <? base then Some d else None
  | None => None
  end.

(** Reads the longest run of digits of [base]: its value, the number of
    digits read and the rest of the input. *)
Fixpoint takeDigits (base : Z) (acc : Z) (cnt : nat) (l : list ascii)
  : Z * nat * list ascii :=
  match l with
  | c :: l' =>
      match digitValue base c with
      | Some d => takeDigits base (acc * base + d) (S cnt) l'
      | None => (acc, cnt, l)
      end
  | [] => (acc, cnt, l)
  end.

Definition nonDecimal (base : Z) (l : list ascii) : JSNumber :=
  match takeDigits base 0 0%nat l with
  | (v, S _, []) => ofZ v
  | _ => NaN
  end.

Definition isExpMark (c : ascii) : bool :=
  (Ascii.eqb c "e" || Ascii.eqb c "E")%char.

(** The exponent part: [e], an optional sign and at least one digit, up to
    the end of the input. *)
Definition exponentPart (l : list ascii) : option Z :=
  match l with
  | [] => Some 0
  | c :: r =>
      if isExpMark c then
        let '(neg, r') :=
          match r with
          | "-"%char :: r' => (true, r')
          | "+"%char :: r' => (false, r')
          | _ => (false, r)
          end in
        match takeDigits 10 0 0%nat r' with
        | (e, S _, []) => Some (if neg : bool then - e else e)
        | _ => None
        end
      else None
  end.

(** An unsigned StrDecimalLiteral other than [Infinity]. *)
Definition unsignedDecimal (l : list ascii) : JSNumber :=
  let '(ip, ni, r1) := takeDigits 10 0 0%nat l in
  let '(fp, nf, r2) :=
    match r1 with
    | "."%char :: r => takeDigits 10 0 0%nat r
    | _ => (0, 0%nat, r1)
    end in
  match (ni + nf)%nat with
  | O => NaN
  | S _ =>
      match exponentPart r2 with
      | Some e =>
          let scale := 10 ^ Z.of_nat nf in
          Fin ((inject_Z (ip * scale + fp) / inject_Z scale)
               * Qpower (inject_Z 10) e)%Q
      | None => NaN
      end
  end.

Definition infinityLit : list ascii := String.list_ascii_of_string "Infinity".

Definition negate (n : JSNumber) : JSNumber :=
  match n with
  | Fin q => Fin (- q)%Q
  | NaN => NaN
  | PosInf => NegInf
  | NegInf => PosInf
  end.

Definition unsignedLiteral (l : list ascii) : JSNumber :=
  if bool_decide (l = infinityLit) then PosInf else unsignedDecimal l.

Definition StringToNumber (s : string) : JSNumber :=
  match String.list_ascii_of_string (trim s) with
  | [] => ofZ 0
  | "0"%char :: ("x" | "X")%char :: r => nonDecimal 16 r
  | "0"%char :: ("o" | "O")%char :: r => nonDecimal 8 r
  | "0"%char :: ("b" | "B")%char :: r => nonDecimal 2 r
  | "-"%char :: r => negate (unsignedLiteral r)
  | "+"%char :: r => unsignedLiteral r
  | l => unsignedLiteral l
  end.

End JS.

(** ** JavaScript values *)

Record File := mkFile { file_name : string; file_size : JS.JSNumber }.

(** The values a form answer can hold ([value: any]).  [JDate t] is a
    [Date] object with time value [t], [JFunction name] the built-in
    function that [Object.prototype] holds under [name], and [JObject] a
    plain object without conversions of its own, such as [{}] or
    [Object.prototype]. *)
Inductive JSValue :=
  | JUndefined
  | JNull
  | JBool (b : bool)
  | JNum (n : JS.JSNumber)
  | JStr (s : string)
  | JArr (elems : list JSValue)
  | JDate (t : JS.JSNumber)
  | JFile (f : File)
  | JFileList (files : list File)
  | JFunction (name : string)
  | JObject.

Inductive JSError := TypeError | SyntaxError.

(** The outcome of running a function body: it returns or it throws. *)
Inductive completion (A : Type) :=
  | Normal (a : A)
  | Throw (e : JSError).
Arguments Normal {A} a.
Arguments Throw {A} e.

Global Instance completion_ret : MRet completion := fun A a => Normal a.

Global Instance completion_bind : MBind completion := fun A B k c =>
  match c with
  | Normal a => k a
  | Throw e => Throw e
  end.

(** Services of the JavaScript host that are implementation-defined,
    table-driven or floating-point formatting.  [RegExp_test p s] is
    [new RegExp(p).test(s)], [None] when the constructor throws a
    SyntaxError; [Date_parse s] is the time value of [new Date(s)];
    [String_toLowerCase s] is [s.toLowerCase()], the Unicode case
    conversion with its context rule for the final sigma;
    [Function_toString name] is the source text a built-in function
    converts to; [formatFileSize] is the helper of form-validation.ts, which
    goes through [Math.log], [Math.pow] and [toFixed]. *)
Class JSHost := {
  RegExp_test : string -> string -> option bool;
  Date_parse : string -> JS.JSNumber;
  Number_toString : JS.JSNumber -> string;
  Date_toString : JS.JSNumber -> string;
  String_toLowerCase : string -> string;
  Function_toString : string -> string;
  formatFileSize : JS.JSNumber -> string;
}.

Section Coercions.
Context `{JSHost}.

(** [!!value] *)
Definition truthy (v : JSValue) : bool :=
  match v with
  | JUndefined | JNull => false
  | JBool b => b
  | JNum n => JS.numTruthy n
  | JStr s => negb (String.eqb s "")
  | JArr _ | JDate _ | JFile _ | JFileList _ | JFunction _ | JObject => true
  end.

(** [Array.isArray(value)] *)
Definition isArray (v : JSValue) : bool :=
  match v with JArr _ => true | _ => false end.

(** [String(value)], as used when an array is converted to a primitive. *)
Fixpoint ToString (v : JSValue) : string :=
  match v with
  | JUndefined => "undefined"
  | JNull => "null"
  | JBool true => "true"
  | JBool false => "false"
  | JNum n => Number_toString n
  | JStr s => s
  | JArr elems =>
      JS.join ","
        (map (fun e =>
                match e with
                | JUndefined | JNull => ""
                | _ => ToString e
                end) elems)
  | JDate t => Date_toString t
  | JFile _ => "[object File]"
  | JFileList _ => "[object FileList]"
  | JFunction name => Function_toString name
  | JObject => "[object Object]"
  end.

(** [Number(value)] *)
Definition Number (v : JSValue) : JS.JSNumber :=
  match v with
  | JUndefined => JS.NaN
  | JNull => JS.ofZ 0
  | JBool true => JS.ofZ 1
  | JBool false => JS.ofZ 0
  | JNum n => n
  | JStr s => JS.StringToNumber s
  | JArr _ => JS.StringToNumber (ToString v)
  | JDate t => t
  | JFile _ | JFileList _ | JFunction _ | JObject => JS.NaN
  end.

End Coercions.

(** ** The schema model (lib/form-schema.ts) *)

Inductive SelectionType := single | multi.

Record DropdownOption := mkOption {
  option_id : string;
  option_label : string;
  option_value : string;
}.

(** [BaseFieldProperties.validation] *)
Record ValidationRules := mkRules {
  rule_required : option bool;
  minLength : option JS.JSNumber;
  maxLength : option JS.JSNumber;
  pattern : option string;
}.

(** The property bag of a field.  form-validation.ts reads it through
    [as any], so the model is the union of the keys of
    [BaseFieldProperties], [DatePickerProperties], [DropdownProperties],
    [NumberProperties] and [FileUploadProperties]; a key that is absent
    reads [undefined] ([None]). *)
Record FieldProperties := mkProps {
  placeholder : option string;
  validation : option ValidationRules;
  dateFormat : option string;
  options : option (list DropdownOption);
  selectionType : option SelectionType;
  allowOther : option bool;
  min : option JS.JSNumber;
  max : option JS.JSNumber;
  step : option JS.JSNumber;
  acceptedTypes : option (list string);
  maxSize : option JS.JSNumber;
  multiple : option bool;
}.

Definition noProps : FieldProperties :=
  mkProps None None None None None None None None None None None None.

(** A reference to a property bag: object identity matters because
    [{...field}] copies the reference, not the bag. *)
Abbreviation ref := nat.

Abbreviation PropStore := (gmap nat FieldProperties).

Record FormField := mkField {
  id : string;
  type : string;
  label : string;
  description : option string;
  required : bool;
  showDescription : bool;
  properties : ref;
  order : Z;
}.

Record FormSection := mkSection {
  section_id : string;
  title : string;
  section_description : option string;
  fields : list FormField;
  section_order : Z;
}.

(** [FormItem = FormField | FormSection] *)
Inductive FormItem :=
  | Field (f : FormField)
  | Section (s : FormSection).

Record FormSchema := mkSchema {
  schema_id : string;
  schema_title : string;
  schema_description : option string;
  items : list FormItem;
  createdAt : Z;
  updatedAt : Z;
}.

(** ["type" in item] *)
Definition isFormField (item : FormItem) : bool :=
  match item with Field _ => true | Section _ => false end.

(** ["fields" in item] *)
Definition isFormSection (item : FormItem) : bool :=
  match item with Section _ => true | Field _ => false end.

Definition item_id (item : FormItem) : string :=
  match item with Field f => id f | Section s => section_id s end.

Definition item_order (item : FormItem) : Z :=
  match item with Field f => order f | Section s => section_order s end.

Definition getAllFields (its : list FormItem) : list FormField :=
  flat_map (fun item =>
              match item with
              | Field f => [f]
              | Section s => fields s
              end) its.

Definition createDefaultSection (newId : string) : FormSection :=
  mkSection newId "New Section" (Some "") [] 0.

(** ** Validation (lib/form-validation.ts) *)

Record ValidationError := mkError {
  fieldId : string;
  message : string;
}.

Record ValidationResult := mkResult {
  isValid : bool;
  errors : list ValidationError;
}.

(** The arms of [switch (field.type)] in [validateField]; [OtherCase] is
    the fall-through when no [case] label matches. *)
Inductive TypeCase :=
  | TextCase | NumberCase | DateCase | DropdownCase | FileCase | OtherCase.

Definition typeCase (t : string) : TypeCase :=
  if String.eqb t "short-text" then TextCase
  else if String.eqb t "long-text" then TextCase
  else if String.eqb t "number" then NumberCase
  else if String.eqb t "date-picker" then DateCase
  else if String.eqb t "dropdown" then DropdownCase
  else if String.eqb t "file-upload" then FileCase
  else OtherCase.

Section Validation.
Context `{JSHost}.
Variable store : PropStore.

(** [field.properties as any], at the first property access: reading a
    key of [undefined] throws a TypeError. *)
Definition propertiesOf (field : FormField) : completion FieldProperties :=
  match store !! properties field with
  | Some p => Normal p
  | None => Throw TypeError
  end.

(** [!value || (typeof value === "string" && value.trim() === "")] *)
Definition isBlank (value : JSValue) : bool :=
  negb (truthy value)
  || match value with
     | JStr s => String.eqb (JS.trim s) ""
     | _ => false
     end.

Definition err (field : FormField) (suffix : string) : ValidationError :=
  mkError (id field) (label field +:+ suffix).

Definition isValidDate (value : JSValue) : bool :=
  match value with
  | JDate t => negb (JS.isNaN t)
  | JStr s => negb (JS.isNaN (Date_parse s))
  | _ => false
  end.

Definition textChecks (field : FormField) (s : string)
  : completion (list ValidationError) :=
  properties ← propertiesOf field;
  let rules := validation properties in
  let len := JS.ofNat (JS.length s) in
  let tooShort :=
    match rules ≫= minLength with
    | Some m =>
        if JS.numTruthy m && JS.ltb len m
        then [err field (" must be at least " +:+ Number_toString m
                         +:+ " characters")]
        else []
    | None => []
    end in
  let tooLong :=
    match rules ≫= maxLength with
    | Some m =>
        if JS.numTruthy m && JS.gtb len m
        then [err field (" must be no more than " +:+ Number_toString m
                         +:+ " characters")]
        else []
    | None => []
    end in
  match rules ≫= pattern with
  | Some p =>
      if String.eqb p "" then Normal (tooShort ++ tooLong)
      else
        match RegExp_test p s with
        | None => Throw SyntaxError
        | Some true => Normal (tooShort ++ tooLong)
        | Some false =>
            Normal (tooShort ++ tooLong ++ [err field " format is invalid"])
        end
  | None => Normal (tooShort ++ tooLong)
  end.

Definition numberChecks (field : FormField) (value : JSValue)
  : completion (list ValidationError) :=
  let numValue := Number value in
  if JS.isNaN numValue then Normal [err field " must be a valid number"]
  else
    properties ← propertiesOf field;
    let below :=
      match min properties with
      | Some m =>
          if JS.ltb numValue m
          then [err field (" must be at least " +:+ Number_toString m)]
          else []
      | None => []
      end in
    let above :=
      match max properties with
      | Some m =>
          if JS.gtb numValue m
          then [err field (" must be no more than " +:+ Number_toString m)]
          else []
      | None => []
      end in
    Normal (below ++ above).

Definition dateChecks (field : FormField) (value : JSValue)
  : completion (list ValidationError) :=
  if truthy value && negb (isValidDate value)
  then Normal [err field " must be a valid date"]
  else Normal [].

Definition dropdownChecks (field : FormField) (value : JSValue)
  : completion (list ValidationError) :=
  properties ← propertiesOf field;
  let notSingle :=
    match selectionType properties with
    | Some single =>
        if isArray value
        then [err field " allows only single selection"] else []
    | _ => []
    end in
  let notMulti :=
    match selectionType properties with
    | Some multi =>
        if negb (isArray value)
        then [err field " requires array for multiple selection"] else []
    | _ => []
    end in
  Normal (notSingle ++ notMulti).

(** ["." + file.name.split(".").pop()?.toLowerCase()] *)
Definition extensionOf (f : File) : string :=
  "." +:+ String_toLowerCase (JS.lastSegment "" (file_name f)).

(** [accepted.includes(extension)] *)
Definition includes (accepted : list string) (ext : string) : bool :=
  existsb (String.eqb ext) accepted.

Definition fileChecks (field : FormField) (value : JSValue)
  : completion (list ValidationError) :=
  let candidates :=
    match value with
    | JFileList fs => Some (map JFile fs)
    | JArr elems => Some elems
    | _ => None
    end in
  match candidates with
  | None => Normal []
  | Some files =>
      fileProperties ← propertiesOf field;
      let badType :=
        match acceptedTypes fileProperties with
        | Some (t :: ts) =>
            if existsb (fun v =>
                          match v with
                          | JFile f => negb (includes (t :: ts) (extensionOf f))
                          | _ => false
                          end) files
            then [err field (" accepts only " +:+ JS.join ", " (t :: ts)
                             +:+ " files")]
            else []
        | _ => []
        end in
      let tooBig :=
        match maxSize fileProperties with
        | Some m =>
            if JS.numTruthy m
               && existsb (fun v =>
                             match v with
                             | JFile f => JS.gtb (file_size f) m
                             | _ => false
                             end) files
            then [err field (" file size must be less than "
                             +:+ formatFileSize m)]
            else []
        | None => []
        end in
      let tooMany :=
        if negb (default false (multiple fileProperties))
           && (1 <? length files)%nat
        then [err field " allows only single file upload"] else [] in
      Normal (badType ++ tooBig ++ tooMany)
  end.

Definition validateField (field : FormField) (value : JSValue)
  : completion (list ValidationError) :=
  if required field && isBlank value then
    Normal [err field " is required"]
  else if isBlank value then
    Normal []
  else
    match typeCase (type field) with
    | TextCase =>
        match value with
        | JStr s => textChecks field s
        | _ => Normal []
        end
    | NumberCase => numberChecks field value
    | DateCase => dateChecks field value
    | DropdownCase => dropdownChecks field value
    | FileCase => fileChecks field value
    | OtherCase => Normal []
    end.

(** The members every plain object inherits from [Object.prototype]
    (ECMA-262, 20.1.3 and B.2.2): eleven built-in functions, and
    [__proto__], whose getter returns [Object.prototype] itself. *)
Definition ObjectPrototype_functions : list string :=
  ["constructor"; "hasOwnProperty"; "isPrototypeOf"; "propertyIsEnumerable";
   "toLocaleString"; "toString"; "valueOf"; "__defineGetter__";
   "__defineSetter__"; "__lookupGetter__"; "__lookupSetter__"].

Definition ObjectPrototype (key : string) : option JSValue :=
  if String.eqb key "__proto__" then Some JObject
  else if existsb (String.eqb key) ObjectPrototype_functions
  then Some (JFunction key)
  else None.

(** [values[field.id]].  [values] is a plain object ([{}], or a spread of
    one): the finite map holds its own properties, and a key it does not
    own is looked up in [Object.prototype]. *)
Definition valueOf (values : gmap string JSValue) (fieldId : string)
  : JSValue :=
  match values !! fieldId with
  | Some value => value
  | None => default JUndefined (ObjectPrototype fieldId)
  end.

(** [validateForm(schema, values)]; it reads [schema.sections] only. *)
Definition validateForm (sections : list FormSection)
    (values : gmap string JSValue) : completion ValidationResult :=
  perSection ←
    mapM (fun section =>
            perField ←
              mapM (fun field => validateField field (valueOf values (id field)))
                   (fields section);
            mret (concat perField))
         sections;
  let errors := concat perSection in
  mret (mkResult (Nat.eqb (length errors) 0) errors).

End Validation.

(** ** Default fields (lib/form-schema.ts) *)

(** [FIELD_TYPES[type].label]; [None] when the table has no such key. *)
Definition FIELD_TYPES_label (t : string) : option string :=
  if String.eqb t "short-text" then Some "Short Text"
  else if String.eqb t "long-text" then Some "Long Text"
  else if String.eqb t "date-picker" then Some "Date Picker"
  else if String.eqb t "dropdown" then Some "Dropdown"
  else if String.eqb t "file-upload" then Some "File Upload"
  else if String.eqb t "number" then Some "Number"
  else if String.eqb t "udf-designation" then Some "Designation"
  else if String.eqb t "udf-department" then Some "Department"
  else if String.eqb t "udf-location" then Some "Location"
  else if String.eqb t "udf-blood-group" then Some "Blood Group"
  else if String.eqb t "udf-education" then Some "Education"
  else None.

(** [createDefaultField] lower-cases the label it reads from [FIELD_TYPES];
    those labels are ASCII, so [toLowerCase] is [JS.toLowerCaseASCII] on
    them. *)
Definition withPlaceholder (p : string) : FieldProperties :=
  mkProps (Some p) None None None None None None None None None None None.

Definition defaultProperties (t lbl : string) : FieldProperties :=
  if String.eqb t "date-picker" then
    mkProps (Some "Select a date") None (Some "MM/DD/YYYY") None None None
            None None None None None None
  else if String.eqb t "dropdown" then
    mkProps (Some "Select an option") None None
            (Some [mkOption "1" "Option 1" "option1"]) (Some single) None
            None None None None None None
  else if String.eqb t "number" then
    mkProps (Some "Enter a number") None None None None None
            (Some (JS.ofZ 0)) None (Some (JS.ofZ 1)) None None None
  else if String.eqb t "file-upload" then
    mkProps None None None None None None None None None
            (Some [".pdf"; ".doc"; ".docx"]) (Some (JS.ofZ 10485760))
            (Some false)
  else withPlaceholder ("Enter " +:+ JS.toLowerCaseASCII lbl).

(** [Omit<FormField, "id" | "order">], with the property bag the call
    allocates held inline. *)
Record FieldBody := mkBody {
  body_type : string;
  body_label : string;
  body_description : option string;
  body_required : bool;
  body_showDescription : bool;
  body_properties : FieldProperties;
}.

(** [createDefaultField(type)].  Reading [.label] of a missing table entry
    throws. *)
Definition createDefaultField (t : string) : completion FieldBody :=
  match FIELD_TYPES_label t with
  | Some lbl =>
      Normal (mkBody t lbl (Some "") false false (defaultProperties t lbl))
  | None => Throw TypeError
  end.

(** ** The canvas (components/form-builder/FormCanvas.tsx) *)

(** [Array.prototype.splice]: the clamped start index. *)
Definition spliceStart (len : nat) (start : Z) : nat :=
  if start <? 0 then Z.to_nat (Z.max (Z.of_nat len + start) 0)
  else Z.to_nat (Z.min start (Z.of_nat len)).

(** [l.splice(start, 0, x)] *)
Definition spliceInsert {A} (start : Z) (x : A) (l : list A) : list A :=
  let i := spliceStart (length l) start in
  take i l ++ x :: drop i l.

(** [l.splice(start, 1)]: the array afterwards. *)
Definition spliceRemove {A} (start : Z) (l : list A) : list A :=
  let i := spliceStart (length l) start in
  take i l ++ drop (S i) l.

(** [l.findIndex(p)], [-1] when no element satisfies [p]. *)
Fixpoint findIndexFrom {A} (p : A -> bool) (l : list A) (i : Z) : Z :=
  match l with
  | [] => -1
  | x :: rest => if p x then i else findIndexFrom p rest (i + 1)
  end.

Definition findIndex {A} (p : A -> bool) (l : list A) : Z :=
  findIndexFrom p l 0.

Definition setOrder (f : FormField) (o : Z) : FormField :=
  mkField (id f) (type f) (label f) (description f) (required f)
          (showDescription f) (properties f) o.

Definition setFields (s : FormSection) (fs : list FormField) : FormSection :=
  mkSection (section_id s) (title s) (section_description s) fs
            (section_order s).

Definition setItemOrder (item : FormItem) (o : Z) : FormItem :=
  match item with
  | Field f => Field (setOrder f o)
  | Section s =>
      Section (mkSection (section_id s) (title s) (section_description s)
                         (fields s) o)
  end.

Definition setItems (schema : FormSchema) (its : list FormItem) : FormSchema :=
  mkSchema (schema_id schema) (schema_title schema)
           (schema_description schema) its (createdAt schema)
           (updatedAt schema).

(** [fields.forEach((field, index) => { field.order = index })] *)
Definition renumberFields (fs : list FormField) : list FormField :=
  imap (fun i f => setOrder f (Z.of_nat i)) fs.

(** [items.forEach((item, index) => { item.order = index })] *)
Definition renumberItems (its : list FormItem) : list FormItem :=
  imap (fun i item => setItemOrder item (Z.of_nat i)) its.

(** An optional string argument used as a condition: [if (targetId)]. *)
Definition given (o : option string) : option string :=
  match o with
  | Some s => if String.eqb s "" then None else Some s
  | None => None
  end.

Definition isSectionWithId (sid : string) (item : FormItem) : bool :=
  isFormSection item && String.eqb (item_id item) sid.

Definition hasId (fid : string) (f : FormField) : bool :=
  String.eqb (id f) fid.

(** Applies [g] to the fields of the section stored at index [i]. *)
Definition onSectionAt (i : Z) (g : list FormField -> list FormField)
    (its : list FormItem) : list FormItem :=
  if i <? 0 then its
  else
    alter (fun item =>
             match item with
             | Section s => Section (setFields s (g (fields s)))
             | Field f => Field f
             end) (Z.to_nat i) its.

(** Where the scanning loops of the handlers find a field: directly in
    [items] at [index], or in the section at [index] at [fieldIndex]. *)
Inductive Located :=
  | InMain (index : nat) (f : FormField)
  | InSection (index : nat) (s : FormSection) (fieldIndex : nat)
              (f : FormField).

(** The loop shared by reorder, update, delete and clone: the first item
    that is the field, or is a section holding it. *)
Fixpoint locateFrom (fid : string) (its : list FormItem) (i : nat)
  : option Located :=
  match its with
  | [] => None
  | Field f :: rest =>
      if hasId fid f then Some (InMain i f) else locateFrom fid rest (S i)
  | Section s :: rest =>
      let j := findIndex (hasId fid) (fields s) in
      match (if j <? 0 then None else fields s !! Z.to_nat j) with
      | Some f => Some (InSection i s (Z.to_nat j) f)
      | None => locateFrom fid rest (S i)
      end
  end.

Definition locate (fid : string) (its : list FormItem) : option Located :=
  locateFrom fid its 0.

(** The insertion step shared by [handleAddField] and
    [handleReorderField]. *)
Definition insertAt (targetId : option string) (position : option Z)
    (f : FormField) (its : list FormItem) : list FormItem :=
  match given targetId with
  | Some sid =>
      let sectionIndex := findIndex (isSectionWithId sid) its in
      onSectionAt sectionIndex
        (fun fs =>
           renumberFields
             (spliceInsert (default (Z.of_nat (length fs)) position) f fs))
        its
  | None =>
      renumberItems
        (spliceInsert (default (Z.of_nat (length its)) position) (Field f) its)
  end.

(** The state the canvas reads and reports back: the schema (through
    [onSchemaChange]), the selection (through [onFieldSelect]), the open
    sections and the store of property bags. *)
Record Editor := mkEditor {
  store : PropStore;
  schema : FormSchema;
  selectedField : option string;
  openSections : gmap string bool;
}.

Definition withItems (ed : Editor) (its : list FormItem) : Editor :=
  mkEditor (store ed) (setItems (schema ed) its) (selectedField ed)
           (openSections ed).

(** [generateId()] draws from [Math.random]; the handlers below take the
    drawn id as the argument [newId]. *)
Definition handleAddField (newId : string) (fieldType : string)
    (targetId : option string) (position : option Z) (ed : Editor)
  : completion Editor :=
  defaultField ← createDefaultField fieldType;
  let r := fresh (dom (store ed)) in
  let newField :=
    mkField newId (body_type defaultField) (body_label defaultField)
            (body_description defaultField) (body_required defaultField)
            (body_showDescription defaultField) r 0 in
  let its := insertAt targetId position newField (items (schema ed)) in
  mret (mkEditor (<[r := body_properties defaultField]> (store ed))
                 (setItems (schema ed) its) (Some newId) (openSections ed)).

Definition handleReorderField (fieldId : string) (targetId : option string)
    (position : option Z) (ed : Editor) : Editor :=
  let its := items (schema ed) in
  match locate fieldId its with
  | None => ed
  | Some (InMain i sourceField) =>
      withItems ed
        (insertAt targetId position sourceField (spliceRemove (Z.of_nat i) its))
  | Some (InSection i s j sourceField) =>
      let removed :=
        onSectionAt (Z.of_nat i) (spliceRemove (Z.of_nat j)) its in
      let inserted := insertAt targetId position sourceField removed in
      withItems ed
        (if String.eqb (section_id s) "" then inserted
         else onSectionAt (findIndex (isSectionWithId (section_id s)) inserted)
                          renumberFields inserted)
  end.

(** [const [moved] = items.splice(from, 1); items.splice(to, 0, moved)]
    followed by the re-numbering of all items. *)
Definition moveItem (from : Z) (to : Z) (its : list FormItem)
  : list FormItem :=
  match its !! spliceStart (length its) from with
  | Some moved =>
      renumberItems (spliceInsert to moved (spliceRemove from its))
  | None =>
      (* nothing to take out: the handlers never get here, see
         [moveItem_source_exists] *)
      its
  end.

Definition handleReorderSection (sectionId : string) (newPosition : option Z)
    (ed : Editor) : Editor :=
  let its := items (schema ed) in
  let sectionIndex := findIndex (isSectionWithId sectionId) its in
  match newPosition with
  | Some p =>
      if 0 <=? sectionIndex then withItems ed (moveItem sectionIndex p its)
      else ed
  | None => ed
  end.

Definition handleDialogSectionReorder (draggedSectionId : string)
    (targetPosition : option Z) (ed : Editor) : Editor :=
  let its := items (schema ed) in
  let draggedIndex := findIndex (isSectionWithId draggedSectionId) its in
  match targetPosition with
  | Some p =>
      if negb (draggedIndex =? -1) then withItems ed (moveItem draggedIndex p its)
      else ed
  | None => ed
  end.

Definition handleMoveSectionUp (sectionId : string) (ed : Editor) : Editor :=
  let its := items (schema ed) in
  let currentIndex := findIndex (isSectionWithId sectionId) its in
  if 0 <? currentIndex
  then withItems ed (moveItem currentIndex (currentIndex - 1) its)
  else ed.

Definition handleMoveSectionDown (sectionId : string) (ed : Editor) : Editor :=
  let its := items (schema ed) in
  let currentIndex := findIndex (isSectionWithId sectionId) its in
  if currentIndex <? Z.of_nat (length its) - 1
  then withItems ed (moveItem currentIndex (currentIndex + 1) its)
  else ed.

(** [Partial<FormField>]: the keys an update carries. *)
Record FieldUpdate := mkUpdate {
  u_id : option string;
  u_type : option string;
  u_label : option string;
  u_description : option (option string);
  u_required : option bool;
  u_showDescription : option bool;
  u_properties : option ref;
  u_order : option Z;
}.

(** [Object.assign(field, updates)] *)
Definition assign (f : FormField) (u : FieldUpdate) : FormField :=
  mkField (default (id f) (u_id u)) (default (type f) (u_type u))
          (default (label f) (u_label u))
          (default (description f) (u_description u))
          (default (required f) (u_required u))
          (default (showDescription f) (u_showDescription u))
          (default (properties f) (u_properties u))
          (default (order f) (u_order u)).

Definition handleUpdateField (fieldId : string) (updates : FieldUpdate)
    (ed : Editor) : Editor :=
  let its := items (schema ed) in
  match locate fieldId its with
  | None => withItems ed its
  | Some (InMain i f) => withItems ed (<[i := Field (assign f updates)]> its)
  | Some (InSection i s j f) =>
      withItems ed
        (onSectionAt (Z.of_nat i) (fun fs => <[j := assign f updates]> fs) its)
  end.

Definition handleDeleteField (fieldId : string) (ed : Editor) : Editor :=
  let its := items (schema ed) in
  let removed :=
    match locate fieldId its with
    | None => its
    | Some (InMain i _) => spliceRemove (Z.of_nat i) its
    | Some (InSection i _ j _) =>
        onSectionAt (Z.of_nat i)
          (fun fs => renumberFields (spliceRemove (Z.of_nat j) fs)) its
    end in
  mkEditor (store ed) (setItems (schema ed) (renumberItems removed))
           (if bool_decide (selectedField ed = Some fieldId) then None
            else selectedField ed)
           (openSections ed).

(** [{ ...field, id: generateId(), label: `${field.label} (Copy)`, order }]:
    every other key, the [properties] reference included, is copied as
    it is. *)
Definition cloneOf (newId : string) (f : FormField) (o : Z) : FormField :=
  mkField newId (type f) (label f +:+ " (Copy)") (description f) (required f)
          (showDescription f) (properties f) o.

Definition handleCloneField (newId : string) (fieldId : string) (ed : Editor)
  : Editor :=
  let its := items (schema ed) in
  match locate fieldId its with
  | None => withItems ed its
  | Some (InMain i f) =>
      withItems ed
        (spliceInsert (Z.of_nat i + 1)
                      (Field (cloneOf newId f (Z.of_nat i + 1))) its)
  | Some (InSection i s j f) =>
      withItems ed
        (onSectionAt (Z.of_nat i)
           (fun fs =>
              renumberFields
                (spliceInsert (Z.of_nat j + 1)
                              (cloneOf newId f (Z.of_nat j + 1)) fs))
           its)
  end.

Definition handleAddSection (newId : string) (ed : Editor) : Editor :=
  let its := items (schema ed) in
  let s := createDefaultSection newId in
  let newSection :=
    mkSection (section_id s) (title s) (section_description s) (fields s)
              (Z.of_nat (length its)) in
  mkEditor (store ed) (setItems (schema ed) (its ++ [Section newSection]))
           (selectedField ed) (<[section_id newSection := true]> (openSections ed)).

Definition handleDeleteSection (sectionId : string) (ed : Editor) : Editor :=
  let its := items (schema ed) in
  let sectionIndex := findIndex (isSectionWithId sectionId) its in
  if 0 <=? sectionIndex
  then withItems ed (renumberItems (spliceRemove sectionIndex its))
  else ed.

Inductive MetaKey := TitleKey | DescriptionKey.

Definition handleSectionUpdate (sectionId : string) (key : MetaKey)
    (value : string) (ed : Editor) : Editor :=
  let its := items (schema ed) in
  let i := findIndex (isSectionWithId sectionId) its in
  if i <? 0 then ed
  else
    withItems ed
      (alter (fun item =>
                match item with
                | Section s =>
                    Section
                      (match key with
                       | TitleKey =>
                           mkSection (section_id s) value
                                     (section_description s) (fields s)
                                     (section_order s)
                       | DescriptionKey =>
                           mkSection (section_id s) (title s) (Some value)
                                     (fields s) (section_order s)
                       end)
                | Field f => Field f
                end) (Z.to_nat i) its).

(** *** Drop position *)

(** The part of [getBoundingClientRect()] that the code reads. *)
Record DOMRect := mkRect { top : Q; height : Q }.

Definition elementMiddle (rect : DOMRect) : Q :=
  (top rect + height rect / 2)%Q.

(** The [for] loop over the queried elements: the first index [i] with
    [mouseY < elementMiddle]. *)
Fixpoint firstBelow (mouseY : Q) (rects : list DOMRect) (i : nat)
  : option nat :=
  match rects with
  | [] => None
  | rect :: rest =>
      if JS.Qltb mouseY (elementMiddle rect) then Some i
      else firstBelow mouseY rest (S i)
  end.

(** [getDropZonePosition(e, targetId)].  [mouseY] is [e.clientY] and
    [elements] the rectangles of
    [e.currentTarget.querySelectorAll("[data-item-id]")] (main area) or
    [("[data-field-id]")] (a section), in document order. *)
Definition getDropZonePosition (its : list FormItem) (mouseY : Q)
    (elements : list DOMRect) (targetId : option string) : nat :=
  match given targetId with
  | None => default (length its) (firstBelow mouseY elements 0)
  | Some sid =>
      match find (isSectionWithId sid) its with
      | Some (Section section) =>
          default (length (fields section)) (firstBelow mouseY elements 0)
      | _ => 0%nat
      end
  end.

(** The canvas renders one [data-item-id] element per item of
    [schema.items], and inside a section's drop zone one [data-field-id]
    element per field of the section. *)
Definition renderedItems (layout : string -> DOMRect) (its : list FormItem)
  : list DOMRect :=
  map (fun item => layout (item_id item)) its.

Definition renderedFields (layout : string -> DOMRect) (s : FormSection)
  : list DOMRect :=
  map (fun f => layout (id f)) (fields s).

(** ** The renderer (components/form-builder/FormRenderer.tsx) *)

(** [value !== undefined && value !== null && value !== ""] *)
Definition answered (value : JSValue) : bool :=
  match value with
  | JUndefined | JNull => false
  | JStr s => negb (String.eqb s "")
  | _ => true
  end.

Definition canSubmit (schema : FormSchema) (formValues : gmap string JSValue)
  : bool :=
  let allFields := getAllFields (items schema) in
  let requiredFields := filter (fun field => required field = true) allFields in
  forallb (fun field => answered (valueOf formValues (id field))) requiredFields.

(** The [sections] of the temporary schema that [handleSubmit] builds. *)
Definition tempSections (schema : FormSchema) : list FormSection :=
  [mkSection "temp" "Form" (Some "") (getAllFields (items schema)) 0].

(** The validation step of [handleSubmit]. *)
Definition submitValidation `{JSHost} (st : PropStore) (schema : FormSchema)
    (formValues : gmap string JSValue) : completion ValidationResult :=
  validateForm st (tempSections schema) formValues.

Inductive Control :=
  | InputControl | TextareaControl | NumberInputControl | DateButtonControl
  | CheckboxGroupControl | SelectControl | FileInputControl.

(** What [renderField] puts inside the field wrapper: the control, whether
    it is disabled and its placeholder text. *)
Record Rendered := mkRendered {
  control : Control;
  isDisabled : bool;
  placeholderText : option string;
}.

Definition isUDF (field : FormField) : bool :=
  JS.startsWith "udf-" (type field).

(** [renderField(field, questionNumber, disabled)].  The property bag is
    only read in the [dropdown] and [file-upload] arms. *)
Definition renderField (st : PropStore) (field : FormField) (disabled : bool)
  : completion Rendered :=
  if isUDF field then
    Normal (mkRendered InputControl true
              (Some (label field +:+ " (auto-filled from user data)")))
  else if String.eqb (type field) "short-text" then
    Normal (mkRendered InputControl disabled (Some "Your Answer"))
  else if String.eqb (type field) "long-text" then
    Normal (mkRendered TextareaControl disabled (Some "Your Answer"))
  else if String.eqb (type field) "number" then
    match st !! properties field with
    | Some _ => Normal (mkRendered NumberInputControl disabled (Some "Your Answer"))
    | None => Throw TypeError
    end
  else if String.eqb (type field) "date-picker" then
    Normal (mkRendered DateButtonControl disabled (Some "Select a date"))
  else if String.eqb (type field) "dropdown" then
    match st !! properties field with
    | Some dropdownProps =>
        match selectionType dropdownProps with
        | Some multi => Normal (mkRendered CheckboxGroupControl disabled None)
        | _ => Normal (mkRendered SelectControl disabled (Some "Select"))
        end
    | None => Throw TypeError
    end
  else if String.eqb (type field) "file-upload" then
    match st !! properties field with
    | Some _ => Normal (mkRendered FileInputControl disabled None)
    | None => Throw TypeError
    end
  else
    Normal (mkRendered InputControl disabled (Some "Your Answer")).

(** ** Order density *)

(** Every element of the list carries its own index as [order]. *)
Definition denseFields (fs : list FormField) : bool :=
  forallb (fun '(i, f) => order f =? Z.of_nat i) (imap pair fs).

Definition denseItems (its : list FormItem) : bool :=
  forallb (fun '(i, item) => item_order item =? Z.of_nat i) (imap pair its).

(** Order density of a schema: the root items and every section's
    fields. *)
Definition orderDense (its : list FormItem) : bool :=
  denseItems its
  && forallb (fun item =>
                match item with
                | Section s => denseFields (fields s)
                | Field _ => true
                end) its.

(** ** Concrete data used by the examples *)

(** A host for the concrete evaluations: every pattern matches, no string
    parses as a date, numbers print as ["#"]; the examples lower-case ASCII
    strings only. *)
Definition exampleHost : JSHost := {|
  RegExp_test := fun _ _ => Some true;
  Date_parse := fun _ => JS.NaN;
  Number_toString := fun _ => "#";
  Date_toString := fun _ => "Invalid Date";
  String_toLowerCase := JS.toLowerCaseASCII;
  Function_toString := fun name => "function " +:+ name +:+ "() { [native code] }";
  formatFileSize := fun _ => "0 Bytes";
|}.

Definition textField (fid lbl : string) (req : bool) (r : ref) (o : Z)
  : FormField :=
  mkField fid "short-text" lbl (Some "") req false r o.

Definition typedField (fid ty lbl : string) (req : bool) (r : ref) (o : Z)
  : FormField :=
  mkField fid ty lbl (Some "") req false r o.

Definition schemaOf (its : list FormItem) : FormSchema :=
  mkSchema "form" "Untitled Form" (Some "") its 0 0.

Definition editorOf (st : PropStore) (its : list FormItem) : Editor :=
  mkEditor st (schemaOf its) None ∅.

(** The outcome of the required/empty gate of [validateField]. *)
Definition requiredOutcome (f : FormField) : list ValidationError :=
  if required f then [err f " is required"] else [].

(** Document order of the fields of a schema: walk the items top to
    bottom, a section contributing its fields at its own position. *)
Fixpoint documentOrder (its : list FormItem) : list FormField :=
  match its with
  | [] => []
  | Field f :: rest => f :: documentOrder rest
  | Section s :: rest => fields s ++ documentOrder rest
  end.

(** The required/empty rule at a value [v]: a required field gets exactly
    the one "required" error and nothing else is checked; a field that is
    not required gets no error. *)
Definition RequiredEmptyRule `{JSHost} (st : PropStore) (f : FormField)
    (v : JSValue) : Prop :=
  (required f = true -> validateField st f v = Normal [err f " is required"])
  /\ (required f = false -> validateField st f v = Normal []).

(** An auto-filled field takes no part in validation: no error, whatever
    the value. *)
Definition NeverValidated `{JSHost} (st : PropStore) (f : FormField) : Prop :=
  forall v, validateField st f v = Normal [].

(** The provenance rendering of an auto-filled field. *)
Definition provenance (f : FormField) : Rendered :=
  mkRendered InputControl true
             (Some (label f +:+ " (auto-filled from user data)")).

Definition multiSelect : FieldProperties :=
  mkProps None None None (Some []) (Some multi) None None None None None None
          None.

Definition singleSelect : FieldProperties :=
  mkProps None None None (Some []) (Some single) None None None None None None
          None.

(** The insertion index among sibling rectangles, characterised: no
    sibling before position [k] has its vertical midpoint below the pointer,
    and the sibling at position [k], if there is one, has; so [k] is the
    position of the first such sibling, and the list length when there is
    none. *)
Definition DropIndex (mouseY : Q) (rects : list DOMRect) (k : nat) : Prop :=
  (k <= length rects)%nat
  /\ (forall j r, (j < k)%nat -> rects !! j = Some r ->
                  ~ (mouseY < top r + height r / 2)%Q)
  /\ (forall r, rects !! k = Some r -> (mouseY < top r + height r / 2)%Q).

(** Three siblings with vertical midpoints 10, 30 and 50. *)
Definition threeRects : list DOMRect :=
  [mkRect 0 20; mkRect 20 20; mkRect 40 20].

Definition threeFields : list FormItem :=
  [Field (textField "f1" "One" false 0 0);
   Field (textField "f2" "Two" false 1 1);
   Field (textField "f3" "Three" false 2 2)].

(** *** Places in a schema *)

(** A position a field can occupy: index [i] of the root items, or index
    [j] of the fields of the section at root index [i]. *)
Inductive Place :=
  | AtRoot (i : nat)
  | InSec (i j : nat).

Definition placeOf (loc : Located) : Place :=
  match loc with
  | InMain i _ => AtRoot i
  | InSection i _ j _ => InSec i j
  end.

Definition locatedField (loc : Located) : FormField :=
  match loc with
  | InMain _ f => f
  | InSection _ _ _ f => f
  end.

(** The position right after [p] in the same list. *)
Definition nextPlace (p : Place) : Place :=
  match p with
  | AtRoot i => AtRoot (S i)
  | InSec i j => InSec i (S j)
  end.

Definition indexIn (p : Place) : nat :=
  match p with AtRoot i => i | InSec _ j => j end.

Definition fieldAtPlace (its : list FormItem) (p : Place)
  : option FormField :=
  match p with
  | AtRoot i =>
      match its !! i with Some (Field f) => Some f | _ => None end
  | InSec i j =>
      match its !! i with Some (Section s) => fields s !! j | _ => None end
  end.

(** The [order] values of the list that holds place [p]. *)
Definition siblingOrders (its : list FormItem) (p : Place) : list Z :=
  match p with
  | AtRoot _ => map item_order its
  | InSec i _ =>
      match its !! i with
      | Some (Section s) => map order (fields s)
      | _ => []
      end
  end.

(** Writes [f] at place [p] and changes nothing else. *)
Definition putField (p : Place) (f : FormField) (its : list FormItem)
  : list FormItem :=
  match p with
  | AtRoot i => <[i := Field f]> its
  | InSec i j =>
      match its !! i with
      | Some (Section s) => <[i := Section (setFields s (<[j := f]> (fields s)))]> its
      | _ => its
      end
  end.

(** Every id in use: the items' and the fields'. *)
Definition allIds (its : list FormItem) : list string :=
  map item_id its ++ map id (getAllFields its).

(** Clone correctness: the clone [F'] of the located field [F] sits right
    after [F] in the same list, has an id that no element had, the label
    of [F] followed by [" (Copy)"], a property bag equal to that of [F]
    yet independent of it (writing the bag of [F'] leaves the bag of [F]
    as it was), and every sibling from the insertion point on carries its
    index as [order]. *)
Definition CloneCorrect (ed : Editor) (newId fid : string) : Prop :=
  forall loc, locate fid (items (schema ed)) = Some loc ->
    let F := locatedField loc in
    let ed' := handleCloneField newId fid ed in
    exists F',
      fieldAtPlace (items (schema ed')) (nextPlace (placeOf loc)) = Some F'
      /\ (id F' ∉ allIds (items (schema ed)))
      /\ label F' = label F +:+ " (Copy)"
      /\ store ed' !! properties F' = store ed !! properties F
      /\ (forall bag : FieldProperties,
             (<[properties F' := bag]> (store ed')) !! properties F
             = store ed' !! properties F)
      /\ (forall k o, (indexIn (nextPlace (placeOf loc)) <= k)%nat ->
                      siblingOrders (items (schema ed')) (placeOf loc) !! k
                      = Some o ->
                      o = Z.of_nat k).

(** What [handleUpdateField] is to do on the located field [F]: put in
    its place a field that takes each key from the update when the update
    has it and from [F] otherwise, except that [id] and [order] stay those
    of [F]; nothing else changes. *)
Definition UpdateFrame (ed : Editor) (fid : string) (u : FieldUpdate)
  : Prop :=
  forall loc, locate fid (items (schema ed)) = Some loc ->
    let F := locatedField loc in
    exists F',
      items (schema (handleUpdateField fid u ed))
      = putField (placeOf loc) F' (items (schema ed))
      /\ id F' = id F
      /\ order F' = order F
      /\ type F' = default (type F) (u_type u)
      /\ label F' = default (label F) (u_label u)
      /\ description F' = default (description F) (u_description u)
      /\ required F' = default (required F) (u_required u)
      /\ showDescription F' = default (showDescription F) (u_showDescription u)
      /\ properties F' = default (properties F) (u_properties u).

Definition noUpdate : FieldUpdate :=
  mkUpdate None None None None None None None None.

Definition fieldA : FormField := textField "a" "A" false 0 0.
Definition fieldB : FormField := textField "b" "B" false 1 1.

Definition twoBags : PropStore :=
  {[ 0%nat := withPlaceholder "Enter a"; 1%nat := withPlaceholder "Enter b" ]}.

Definition emptySection (sid : string) (o : Z) : FormSection :=
  mkSection sid "New Section" (Some "") [] o.

(** Every section of the list has densely ordered fields. *)
Definition SectionsDense (its : list FormItem) : Prop :=
  Forall (fun item =>
            match item with
            | Section s => denseFields (fields s) = true
            | Field _ => True
            end) its.

(** The ids an item brings into the document: a field's id; a section's
    id followed by the ids of its fields. *)
Definition itemIds (item : FormItem) : list string :=
  match item with
  | Field f => [id f]
  | Section s => section_id s :: map id (fields s)
  end.

(** Every id of the document, in document order. *)
Definition documentIds (its : list FormItem) : list string :=
  flat_map itemIds its.

Definition sectionAB : FormSection :=
  mkSection "s" "S" None [fieldA; fieldB] 0.

(** The target of an insertion exists: the main area, or a section that
    is in the schema. *)
Definition TargetExists (targetId : option string) (its : list FormItem)
  : Prop :=
  match given targetId with
  | None => True
  | Some sid => Exists (fun item => isSectionWithId sid item = true) its
  end.

Definition mixedItems : list FormItem :=
  [Field fieldA; Section (mkSection "s" "S" None [fieldB] 1)].

(** *** More of the renderer *)

(** The value the file input reports on change:
    [fileProps.multiple ? Array.from(files) : files[0]]. *)
Definition fileInputValue (fileMultiple : option bool) (files : list File)
  : JSValue :=
  if default false fileMultiple then JArr (map JFile files)
  else match files with
       | f :: _ => JFile f
       | [] => JUndefined
       end.

(** [object[key] = text] on a plain object, for a string [text]: the
    object gets or overwrites its own property, except under the key
    [__proto__], where the assignment reaches the setter of
    [Object.prototype], which ignores a value that is neither an object nor
    [null]. *)
Definition assignText (m : gmap string string) (key text : string)
  : gmap string string :=
  if String.eqb key "__proto__" then m else <[key := text]> m.

(** The error map [handleSubmit] builds from a failed validation:
    [validation.errors.forEach((error) => { errorMap[error.fieldId] =
    error.message })]. *)
Definition errorMapOf (errs : list ValidationError) : gmap string string :=
  fold_left (fun m e => assignText m (fieldId e) (message e)) errs ∅.

(** The parts of the renderer's state that a submission changes. *)
Record RendererState := mkRenderer {
  formValues : gmap string JSValue;
  validationErrors : gmap string string;
  isSubmitted : bool;
}.

(** [handleSubmit], given the outcome of [validateForm]; a throw of the
    validation leaves the handler before any state is set. *)
Definition handleSubmit `{JSHost} (st : PropStore) (sch : FormSchema)
    (rs : RendererState) : completion RendererState :=
  validation ← submitValidation st sch (formValues rs);
  if negb (isValid validation)
  then mret (mkRenderer (formValues rs) (errorMapOf (errors validation))
                        (isSubmitted rs))
  else mret (mkRenderer (formValues rs) ∅ true).

(** [updateValue(fieldId, value)]: stores the value as an own property
    (the key is a computed one of an object literal) and drops the error of
    that field.  The guard [if (validationErrors[fieldId])] is false only
    when nothing would be dropped or the message is the empty string. *)
Definition updateValue (fid : string) (value : JSValue) (rs : RendererState)
  : RendererState :=
  mkRenderer (<[fid := value]> (formValues rs))
             (if bool_decide (validationErrors rs !! fid = Some "")
              then validationErrors rs
              else delete fid (validationErrors rs))
             (isSubmitted rs).

(** [handleClear()] *)
Definition handleClear (rs : RendererState) : RendererState :=
  mkRenderer ∅ ∅ (isSubmitted rs).

(** [getSectionProgress(section)]: answered and total. *)
Definition getSectionProgress (values : gmap string JSValue)
    (section : FormSection) : nat * nat :=
  (length (filter (fun field => answered (valueOf values (id field)) = true)
                  (fields section)),
   length (fields section)).

(** [schema.items.filter((item) => isFormSection(item) &&
    item.fields.length > 0)] *)
Definition sectionsWithFields (its : list FormItem) : list FormSection :=
  flat_map (fun item =>
              match item with
              | Section s => if (0 <? length (fields s))%nat then [s] else []
              | Field _ => []
              end) its.

Definition hasAnySections (its : list FormItem) : bool :=
  (0 <? length (sectionsWithFields its))%nat.

(** [schema.items.filter((item) => isFormField(item))] *)
Definition standaloneFields (its : list FormItem) : list FormField :=
  flat_map (fun item =>
              match item with
              | Field f => [f]
              | Section _ => []
              end) its.

(** [renderField(field, questionCounter++, ...)] over a list of fields:
    each field with its question number, and the counter afterwards. *)
Fixpoint numberFrom (questionCounter : nat) (fs : list FormField)
  : list (nat * FormField) * nat :=
  match fs with
  | [] => ([], questionCounter)
  | f :: rest =>
      let '(numbered, after) := numberFrom (S questionCounter) rest in
      ((questionCounter, f) :: numbered, after)
  end.

(** The sections of the form, numbered on from [questionCounter]. *)
Fixpoint numberSections (questionCounter : nat) (secs : list FormSection)
  : list (nat * FormField) :=
  match secs with
  | [] => []
  | s :: rest =>
      let '(numbered, after) := numberFrom questionCounter (fields s) in
      numbered ++ numberSections after rest
  end.

(** The fields in the order the form shows them, with their question
    numbers: the standalone fields first, then the fields of each section
    that has any, the counter starting at 1 and running through. *)
Definition renderedQuestions (its : list FormItem)
  : list (nat * FormField) :=
  let '(standalone, counter) := numberFrom 1 (standaloneFields its) in
  standalone ++ numberSections counter (sectionsWithFields its).

(** A host whose [RegExp] constructor rejects the pattern ["("]. *)
Definition strictHost : JSHost := {|
  RegExp_test := fun pat _ => if String.eqb pat "(" then None else Some true;
  Date_parse := fun _ => JS.NaN;
  Number_toString := fun _ => "#";
  Date_toString := fun _ => "Invalid Date";
  String_toLowerCase := JS.toLowerCaseASCII;
  Function_toString := fun name => "function " +:+ name +:+ "() { [native code] }";
  formatFileSize := fun _ => "0 Bytes";
|}.

Definition badPattern : FieldProperties :=
  mkProps None (Some (mkRules None None None (Some "("))) None None None None
          None None None None None None.

Definition pdfOnly : FieldProperties :=
  mkProps None None None None None None None None None (Some [".pdf"])
          (Some (JS.ofZ 1000)) (Some false).

Definition uploadField : FormField :=
  typedField "up" "file-upload" "Report" true 5 0.

(** *** The form builder page (components/form-builder/FormBuilder.tsx) *)

(** [handleFieldAdd(fieldType)], the click on a palette entry: the default
    field is pushed at the end of [schema.items] with [order] the old
    length, [updatedAt] is stamped with the current time [now], and the
    field becomes the selection. *)
Definition handleFieldAdd (newId fieldType : string) (now : Z) (ed : Editor)
  : completion Editor :=
  defaultField ← createDefaultField fieldType;
  let its := items (schema ed) in
  let r := fresh (dom (store ed)) in
  let newField :=
    mkField newId (body_type defaultField) (body_label defaultField)
            (body_description defaultField) (body_required defaultField)
            (body_showDescription defaultField) r (Z.of_nat (length its)) in
  mret (mkEditor (<[r := body_properties defaultField]> (store ed))
                 (mkSchema (schema_id (schema ed)) (schema_title (schema ed))
                           (schema_description (schema ed))
                           (its ++ [Field newField]) (createdAt (schema ed))
                           now)
                 (Some newId) (openSections ed)).

(** An item with its [order] set aside. *)
Definition eraseOrder (item : FormItem) : FormItem := setItemOrder item 0.

Definition threeSections : list FormItem :=
  [Section (emptySection "s0" 0); Section (emptySection "s1" 1);
   Section (emptySection "s2" 2)].

(** *** The field editor (components/form-builder/FieldEditor.tsx) *)

(** The [data] of a ["dropdown-option"] drag item, as the reducer reads
    it: [const { fromIndex, toIndex } = item.data].  A key that the data
    does not have reads [undefined]. *)
Record OptionDragData := mkOptionData {
  data_fromIndex : option Z;
  data_toIndex : option Z;
  data_fieldId : option string;
}.

(** [handleOptionDragStart(e, fromIndex)] builds the data
    [{ fromIndex, fieldId: field.id }]. *)
Definition optionDragData (fromIndex : Z) (fieldId : string)
  : OptionDragData :=
  mkOptionData (Some fromIndex) None (Some fieldId).

(** What the reducer hands to [handlePropertyUpdate("options", ...)], if
    anything.  An entry is [None] when [splice] took nothing out and
    [undefined] was put in. *)
Inductive OptionsUpdate :=
  | NoUpdate
  | NewOptions (opts : list (option DropdownOption)).

(** The [onDrop] reducer of the field editor.  [dropPosition] is
    [result.position], the index [handleOptionDrop] was called with. *)
Definition optionDropReducer (itemType : string) (data : OptionDragData)
    (dropPosition : option Z) (options : option (list DropdownOption))
  : OptionsUpdate :=
  if String.eqb itemType "dropdown-option" then
    let newOptions := Some <$> default [] options in
    let from := default 0 (data_fromIndex data) in
    let movedOption :=
      default None (newOptions !! spliceStart (length newOptions) from) in
    NewOptions
      (spliceInsert (default 0 (data_toIndex data)) movedOption
                    (spliceRemove from newOptions))
  else NoUpdate.

(** *** Auto-scroll *)

(** The scroll container: its bounding rectangle and scroll metrics. *)
Record ScrollBox := mkBox {
  box_top : Q;
  box_bottom : Q;
  scrollTop : Q;
  scrollHeight : Q;
  clientHeight : Q;
}.

Definition maxScroll (c : ScrollBox) : Q :=
  (scrollHeight c - clientHeight c)%Q.

(** [handleGlobalDragOver] of the canvas: the value the requested animation
    frame writes to [container.scrollTop], or [None] when no frame is
    requested.  [threshold = 80], [scrollSpeed = 8]. *)
Definition canvasAutoScroll (dragging : bool) (clientY : Q) (c : ScrollBox)
  : option Q :=
  if negb dragging then None
  else if Qle_bool (box_top c) clientY && Qle_bool clientY (box_bottom c) then
    let distanceFromTop := (clientY - box_top c)%Q in
    let distanceFromBottom := (box_bottom c - clientY)%Q in
    if JS.Qltb distanceFromTop 80 && JS.Qltb 0 (scrollTop c) then
      let scrollAmount := Qmax 1 (8 * (1 - distanceFromTop / 80))%Q in
      Some (Qmax 0 (scrollTop c - scrollAmount))
    else if JS.Qltb distanceFromBottom 80
            && JS.Qltb (scrollTop c) (maxScroll c) then
      let scrollAmount := Qmax 1 (8 * (1 - distanceFromBottom / 80))%Q in
      Some (Qmin (maxScroll c) (scrollTop c + scrollAmount))
    else None
  else None.

(** [handleAutoScroll(clientY)] of the drag-and-drop hook: the
    [scrollTop] afterwards.  [threshold = 50], [scrollSpeed = 5]. *)
Definition hookAutoScroll (autoScroll : bool) (clientY : Q) (c : ScrollBox)
  : Q :=
  if negb autoScroll then scrollTop c
  else if JS.Qltb clientY (box_top c + 50) then Qmax 0 (scrollTop c - 5)
  else if JS.Qltb (box_bottom c - 50) clientY
  then Qmin (maxScroll c) (scrollTop c + 5)
  else scrollTop c.

(** *** The drag-and-drop hook (hooks/useDragAndDrop) *)

(** The state of the hook: the three React states, the enter/leave
    counter and whether the auto-scroll interval is set. *)
Record DragState := mkDrag {
  isDragging : bool;
  draggedItem : option string;
  dropTarget : option string;
  dragCounter : Z;
  scrollInterval : bool;
}.

Definition idle : DragState := mkDrag false None None 0 false.

(** The events the hook handles.  [DragEnter attr] carries the
    [data-drop-target] attribute of the element entered; [DragStart item]
    the id of the item picked up. *)
Inductive DragEvent :=
  | DragStart (item : string)
  | DragEnd
  | DragEnter (attr : option string)
  | DragLeave
  | Drop.

Definition dragStep (s : DragState) (ev : DragEvent) : DragState :=
  match ev with
  | DragStart item =>
      mkDrag true (Some item) (dropTarget s) (dragCounter s) (scrollInterval s)
  | DragEnd => mkDrag false None None 0 false
  | DragEnter attr =>
      mkDrag (isDragging s) (draggedItem s)
             (match given attr with
              | Some targetId => Some targetId
              | None => dropTarget s
              end)
             (dragCounter s + 1)
             (scrollInterval s || isDragging s)
  | DragLeave =>
      if dragCounter s - 1 =? 0
      then mkDrag (isDragging s) (draggedItem s) None (dragCounter s - 1) false
      else mkDrag (isDragging s) (draggedItem s) (dropTarget s)
                  (dragCounter s - 1) (scrollInterval s)
  | Drop =>
      mkDrag (isDragging s) (draggedItem s) None 0 false
  end.

Definition dragRun (s : DragState) (evs : list DragEvent) : DragState :=
  fold_left dragStep evs s.

(** Every leave answers an earlier enter: no [DragLeave] arrives while
    the counter is at or below zero. *)
Fixpoint Nested (s : DragState) (evs : list DragEvent) : Prop :=
  match evs with
  | [] => True
  | ev :: rest =>
      (ev = DragLeave -> 0 < dragCounter s) /\ Nested (dragStep s ev) rest
  end.

(** What the hook keeps true between events. *)
Definition DragInvariant (s : DragState) : Prop :=
  0 <= dragCounter s
  /\ (dragCounter s = 0 -> dropTarget s = None /\ scrollInterval s = false)
  /\ (scrollInterval s = true -> isDragging s = true).

Definition twoOptions : list DropdownOption :=
  [mkOption "1" "Option 1" "option1"; mkOption "2" "Option 2" "option2"].

(** The rectangles of [threeRects], by the id of the item they belong
    to. *)
Definition threeLayout (itemId : string) : DOMRect :=
  if String.eqb itemId "f1" then mkRect 0 20
  else if String.eqb itemId "f2" then mkRect 20 20
  else mkRect 40 20.

(** The no-break space U+00A0 and the ideographic space U+3000. *)
Definition NBSP : string := String "194" (String "160" EmptyString).

Definition IDEOGRAPHIC_SPACE : string :=
  String "227" (String "128" (String "128" EmptyString)).

(** The patterns of a field compile: the host's [RegExp] constructor
    accepts the pattern of the field's validation rules, if it has one that
    is not empty (an empty pattern is never compiled). *)
Definition PatternCompiles `{JSHost} (st : PropStore) (f : FormField)
  : Prop :=
  forall p pat,
    st !! properties f = Some p ->
    validation p ≫= pattern = Some pat ->
    pat <> "" ->
    forall s, RegExp_test pat s <> None.

Definition letterPattern : FieldProperties :=
  mkProps None (Some (mkRules None None None (Some "^[a-z]+$"))) None None
          None None None None None None None None.

(** On a string of ASCII characters the host's [toLowerCase] is the ASCII
    one, as the Unicode case conversion prescribes. *)
Definition LowersASCII `{JSHost} : Prop :=
  forall s, JS.isASCII s = true ->
            String_toLowerCase s = JS.toLowerCaseASCII s.

(** * Properties *)

Example StringToNumber_abc : JS.StringToNumber "abc" = JS.NaN.
Proof. vm_compute. reflexivity. Qed.

Example StringToNumber_decimal :
  JS.StringToNumber " 12.50 " = JS.Fin (1250 # 100).
Proof. vm_compute. reflexivity. Qed.

Example StringToNumber_exponent :
  JS.StringToNumber "-2e3" = JS.Fin (-2000 # 1).
Proof. vm_compute. reflexivity. Qed.

Example StringToNumber_hex : JS.StringToNumber "0x1F" = JS.Fin (31 # 1).
Proof. vm_compute. reflexivity. Qed.

Example trim_blank : JS.trim "  " = "".
Proof. reflexivity. Qed.

(** [trim] strips the white space outside the ASCII range as well, at both
    ends and only there. *)
Example trim_unicode_white_space :
  JS.trim (NBSP +:+ " " +:+ IDEOGRAPHIC_SPACE) = ""
  /\ JS.trim (NBSP +:+ "a" +:+ NBSP +:+ "b" +:+ IDEOGRAPHIC_SPACE)
     = "a" +:+ NBSP +:+ "b".
Proof. split; reflexivity. Qed.

(** [length] counts a code point of two or three bytes once: the string
    [a], no-break space, ideographic space has three code units. *)
Example length_counts_code_units :
  JS.length ("a" +:+ NBSP +:+ IDEOGRAPHIC_SPACE) = 3%nat.
Proof. reflexivity. Qed.

(** The labels [createDefaultField] lower-cases are ASCII, so a host that
    lower-cases ASCII strings the ASCII way gives what
    [JS.toLowerCaseASCII] gives. *)
Lemma default_labels_are_ASCII `{JSHost} (t lbl : string) :
  FIELD_TYPES_label t = Some lbl ->
  JS.isASCII lbl = true
  /\ (LowersASCII -> String_toLowerCase lbl = JS.toLowerCaseASCII lbl).
Proof.
  intros Hlbl. assert (JS.isASCII lbl = true) as Hascii.
  { unfold FIELD_TYPES_label in Hlbl.
    repeat match type of Hlbl with
           | (if ?b then _ else _) = _ => destruct b
           end;
      try discriminate; injection Hlbl as <-; reflexivity. }
  split; [exact Hascii | intros Hhost; apply Hhost, Hascii].
Qed.

Section ValidationFacts.
Context `{JSHost}.
Variable st : PropStore.

Lemma validateField_blank (f : FormField) (v : JSValue) :
  isBlank v = true ->
  validateField st f v = Normal (requiredOutcome f).
Proof.
  intros Hb. unfold validateField, requiredOutcome.
  rewrite Hb. destruct (required f); reflexivity.
Qed.

Lemma mapM_all_normal {A B} (f : A -> completion B) (g : A -> B)
    (l : list A) :
  (forall x, x ∈ l -> f x = Normal (g x)) ->
  mapM f l = Normal (map g l).
Proof.
  induction l as [|x l IH]; intros Hall; [reflexivity|].
  cbn [mapM]. rewrite (Hall x) by apply list_elem_of_here.
  rewrite IH by (intros y Hy; apply Hall, list_elem_of_further, Hy).
  reflexivity.
Qed.

Lemma getAllFields_documentOrder (its : list FormItem) :
  getAllFields its = documentOrder its.
Proof.
  induction its as [|[f|s] its IH]; cbn; [reflexivity| |]; now rewrite <- IH.
Qed.

Lemma submitValidation_errors (sch : FormSchema)
    (values : gmap string JSValue) (E : FormField -> list ValidationError) :
  (forall f, f ∈ documentOrder (items sch) ->
             validateField st f (valueOf values (id f)) = Normal (E f)) ->
  submitValidation st sch values
  = Normal (mkResult (Nat.eqb (length (flat_map E (documentOrder (items sch)))) 0)
                     (flat_map E (documentOrder (items sch)))).
Proof.
  intros HE. unfold submitValidation, validateForm, tempSections.
  cbn [mapM fields]. rewrite getAllFields_documentOrder.
  rewrite (mapM_all_normal _ E) by exact HE.
  cbn. rewrite app_nil_r, <- flat_map_concat_map. reflexivity.
Qed.

Lemma validateForm_isValid (secs : list FormSection)
    (values : gmap string JSValue) (res : ValidationResult) :
  validateForm st secs values = Normal res ->
  (isValid res = true <-> errors res = []).
Proof.
  unfold validateForm. intros Hres.
  destruct (mapM _ secs) as [per|e]; cbn in Hres; [|discriminate].
  injection Hres as <-. cbn.
  destruct (concat per); cbn; split; congruence.
Qed.

End ValidationFacts.

(** C4 (as stated, refuted): the empty array is not an empty answer for
    [validateField].  A required multi-select dropdown answered with [[]]
    gets no "required" error, and a single-select dropdown that is not
    required gets a selection error. *)
Lemma required_empty_rule_fails_on_empty_array :
  ~ RequiredEmptyRule (H := exampleHost) {[ 0%nat := multiSelect ]}
      (typedField "d" "dropdown" "Choice" true 0 0) (JArr [])
  /\ ~ RequiredEmptyRule (H := exampleHost) {[ 0%nat := singleSelect ]}
      (typedField "d" "dropdown" "Choice" false 0 0) (JArr []).
Proof.
  split; intros [Hreq Hopt].
  - specialize (Hreq eq_refl). vm_compute in Hreq. discriminate.
  - specialize (Hopt eq_refl). vm_compute in Hopt. discriminate.
Qed.

(** C4 (amended): for an absent value ([undefined] or [null]) and for the
    empty string, a required field gets exactly one "required" error and
    no other check runs, and a field that is not required gets no error;
    this holds for any property store and any host, so nothing else is
    looked at. *)
Theorem required_empty_rule `{JSHost} (st : PropStore) (f : FormField)
    (v : JSValue) :
  v = JUndefined \/ v = JNull \/ v = JStr "" ->
  RequiredEmptyRule st f v.
Proof.
  intros Hv. assert (isBlank v = true) as Hb
    by (destruct Hv as [->|[->| ->]]; reflexivity).
  split; intros Hr; rewrite (validateField_blank st f v Hb);
    unfold requiredOutcome; rewrite Hr; reflexivity.
Qed.

Lemma required_empty_rule_witness :
  RequiredEmptyRule (H := exampleHost) ∅ (textField "q" "Name" true 7 0)
                    (JStr "").
Proof. apply (required_empty_rule (H := exampleHost)). right. right. reflexivity. Defined.

(** The same gate covers every string that trims to the empty string. *)
Lemma required_rule_whitespace `{JSHost} (st : PropStore) (f : FormField)
    (s : string) :
  JS.trim s = "" -> RequiredEmptyRule st f (JStr s).
Proof.
  intros Hs. assert (isBlank (JStr s) = true) as Hb.
  { unfold isBlank. rewrite Hs. cbn. apply orb_true_r. }
  split; intros Hr; rewrite (validateField_blank st f _ Hb);
    unfold requiredOutcome; rewrite Hr; reflexivity.
Qed.

(** C9: the number [0] counts as an absent answer.  A required number
    field answered with the number [0] gets the "required" error; its
    [min]/[max] bounds are never consulted. *)
Theorem zero_is_reported_as_missing `{JSHost} (st : PropStore)
    (f : FormField) :
  required f = true ->
  type f = "number" ->
  validateField st f (JNum (JS.Fin 0)) = Normal [err f " is required"].
Proof.
  intros Hr _.
  rewrite (validateField_blank st f (JNum (JS.Fin 0)) eq_refl).
  unfold requiredOutcome. rewrite Hr. reflexivity.
Qed.

Lemma zero_is_reported_as_missing_witness :
  validateField (H := exampleHost)
    {[ 3%nat := defaultProperties "number" "Number" ]}
    (typedField "n" "number" "Age" true 3 0) (JNum (JS.Fin 0))
  = Normal [mkError "n" "Age is required"].
Proof.
  apply (zero_is_reported_as_missing (H := exampleHost)); reflexivity.
Defined.

(** The string ["0"], by contrast, is a present answer and is checked
    against the bounds. *)
Example zero_string_is_accepted :
  validateField (H := exampleHost)
    {[ 3%nat := defaultProperties "number" "Number" ]}
    (typedField "n" "number" "Age" true 3 0) (JStr "0")
  = Normal [].
Proof. vm_compute. reflexivity. Qed.

(** C5: the errors of a submission come in document order of the fields
    (items top to bottom, a section's fields at the section's position),
    [isValid] holds exactly when there is no error, and the schema
    [A (required, empty); B (not required, empty); C (number, "abc")]
    yields exactly the two errors of [A] and [C], in this order. *)
Theorem validation_in_document_order `{JSHost} (st : PropStore) :
  (forall (sch : FormSchema) (values : gmap string JSValue)
          (E : FormField -> list ValidationError),
      (forall f, f ∈ documentOrder (items sch) ->
                 validateField st f (valueOf values (id f)) = Normal (E f)) ->
      exists res,
        submitValidation st sch values = Normal res
        /\ errors res = flat_map E (documentOrder (items sch))
        /\ (isValid res = true <-> errors res = []))
  /\ submitValidation st
       (schemaOf [Field (textField "a" "A" true 0 0);
                  Field (textField "b" "B" false 1 1);
                  Field (typedField "c" "number" "C" false 2 2)])
       {[ "a" := JStr ""; "c" := JStr "abc" ]}
     = Normal (mkResult false
                 [mkError "a" "A is required";
                  mkError "c" "C must be a valid number"]).
Proof.
  split.
  - intros sch values E HE. eexists. split.
    + apply submitValidation_errors, HE.
    + cbn. split; [reflexivity|].
      destruct (flat_map E _); cbn; split; congruence.
  - reflexivity.
Qed.

Lemma validation_in_document_order_witness :
  exists res,
    submitValidation (H := exampleHost) ∅
      (schemaOf [Field (textField "a" "A" true 0 0);
                 Section (mkSection "s" "S" None
                            [textField "b" "B" true 1 0] 1)])
      ∅
    = Normal res
    /\ errors res = [mkError "a" "A is required"; mkError "b" "B is required"].
Proof.
  destruct (proj1 (validation_in_document_order (H := exampleHost) ∅)
              (schemaOf [Field (textField "a" "A" true 0 0);
                         Section (mkSection "s" "S" None
                                    [textField "b" "B" true 1 0] 1)])
              ∅ requiredOutcome) as [res [Hres [Herr _]]].
  - intros f Hf. cbn in Hf.
    apply elem_of_cons in Hf as [->|Hf]; [reflexivity|].
    apply list_elem_of_singleton in Hf as ->. reflexivity.
  - exists res. split; [exact Hres|]. rewrite Herr. reflexivity.
Defined.

Lemma udf_prefix_inv (t : string) :
  JS.startsWith "udf-" t = true -> exists rest, t = "udf-" +:+ rest.
Proof.
  unfold JS.startsWith. intros Hp.
  destruct t as [|c1 [|c2 [|c3 [|c4 rest]]]]; cbn in Hp; try discriminate;
    repeat (match type of Hp with
            | (if ?d then _ else _) = true => destruct d; [subst|discriminate]
            end); try discriminate.
  exists rest. reflexivity.
Qed.

Lemma udf_typeCase (t : string) :
  JS.startsWith "udf-" t = true -> typeCase t = OtherCase.
Proof. intros [rest ->]%udf_prefix_inv. reflexivity. Qed.

(** C6 (as stated, refuted): a required auto-filled field whose value is
    absent does get an error, the "required" one. *)
Lemma required_udf_field_is_validated :
  ~ NeverValidated (H := exampleHost) ∅
      (typedField "u" "udf-department" "Department" true 0 0).
Proof.
  intros Hnever. specialize (Hnever JUndefined).
  vm_compute in Hnever. discriminate.
Qed.

(** A required auto-filled field whose value is a no-break space is blank
    and gets the "required" error. *)
Example required_udf_field_no_break_space :
  validateField (H := exampleHost) ∅
    (typedField "u" "udf-location" "Location" true 0 0) (JStr NBSP)
  = Normal [mkError "u" "Location is required"].
Proof. reflexivity. Qed.

(** C6 (amended): [validateField] runs no type-specific check on a field
    of the [udf-] family; the only error it can report for one is the
    "required" error, when the field is marked required and its value is
    blank.  [renderField] renders such a field as a disabled input with
    the provenance placeholder, whatever the [disabled] argument, the
    store and the value. *)
Theorem udf_field_validation_and_rendering `{JSHost} (st : PropStore)
    (f : FormField) :
  isUDF f = true ->
  (forall v, validateField st f v
             = Normal (if required f && isBlank v
                       then [err f " is required"] else []))
  /\ (required f = false -> NeverValidated st f)
  /\ (forall disabled, renderField st f disabled = Normal (provenance f)).
Proof.
  intros Hudf. assert (typeCase (type f) = OtherCase) as Hcase
    by (apply udf_typeCase, Hudf).
  assert (forall v, validateField st f v
                    = Normal (if required f && isBlank v
                              then [err f " is required"] else [])) as Hv.
  { intros v. unfold validateField. rewrite Hcase.
    destruct (required f), (isBlank v); reflexivity. }
  split; [exact Hv|]. split.
  - intros Hr v. rewrite Hv, Hr. reflexivity.
  - intros d. unfold renderField. rewrite Hudf. reflexivity.
Qed.

Lemma udf_field_validation_and_rendering_witness :
  validateField (H := exampleHost) ∅
    (typedField "u" "udf-location" "Location" false 0 0) (JStr "Oslo")
  = Normal []
  /\ renderField ∅ (typedField "u" "udf-location" "Location" false 0 0) false
     = Normal (mkRendered InputControl true
                 (Some "Location (auto-filled from user data)")).
Proof.
  destruct (udf_field_validation_and_rendering (H := exampleHost) ∅
              (typedField "u" "udf-location" "Location" false 0 0) eq_refl)
    as [Hv [_ Hr]].
  split; [apply Hv | apply Hr].
Defined.


(** ** Drop position *)

Lemma Qltb_lt (a b : Q) : JS.Qltb a b = true <-> (a < b)%Q.
Proof.
  unfold JS.Qltb. rewrite negb_true_iff, <- not_true_iff_false, Qle_bool_iff.
  split; [apply Qnot_le_lt | apply Qlt_not_le].
Qed.

Lemma firstBelow_found (mouseY : Q) (rects : list DOMRect) (i k : nat) :
  firstBelow mouseY rects i = Some k ->
  exists j, k = (i + j)%nat /\ DropIndex mouseY rects j
            /\ (j < length rects)%nat.
Proof.
  revert i. induction rects as [|r rects IH]; intros i Hk; [discriminate|].
  cbn in Hk. unfold elementMiddle in Hk.
  destruct (JS.Qltb mouseY (top r + height r / 2)) eqn:Hlt.
  - injection Hk as <-. exists 0%nat. rewrite Nat.add_0_r.
    split; [reflexivity|]. split; [|cbn; lia].
    split; [cbn; lia|]. split; [intros j r' Hj; lia|].
    intros r' [= <-]. apply Qltb_lt, Hlt.
  - destruct (IH _ Hk) as [j [-> [[Hlen [Hbefore Hat]] Hj]]].
    exists (S j). split; [lia|]. split; [|cbn; lia].
    split; [cbn; lia|]. split; [|exact Hat].
    intros [|j'] r' Hj' Hr'.
    + injection Hr' as <-. rewrite <- Qltb_lt, Hlt. discriminate.
    + apply (Hbefore j' r'); [lia | exact Hr'].
Qed.

Lemma firstBelow_none (mouseY : Q) (rects : list DOMRect) (i : nat) :
  firstBelow mouseY rects i = None ->
  DropIndex mouseY rects (length rects).
Proof.
  intros Hnone. split; [lia|]. split.
  - revert i Hnone. induction rects as [|r rects IH]; intros i Hnone j r' Hj Hr';
      [discriminate|].
    cbn in Hnone. unfold elementMiddle in Hnone.
    destruct (JS.Qltb mouseY (top r + height r / 2)) eqn:Hlt;
      [discriminate|].
    destruct j as [|j].
    + injection Hr' as <-. rewrite <- Qltb_lt, Hlt. discriminate.
    + apply (IH (S i) Hnone j r'); [cbn in Hj; lia | exact Hr'].
  - intros r Hr. apply lookup_lt_Some in Hr. lia.
Qed.

Lemma loop_result_DropIndex (mouseY : Q) (rects : list DOMRect) :
  DropIndex mouseY rects
    (default (length rects) (firstBelow mouseY rects 0)).
Proof.
  destruct (firstBelow mouseY rects 0) as [k|] eqn:Hk; cbn.
  - destruct (firstBelow_found _ _ _ _ Hk) as [j [-> [Hspec _]]]. exact Hspec.
  - apply (firstBelow_none _ _ _ Hk).
Qed.

(** C8: the drop index.  With one rectangle per sibling of the target list
    (as the canvas renders them), [getDropZonePosition] returns the
    position of the first sibling whose vertical midpoint is below the
    pointer, and the list length when there is none; this holds for the
    main area and for a section.  For an empty list the index is 0 wherever
    the pointer is, and midpoints 10, 30, 50 with the pointer at 25 give
    index 1; so does the pointer at 15, which is past the midpoint of the
    first sibling and still above its bottom edge at 20. *)
Theorem drop_index_computation (mouseY : Q) :
  (forall (its : list FormItem) (elements : list DOMRect),
      length elements = length its ->
      DropIndex mouseY elements
        (getDropZonePosition its mouseY elements None))
  /\ (forall (its : list FormItem) (elements : list DOMRect)
             (sid : string) (section : FormSection),
         sid <> "" ->
         find (isSectionWithId sid) its = Some (Section section) ->
         length elements = length (fields section) ->
         DropIndex mouseY elements
           (getDropZonePosition its mouseY elements (Some sid)))
  /\ getDropZonePosition [] mouseY [] None = 0%nat
  /\ (forall s, section_id s <> "" -> fields s = [] ->
                getDropZonePosition [Section s] mouseY []
                                    (Some (section_id s)) = 0%nat)
  /\ getDropZonePosition threeFields 25 threeRects None = 1%nat
  /\ getDropZonePosition threeFields 15 threeRects None = 1%nat.
Proof.
  split; [|split; [|split; [|split; [|split]]]].
  - intros its elements Hlen. unfold getDropZonePosition. cbn [given].
    rewrite <- Hlen. apply loop_result_DropIndex.
  - intros its elements sid section Hsid Hfind Hlen.
    unfold getDropZonePosition, given.
    apply String.eqb_neq in Hsid. rewrite Hsid, Hfind, <- Hlen.
    apply loop_result_DropIndex.
  - reflexivity.
  - intros s Hid Hs. unfold getDropZonePosition, given.
    apply String.eqb_neq in Hid. rewrite Hid.
    cbn. unfold isSectionWithId. cbn. rewrite String.eqb_refl, Hs. reflexivity.
  - reflexivity.
  - reflexivity.
Qed.

Lemma drop_index_computation_witness :
  DropIndex 15 (renderedItems threeLayout threeFields) 1.
Proof.
  exact (proj1 (drop_index_computation 15) threeFields
               (renderedItems threeLayout threeFields) eq_refl).
Defined.

Lemma renderedItems_length (layout : string -> DOMRect) (its : list FormItem) :
  length (renderedItems layout its) = length its.
Proof. apply length_map. Qed.

Lemma renderedFields_length (layout : string -> DOMRect) (s : FormSection) :
  length (renderedFields layout s) = length (fields s).
Proof. apply length_map. Qed.

(** ** The canvas *)

Lemma of_nat_ltb_0 (n : nat) : (Z.of_nat n <? 0) = false.
Proof. apply Z.ltb_ge. lia. Qed.

Lemma findIndexFrom_cases {A} (p : A -> bool) (l : list A) (i0 : Z) :
  (findIndexFrom p l i0 = -1 /\ Forall (fun x => p x = false) l)
  \/ (exists k x, findIndexFrom p l i0 = i0 + Z.of_nat k
                  /\ l !! k = Some x /\ p x = true).
Proof.
  revert i0. induction l as [|x l IH]; intros i0; cbn.
  - left. split; [reflexivity | constructor].
  - destruct (p x) eqn:Hpx.
    + right. exists 0%nat, x. split; [lia|]. split; [reflexivity | exact Hpx].
    + destruct (IH (i0 + 1)) as [[Hm Hall]|[k [y [Hk [Hy Hpy]]]]].
      * left. split; [exact Hm | constructor; assumption].
      * right. exists (S k), y. split; [lia|]. split; assumption.
Qed.

Lemma locateFrom_sound (fid : string) (its : list FormItem) (i0 : nat)
    (loc : Located) :
  locateFrom fid its i0 = Some loc ->
  match loc with
  | InMain i f =>
      exists k, i = (i0 + k)%nat /\ its !! k = Some (Field f) /\ id f = fid
  | InSection i s j f =>
      exists k, i = (i0 + k)%nat /\ its !! k = Some (Section s)
                /\ fields s !! j = Some f /\ id f = fid
  end.
Proof.
  revert i0. induction its as [|[f|s] its IH]; intros i0 Hloc; cbn in Hloc.
  - discriminate.
  - destruct (hasId fid f) eqn:Hid.
    + injection Hloc as <-. exists 0%nat. split; [lia|].
      split; [reflexivity|]. apply String.eqb_eq, Hid.
    + specialize (IH _ Hloc). destruct loc as [i g|i t j g];
        destruct IH as [k Hk]; exists (S k);
        (split; [lia | apply Hk]).
  - destruct (findIndexFrom_cases (hasId fid) (fields s) 0)
      as [[Hm _]|[k [g [Hk [Hg Hp]]]]].
    + unfold findIndex in Hloc. rewrite Hm in Hloc. cbn in Hloc.
      specialize (IH _ Hloc). destruct loc as [i g|i t j g];
        destruct IH as [k Hk]; exists (S k);
        (split; [lia | apply Hk]).
    + unfold findIndex in Hloc. rewrite Hk, Z.add_0_l in Hloc.
      rewrite of_nat_ltb_0, Nat2Z.id in Hloc.
      rewrite Hg in Hloc. injection Hloc as <-.
      exists 0%nat. split; [lia|]. split; [reflexivity|].
      split; [exact Hg|]. apply String.eqb_eq, Hp.
Qed.

Lemma locate_InMain (fid : string) (its : list FormItem) (i : nat)
    (f : FormField) :
  locate fid its = Some (InMain i f) ->
  its !! i = Some (Field f) /\ id f = fid.
Proof.
  intros Hloc. destruct (locateFrom_sound _ _ _ _ Hloc) as [k [-> Hk]].
  exact Hk.
Qed.

Lemma locate_InSection (fid : string) (its : list FormItem) (i j : nat)
    (s : FormSection) (f : FormField) :
  locate fid its = Some (InSection i s j f) ->
  its !! i = Some (Section s) /\ fields s !! j = Some f /\ id f = fid.
Proof.
  intros Hloc. destruct (locateFrom_sound _ _ _ _ Hloc) as [k [-> Hk]].
  exact Hk.
Qed.

Lemma spliceStart_nat (len i : nat) :
  spliceStart len (Z.of_nat i) = Nat.min i len.
Proof. unfold spliceStart. rewrite of_nat_ltb_0. lia. Qed.

Lemma spliceInsert_after {A} (i : nat) (x : A) (l : list A) :
  (i < length l)%nat ->
  spliceInsert (Z.of_nat i + 1) x l = take (S i) l ++ x :: drop (S i) l.
Proof.
  intros Hi. unfold spliceInsert.
  replace (Z.of_nat i + 1) with (Z.of_nat (S i)) by lia.
  rewrite spliceStart_nat. replace (Nat.min (S i) (length l)) with (S i) by lia.
  reflexivity.
Qed.

Lemma lookup_inserted_before {A} (i k : nat) (x : A) (l : list A) :
  (k < i)%nat -> (i <= length l)%nat ->
  (take i l ++ x :: drop i l) !! k = l !! k.
Proof.
  intros Hk Hi. rewrite lookup_app_l by (rewrite length_take; lia).
  apply lookup_take_lt, Hk.
Qed.

Lemma lookup_inserted_at {A} (i : nat) (x : A) (l : list A) :
  (i <= length l)%nat ->
  (take i l ++ x :: drop i l) !! i = Some x.
Proof.
  intros Hi. rewrite lookup_app_r by (rewrite length_take; lia).
  rewrite length_take. replace (i - i `min` length l)%nat with 0%nat by lia.
  reflexivity.
Qed.

Lemma onSectionAt_section (i : nat) (g : list FormField -> list FormField)
    (its : list FormItem) (s : FormSection) :
  its !! i = Some (Section s) ->
  onSectionAt (Z.of_nat i) g its
  = <[i := Section (setFields s (g (fields s)))]> its.
Proof.
  intros Hi. unfold onSectionAt.
  rewrite of_nat_ltb_0, Nat2Z.id.
  apply list_eq. intros k. destruct (decide (k = i)) as [->|Hne].
  - rewrite list_lookup_alter_eq, Hi.
    rewrite list_lookup_insert_eq by (apply lookup_lt_Some in Hi; exact Hi).
    reflexivity.
  - rewrite list_lookup_alter_ne by congruence.
    rewrite list_lookup_insert_ne by congruence. reflexivity.
Qed.

Lemma denseFields_spec (fs : list FormField) :
  denseFields fs = true
  <-> forall j f, fs !! j = Some f -> order f = Z.of_nat j.
Proof.
  unfold denseFields. rewrite forallb_forall. split.
  - intros Hall j f Hj. apply Z.eqb_eq.
    apply (Hall (j, f)). apply list_elem_of_In, elem_of_lookup_imap.
    exists j, f. split; [reflexivity | exact Hj].
  - intros Hall [j f] Hin. apply Z.eqb_eq, Hall.
    apply list_elem_of_In, elem_of_lookup_imap in Hin.
    destruct Hin as [j' [f' [[= -> ->] Hj]]]. exact Hj.
Qed.

Lemma denseItems_spec (its : list FormItem) :
  denseItems its = true
  <-> forall i item, its !! i = Some item -> item_order item = Z.of_nat i.
Proof.
  unfold denseItems. rewrite forallb_forall. split.
  - intros Hall i item Hi. apply Z.eqb_eq.
    apply (Hall (i, item)). apply list_elem_of_In, elem_of_lookup_imap.
    exists i, item. split; [reflexivity | exact Hi].
  - intros Hall [i item] Hin. apply Z.eqb_eq, Hall.
    apply list_elem_of_In, elem_of_lookup_imap in Hin.
    destruct Hin as [i' [item' [[= -> ->] Hi]]]. exact Hi.
Qed.

Lemma renumberFields_dense (fs : list FormField) :
  denseFields (renumberFields fs) = true.
Proof.
  apply denseFields_spec. intros j f Hj. unfold renumberFields in Hj.
  rewrite list_lookup_imap in Hj. destruct (fs !! j); [|discriminate].
  injection Hj as <-. reflexivity.
Qed.

Lemma renumberItems_dense (its : list FormItem) :
  denseItems (renumberItems its) = true.
Proof.
  apply denseItems_spec. intros i item Hi. unfold renumberItems in Hi.
  rewrite list_lookup_imap in Hi. destruct (its !! i) as [[f|s]|];
    [| |discriminate]; injection Hi as <-; reflexivity.
Qed.

Lemma renumberFields_lookup (fs : list FormField) (j : nat) :
  renumberFields fs !! j = (fun f => setOrder f (Z.of_nat j)) <$> fs !! j.
Proof. apply list_lookup_imap. Qed.

Lemma renumberFields_length (fs : list FormField) :
  length (renumberFields fs) = length fs.
Proof. apply length_imap. Qed.

Lemma items_withItems (ed : Editor) (its : list FormItem) :
  items (schema (withItems ed its)) = its.
Proof. reflexivity. Qed.

(** C7 (as stated, refuted): an update that carries an [id] key (or an
    [order] key) overwrites the field's [id] (or [order]). *)
Lemma update_with_id_key_overwrites_id :
  ~ UpdateFrame (editorOf twoBags [Field fieldA; Field fieldB]) "a"
      (mkUpdate (Some "z") None None None None None None (Some 7)).
Proof.
  intros Hframe.
  destruct (Hframe (InMain 0 fieldA) eq_refl) as [F' [Hits [Hid _]]].
  vm_compute in Hits. injection Hits as <-. discriminate Hid.
Qed.

(** C7 (amended): when the partial update has no [id] key and no [order]
    key, [handleUpdateField] puts in the place of the located field a field
    that takes every key from the update when the update has it and from
    the old field otherwise, so [id] and [order] are unchanged; every other
    field, section and list is as before, and so are the store and the
    selection. *)
Theorem update_field_frame (ed : Editor) (fid : string) (u : FieldUpdate) :
  u_id u = None ->
  u_order u = None ->
  UpdateFrame ed fid u
  /\ store (handleUpdateField fid u ed) = store ed
  /\ selectedField (handleUpdateField fid u ed) = selectedField ed.
Proof.
  intros Hid Hord. split.
  - intros loc Hloc F. unfold handleUpdateField. rewrite Hloc.
    destruct loc as [i f|i s j f]; cbn in F; subst F.
    + exists (assign f u). rewrite items_withItems. cbn [putField placeOf].
      unfold assign. cbn. rewrite Hid, Hord. cbn. repeat split; reflexivity.
    + destruct (locate_InSection _ _ _ _ _ _ Hloc) as [Hi _].
      exists (assign f u). rewrite items_withItems.
      rewrite (onSectionAt_section _ _ _ _ Hi). cbn [putField placeOf].
      rewrite Hi. unfold assign. cbn. rewrite Hid, Hord. cbn.
      repeat split; reflexivity.
  - unfold handleUpdateField.
    destruct (locate fid (items (schema ed))) as [[i f|i s j f]|];
      split; reflexivity.
Qed.

Lemma update_field_frame_witness :
  UpdateFrame (editorOf twoBags [Field fieldA; Field fieldB]) "b"
    (mkUpdate None None (Some "Renamed") None (Some true) None None None).
Proof.
  apply (update_field_frame (editorOf twoBags [Field fieldA; Field fieldB]) "b"
           (mkUpdate None None (Some "Renamed") None (Some true) None None None));
    reflexivity.
Defined.

Example update_field_example :
  items (schema (handleUpdateField "b"
                   (mkUpdate None None (Some "Renamed") None (Some true) None
                             None None)
                   (editorOf twoBags [Field fieldA; Field fieldB])))
  = [Field fieldA; Field (mkField "b" "short-text" "Renamed" (Some "") true
                            false 1 1)].
Proof. reflexivity. Qed.

(** C2 (as stated, refuted): cloning the root field [a] of [[a; b]] gives
    [[a; a'; b]] where [a'] holds the very property bag of [a] (a write
    through [a'] is seen through [a]) and [b] keeps [order] 1 at index
    2. *)
Lemma clone_shares_bag_and_skips_renumbering :
  let ed := editorOf twoBags [Field fieldA; Field fieldB] in
  let ed' := handleCloneField "c" "a" ed in
  ~ CloneCorrect ed "c" "a"
  /\ fieldAtPlace (items (schema ed')) (AtRoot 1) = Some (cloneOf "c" fieldA 1)
  /\ properties (cloneOf "c" fieldA 1) = properties fieldA
  /\ map item_order (items (schema ed')) = [0; 1; 1].
Proof.
  cbv zeta. split; [|repeat split; reflexivity].
  intros Hclone.
  destruct (Hclone (InMain 0 fieldA) eq_refl)
    as [F' [Hat [_ [_ [_ [Hind _]]]]]].
  vm_compute in Hat. injection Hat as <-.
  specialize (Hind noProps). vm_compute in Hind. discriminate Hind.
Qed.

(** C2 (amended): [handleCloneField] leaves the located field [F] in its
    place and puts right after it, in the same list, a field [F'] whose
    [id] is the generated id (hence new whenever the generator returns an
    unused id), whose label is the label of [F] followed by [" (Copy)"],
    whose other keys are those of [F], and whose [properties] is the same
    bag as that of [F], shared by reference (so equal, but not a copy);
    [order] of [F'] is its index.  When [F] lives in a section, every field
    of that section carries its index as [order] afterwards.  The store is
    unchanged. *)
Theorem clone_field_placement (ed : Editor) (newId fid : string)
    (loc : Located) :
  locate fid (items (schema ed)) = Some loc ->
  let F := locatedField loc in
  let ed' := handleCloneField newId fid ed in
  store ed' = store ed
  /\ exists F0 F',
      fieldAtPlace (items (schema ed')) (placeOf loc) = Some F0
      /\ setOrder F0 (order F) = F
      /\ fieldAtPlace (items (schema ed')) (nextPlace (placeOf loc)) = Some F'
      /\ id F' = newId
      /\ (newId ∉ allIds (items (schema ed)) ->
          id F' ∉ allIds (items (schema ed)))
      /\ label F' = label F +:+ " (Copy)"
      /\ type F' = type F
      /\ description F' = description F
      /\ required F' = required F
      /\ showDescription F' = showDescription F
      /\ properties F' = properties F
      /\ store ed' !! properties F' = store ed !! properties F
      /\ order F' = Z.of_nat (indexIn (nextPlace (placeOf loc)))
      /\ match placeOf loc with
         | AtRoot _ => True
         | InSec _ _ =>
             forall k o,
               siblingOrders (items (schema ed')) (placeOf loc) !! k = Some o ->
               o = Z.of_nat k
         end.
Proof.
  intros Hloc F ed'. subst F ed'. unfold handleCloneField. rewrite Hloc.
  destruct loc as [i f|i s j f]; cbn [locatedField placeOf nextPlace indexIn].
  - destruct (locate_InMain _ _ _ _ Hloc) as [Hi _].
    assert (i < length (items (schema ed)))%nat as Hlt
      by (apply lookup_lt_Some in Hi; exact Hi).
    split; [reflexivity|]. exists f, (cloneOf newId f (Z.of_nat i + 1)).
    rewrite items_withItems, spliceInsert_after by exact Hlt.
    cbn [fieldAtPlace].
    rewrite lookup_inserted_before, Hi by lia.
    rewrite lookup_inserted_at by lia.
    repeat split; try reflexivity.
    + destruct f; reflexivity.
    + intros Hfresh. exact Hfresh.
    + cbn. lia.
  - destruct (locate_InSection _ _ _ _ _ _ Hloc) as [Hi [Hj _]].
    assert (i < length (items (schema ed)))%nat as Hlti
      by (apply lookup_lt_Some in Hi; exact Hi).
    assert (j < length (fields s))%nat as Hltj
      by (apply lookup_lt_Some in Hj; exact Hj).
    split; [reflexivity|].
    exists (setOrder f (Z.of_nat j)),
           (setOrder (cloneOf newId f (Z.of_nat j + 1)) (Z.of_nat (S j))).
    rewrite items_withItems, (onSectionAt_section _ _ _ _ Hi).
    rewrite spliceInsert_after by exact Hltj.
    cbn [fieldAtPlace siblingOrders].
    rewrite list_lookup_insert_eq by exact Hlti. cbn [fields setFields].
    rewrite !renumberFields_lookup.
    rewrite lookup_inserted_before, Hj by lia.
    rewrite lookup_inserted_at by lia.
    repeat split; try reflexivity.
    + destruct f; reflexivity.
    + intros Hfresh. exact Hfresh.
    + intros k o Hk. rewrite list_lookup_fmap, renumberFields_lookup in Hk.
      destruct (_ !! k); [|discriminate]. injection Hk as <-. reflexivity.
Qed.

Lemma clone_field_placement_witness :
  exists F',
    fieldAtPlace
      (items (schema (handleCloneField "c" "b"
                        (editorOf twoBags
                           [Section (mkSection "s" "S" None [fieldA; fieldB] 0)]))))
      (InSec 0 2) = Some F'
    /\ id F' = "c" /\ label F' = "B (Copy)" /\ properties F' = 1%nat
    /\ order F' = 2.
Proof.
  destruct (clone_field_placement
              (editorOf twoBags
                 [Section (mkSection "s" "S" None [fieldA; fieldB] 0)])
              "c" "b"
              (InSection 0 (mkSection "s" "S" None [fieldA; fieldB] 0) 1 fieldB)
              eq_refl)
    as (_ & F0 & F' & _ & _ & Hat & Hid & _ & Hlabel & _ & _ & _ & _ & Hprops
          & _ & Hord & _).
  exists F'. repeat split; assumption.
Defined.

(** ** Order density *)

Lemma orderDense_spec (its : list FormItem) :
  orderDense its = true
  <-> (forall i item, its !! i = Some item -> item_order item = Z.of_nat i)
      /\ (forall i s, its !! i = Some (Section s) ->
                      denseFields (fields s) = true).
Proof.
  unfold orderDense. rewrite andb_true_iff, denseItems_spec, forallb_forall.
  split; intros [Hroot Hsec]; (split; [exact Hroot|]).
  - intros i s Hi. apply (Hsec (Section s)).
    apply list_elem_of_In, list_elem_of_lookup. exists i. exact Hi.
  - intros [f|s] Hin; [reflexivity|].
    apply list_elem_of_In, list_elem_of_lookup in Hin as [i Hi].
    apply (Hsec i s Hi).
Qed.

(** C1: the order-density invariant is broken by cloning a field that
    lives at the root.  On the dense schema [[a; b]], cloning [a] yields
    [[a; a'; b]] in which [b] still carries [order] 1 at index 2; moving
    the root field [a] of a dense schema into a section likewise leaves the
    root items with their old [order] values. *)
Theorem clone_at_root_breaks_order_density :
  let ed := editorOf twoBags [Field fieldA; Field fieldB] in
  let ed2 :=
    editorOf twoBags [Field fieldA; Field fieldB; Section (emptySection "s" 2)] in
  orderDense (items (schema ed)) = true
  /\ items (schema (handleCloneField "c" "a" ed))
     = [Field fieldA; Field (cloneOf "c" fieldA 1); Field fieldB]
  /\ map item_order (items (schema (handleCloneField "c" "a" ed))) = [0; 1; 1]
  /\ orderDense (items (schema (handleCloneField "c" "a" ed))) = false
  /\ orderDense (items (schema ed2)) = true
  /\ items (schema (handleReorderField "a" (Some "s") (Some 0) ed2))
     = [Field fieldB;
        Section (mkSection "s" "New Section" (Some "") [fieldA] 2)]
  /\ orderDense (items (schema (handleReorderField "a" (Some "s") (Some 0) ed2)))
     = false.
Proof. cbv zeta. repeat split; reflexivity. Qed.

(** In general: cloning a root field that is not the last item of a
    densely ordered root leaves the root not densely ordered. *)
Lemma clone_at_root_not_dense (ed : Editor) (newId fid : string) (i : nat)
    (f : FormField) :
  locate fid (items (schema ed)) = Some (InMain i f) ->
  denseItems (items (schema ed)) = true ->
  (S i < length (items (schema ed)))%nat ->
  denseItems (items (schema (handleCloneField newId fid ed))) = false.
Proof.
  intros Hloc Hdense Hlt. apply not_true_is_false. intros Hafter.
  rewrite denseItems_spec in Hdense, Hafter.
  unfold handleCloneField in Hafter. rewrite Hloc, items_withItems in Hafter.
  rewrite spliceInsert_after in Hafter by lia.
  destruct (lookup_lt_is_Some_2 (items (schema ed)) (S i) Hlt) as [x Hx].
  specialize (Hdense _ _ Hx). specialize (Hafter (S (S i)) x).
  rewrite lookup_app_r in Hafter by (rewrite length_take; lia).
  rewrite length_take in Hafter.
  replace (S (S i) - S i `min` length (items (schema ed)))%nat with 1%nat
    in Hafter by lia.
  rewrite lookup_cons, lookup_drop, Nat.add_0_r in Hafter.
  specialize (Hafter Hx). lia.
Qed.

(** The sibling branch of [handleCloneField], for a field inside a
    section, re-numbers the section and keeps the invariant. *)
Lemma clone_in_section_keeps_order_density (ed : Editor) (newId fid : string)
    (i j : nat) (s : FormSection) (f : FormField) :
  locate fid (items (schema ed)) = Some (InSection i s j f) ->
  orderDense (items (schema ed)) = true ->
  orderDense (items (schema (handleCloneField newId fid ed))) = true.
Proof.
  intros Hloc Hdense. destruct (locate_InSection _ _ _ _ _ _ Hloc) as [Hi _].
  apply orderDense_spec in Hdense as [Hroot Hsec].
  unfold handleCloneField. rewrite Hloc, items_withItems.
  rewrite (onSectionAt_section _ _ _ _ Hi).
  apply orderDense_spec. split.
  - intros k item Hk. destruct (decide (k = i)) as [->|Hne].
    + rewrite list_lookup_insert_eq in Hk
        by (apply lookup_lt_Some in Hi; exact Hi).
      injection Hk as <-. apply (Hroot i (Section s) Hi).
    + rewrite list_lookup_insert_ne in Hk by congruence. apply (Hroot k item Hk).
  - intros k t Hk. destruct (decide (k = i)) as [->|Hne].
    + rewrite list_lookup_insert_eq in Hk
        by (apply lookup_lt_Some in Hi; exact Hi).
      injection Hk as <-. apply renumberFields_dense.
    + rewrite list_lookup_insert_ne in Hk by congruence. apply (Hsec k t Hk).
Qed.

(** *** Handlers that keep the invariant *)

Lemma orderDense_split (its : list FormItem) :
  orderDense its = true <-> denseItems its = true /\ SectionsDense its.
Proof.
  unfold orderDense, SectionsDense.
  rewrite andb_true_iff, forallb_forall, Forall_forall.
  split; intros [Hroot Hsec]; (split; [exact Hroot|]).
  - intros [f|s] Hin; [exact I|]. apply (Hsec (Section s)), list_elem_of_In, Hin.
  - intros [f|s] Hin; [reflexivity|]. apply (Hsec (Section s)), list_elem_of_In, Hin.
Qed.

Lemma renumberItems_SectionsDense (its : list FormItem) :
  SectionsDense its -> SectionsDense (renumberItems its).
Proof.
  unfold SectionsDense. rewrite !Forall_lookup. intros Hsec i item Hi.
  unfold renumberItems in Hi. rewrite list_lookup_imap in Hi.
  destruct (its !! i) as [[f|s]|] eqn:Hlk; [| |discriminate];
    injection Hi as <-; [exact I|]. apply (Hsec i (Section s) Hlk).
Qed.

Lemma renumbered_orderDense (its : list FormItem) :
  SectionsDense its -> orderDense (renumberItems its) = true.
Proof.
  intros Hsec. apply orderDense_split. split.
  - apply renumberItems_dense.
  - apply renumberItems_SectionsDense, Hsec.
Qed.

Lemma spliceInsert_Forall {A} (P : A -> Prop) (start : Z) (x : A)
    (l : list A) :
  Forall P l -> P x -> Forall P (spliceInsert start x l).
Proof.
  intros Hl Hx. unfold spliceInsert. apply Forall_app. split.
  - apply Forall_take, Hl.
  - constructor; [exact Hx | apply Forall_drop, Hl].
Qed.

Lemma spliceRemove_Forall {A} (P : A -> Prop) (start : Z) (l : list A) :
  Forall P l -> Forall P (spliceRemove start l).
Proof.
  intros Hl. unfold spliceRemove. apply Forall_app. split.
  - apply Forall_take, Hl.
  - apply Forall_drop, Hl.
Qed.

Lemma onSectionAt_orderDense (i : Z) (g : list FormField -> list FormField)
    (its : list FormItem) :
  (forall fs, denseFields (g fs) = true) ->
  orderDense its = true ->
  orderDense (onSectionAt i g its) = true.
Proof.
  intros Hg Hdense. unfold onSectionAt. destruct (i <? 0); [exact Hdense|].
  apply orderDense_split in Hdense as [Hroot Hsec].
  apply orderDense_split. split.
  - rewrite denseItems_spec in Hroot |- *. intros k item Hk.
    destruct (decide (k = Z.to_nat i)) as [->|Hne].
    + rewrite list_lookup_alter_eq in Hk.
      destruct (its !! Z.to_nat i) as [[f|s]|] eqn:Hlk; [| |discriminate];
        injection Hk as <-; apply (Hroot _ _ Hlk).
    + rewrite list_lookup_alter_ne in Hk by congruence. apply (Hroot _ _ Hk).
  - apply Forall_alter; [exact Hsec|].
    intros [f|s] _ _; [exact I | apply Hg].
Qed.

(** The insertion step keeps the invariant, at the root and in a
    section. *)
Lemma insertAt_keeps_order_density (targetId : option string)
    (position : option Z) (f : FormField) (its : list FormItem) :
  orderDense its = true ->
  orderDense (insertAt targetId position f its) = true.
Proof.
  intros Hdense. unfold insertAt. destruct (given targetId) as [sid|].
  - apply onSectionAt_orderDense; [|exact Hdense].
    intros fs. apply renumberFields_dense.
  - apply renumbered_orderDense, spliceInsert_Forall; [|exact I].
    apply orderDense_split in Hdense. apply Hdense.
Qed.

Lemma add_field_keeps_order_density (newId fieldType : string)
    (targetId : option string) (position : option Z) (ed ed' : Editor) :
  handleAddField newId fieldType targetId position ed = Normal ed' ->
  orderDense (items (schema ed)) = true ->
  orderDense (items (schema ed')) = true.
Proof.
  unfold handleAddField. intros Hrun Hdense.
  destruct (createDefaultField fieldType) as [body|e]; [|discriminate].
  injection Hrun as <-. cbn. apply insertAt_keeps_order_density, Hdense.
Qed.

Lemma delete_field_keeps_order_density (fid : string) (ed : Editor) :
  orderDense (items (schema ed)) = true ->
  orderDense (items (schema (handleDeleteField fid ed))) = true.
Proof.
  intros Hdense. unfold handleDeleteField. cbn.
  apply renumbered_orderDense.
  destruct (locate fid (items (schema ed))) as [[i f|i s j f]|].
  - apply spliceRemove_Forall. apply orderDense_split in Hdense. apply Hdense.
  - assert (orderDense
              (onSectionAt (Z.of_nat i)
                 (fun fs => renumberFields (spliceRemove (Z.of_nat j) fs))
                 (items (schema ed))) = true) as Hd
      by (apply onSectionAt_orderDense;
          [intros fs; apply renumberFields_dense | exact Hdense]).
    apply orderDense_split in Hd. apply Hd.
  - apply orderDense_split in Hdense. apply Hdense.
Qed.

Lemma add_section_keeps_order_density (newId : string) (ed : Editor) :
  orderDense (items (schema ed)) = true ->
  orderDense (items (schema (handleAddSection newId ed))) = true.
Proof.
  intros Hdense. apply orderDense_split in Hdense as [Hroot Hsec].
  unfold handleAddSection. cbn. apply orderDense_split. split.
  - rewrite denseItems_spec in Hroot |- *. intros k item Hk.
    apply lookup_app_Some in Hk as [Hk|[Hge Hk]]; [apply (Hroot _ _ Hk)|].
    apply list_lookup_singleton_Some in Hk as [Hk <-]. cbn. lia.
  - apply Forall_app. split; [exact Hsec|]. constructor; [reflexivity|constructor].
Qed.

Lemma moveItem_keeps_order_density (from to : Z) (its : list FormItem) :
  orderDense its = true ->
  orderDense (moveItem from to its) = true.
Proof.
  intros Hdense. unfold moveItem.
  destruct (its !! spliceStart (length its) from) as [moved|] eqn:Hmoved;
    [|exact Hdense].
  apply orderDense_split in Hdense as [_ Hsec].
  apply renumbered_orderDense, spliceInsert_Forall.
  - apply spliceRemove_Forall, Hsec.
  - unfold SectionsDense in Hsec. rewrite Forall_lookup in Hsec.
    apply (Hsec _ _ Hmoved).
Qed.

Lemma section_moves_keep_order_density (sid : string) (position : option Z)
    (ed : Editor) :
  orderDense (items (schema ed)) = true ->
  orderDense (items (schema (handleReorderSection sid position ed))) = true
  /\ orderDense (items (schema (handleDialogSectionReorder sid position ed)))
     = true
  /\ orderDense (items (schema (handleMoveSectionUp sid ed))) = true
  /\ orderDense (items (schema (handleMoveSectionDown sid ed))) = true
  /\ orderDense (items (schema (handleDeleteSection sid ed))) = true.
Proof.
  intros Hdense.
  unfold handleReorderSection, handleDialogSectionReorder,
    handleMoveSectionUp, handleMoveSectionDown, handleDeleteSection.
  repeat split.
  - destruct position; [|exact Hdense].
    destruct (0 <=? _); [|exact Hdense].
    apply moveItem_keeps_order_density, Hdense.
  - destruct position; [|exact Hdense].
    destruct (negb _); [|exact Hdense].
    apply moveItem_keeps_order_density, Hdense.
  - destruct (0 <? _); [|exact Hdense].
    apply moveItem_keeps_order_density, Hdense.
  - destruct (_ <? _); [|exact Hdense].
    apply moveItem_keeps_order_density, Hdense.
  - destruct (0 <=? _); [|exact Hdense].
    rewrite items_withItems.
    apply renumbered_orderDense, spliceRemove_Forall.
    apply orderDense_split in Hdense. apply Hdense.
Qed.

(** The handlers only move an item that exists: an index returned by
    [findIndex], or [-1] on a list that is not empty, always addresses an
    element. *)
Lemma moveItem_source_exists (p : FormItem -> bool) (its : list FormItem) :
  0 <= findIndex p its \/ findIndex p its < Z.of_nat (length its) - 1 ->
  is_Some (its !! spliceStart (length its) (findIndex p its)).
Proof.
  intros Hrange. apply lookup_lt_is_Some. unfold findIndex in *.
  destruct (findIndexFrom_cases p its 0) as [[Hm _]|[k [x [Hk [Hx _]]]]].
  - rewrite Hm in *. unfold spliceStart. cbn. lia.
  - rewrite Hk. rewrite Z.add_0_l, spliceStart_nat.
    apply lookup_lt_Some in Hx. lia.
Qed.

(** ** Operations on a target that is gone *)

(** C3: moving a field to a section that does not exist is not a no-op.
    [handleReorderField] takes the field out of its list before it looks
    for the target section, so the field is lost: from [[a; b]], moving
    [a] to the missing section ["gone"] leaves [[b]].  In the same way
    [handleMoveSectionDown] on a missing section id moves the last item to
    the front. *)
Theorem move_to_missing_section_loses_field :
  let ed := editorOf twoBags [Field fieldA; Field fieldB] in
  locate "a" (items (schema ed)) = Some (InMain 0 fieldA)
  /\ find (isSectionWithId "gone") (items (schema ed)) = None
  /\ items (schema (handleReorderField "a" (Some "gone") (Some 0) ed))
     = [Field fieldB]
  /\ items (schema (handleReorderField "a" (Some "gone") None ed))
     = [Field fieldB]
  /\ items (schema (handleMoveSectionDown "gone" ed))
     = [Field (setOrder fieldB 0); Field (setOrder fieldA 1)].
Proof. cbv zeta. repeat split; reflexivity. Qed.

(** In general: a root field moved to a missing section is removed and not
    put back anywhere. *)
Lemma reorder_to_missing_section (ed : Editor) (fid sid : string)
    (position : option Z) (i : nat) (f : FormField) :
  locate fid (items (schema ed)) = Some (InMain i f) ->
  sid <> "" ->
  Forall (fun item => isSectionWithId sid item = false) (items (schema ed)) ->
  items (schema (handleReorderField fid (Some sid) position ed))
  = delete i (items (schema ed))
  /\ length (items (schema (handleReorderField fid (Some sid) position ed)))
     = pred (length (items (schema ed))).
Proof.
  intros Hloc Hsid Hnone. destruct (locate_InMain _ _ _ _ Hloc) as [Hi _].
  assert (i < length (items (schema ed)))%nat as Hlt
    by (apply lookup_lt_Some in Hi; exact Hi).
  unfold handleReorderField. rewrite Hloc, items_withItems.
  unfold insertAt, given. apply String.eqb_neq in Hsid. rewrite Hsid.
  assert (spliceRemove (Z.of_nat i) (items (schema ed))
          = delete i (items (schema ed))) as Hrm.
  { unfold spliceRemove. rewrite spliceStart_nat.
    replace (Nat.min i (length (items (schema ed)))) with i by lia.
    symmetry. apply delete_take_drop. }
  rewrite Hrm.
  assert (Forall (fun item => isSectionWithId sid item = false)
                 (delete i (items (schema ed)))) as Hnone'.
  { rewrite delete_take_drop. apply Forall_app. split.
    - apply Forall_take, Hnone.
    - apply Forall_drop, Hnone. }
  destruct (findIndexFrom_cases (isSectionWithId sid)
              (delete i (items (schema ed))) 0) as [[Hm _]|[k [x [_ [Hx Hp]]]]].
  - unfold findIndex. rewrite Hm. cbn [onSectionAt Z.ltb Z.compare].
    split; [reflexivity|]. rewrite length_delete by (eexists; exact Hi). lia.
  - rewrite Forall_lookup in Hnone'. rewrite (Hnone' k x Hx) in Hp.
    discriminate.
Qed.

(** The guarded handlers, by contrast, do nothing when the id they are
    given is not found. *)
Lemma reorder_missing_field (ed : Editor) (fid : string)
    (targetId : option string) (position : option Z) :
  locate fid (items (schema ed)) = None ->
  handleReorderField fid targetId position ed = ed.
Proof. intros Hloc. unfold handleReorderField. rewrite Hloc. reflexivity. Qed.

Lemma clone_missing_field (ed : Editor) (newId fid : string) :
  locate fid (items (schema ed)) = None ->
  handleCloneField newId fid ed = ed.
Proof.
  intros Hloc. unfold handleCloneField. rewrite Hloc.
  destruct ed as [st [? ? ? ? ? ?] sel op]. reflexivity.
Qed.

Lemma update_missing_field (ed : Editor) (fid : string) (u : FieldUpdate) :
  locate fid (items (schema ed)) = None ->
  handleUpdateField fid u ed = ed.
Proof.
  intros Hloc. unfold handleUpdateField. rewrite Hloc.
  destruct ed as [st [? ? ? ? ? ?] sel op]. reflexivity.
Qed.

Lemma missing_section_noops (ed : Editor) (sid : string)
    (position : option Z) :
  findIndex (isSectionWithId sid) (items (schema ed)) = -1 ->
  handleReorderSection sid position ed = ed
  /\ handleDialogSectionReorder sid position ed = ed
  /\ handleMoveSectionUp sid ed = ed
  /\ handleDeleteSection sid ed = ed.
Proof.
  intros Hm.
  unfold handleReorderSection, handleDialogSectionReorder,
    handleMoveSectionUp, handleDeleteSection.
  rewrite Hm. destruct position; repeat split; reflexivity.
Qed.

Lemma findIndex_absent {A} (p : A -> bool) (l : list A) :
  Forall (fun x => p x = false) l -> findIndex p l = -1.
Proof.
  intros Hall. unfold findIndex.
  destruct (findIndexFrom_cases p l 0) as [[Hm _]|[k [x [_ [Hx Hp]]]]];
    [exact Hm|].
  rewrite Forall_lookup in Hall. rewrite (Hall k x Hx) in Hp. discriminate.
Qed.

(** An id that no field carries is not located. *)
Lemma locate_absent (fid : string) (its : list FormItem) :
  Forall (fun f => id f <> fid) (getAllFields its) ->
  locate fid its = None.
Proof.
  unfold locate. generalize 0%nat.
  induction its as [|[f|s] its IH]; intros i0 Habs; cbn; [reflexivity| |].
  - cbn in Habs. apply Forall_cons in Habs as [Hf Hrest].
    unfold hasId. apply String.eqb_neq in Hf. rewrite Hf.
    apply IH, Hrest.
  - cbn in Habs. apply Forall_app in Habs as [Hs Hrest].
    rewrite findIndex_absent.
    + cbn. apply IH, Hrest.
    + eapply Forall_impl; [exact Hs|]. intros f Hf.
      apply String.eqb_neq, Hf.
Qed.

Lemma setItemOrder_same (item : FormItem) :
  setItemOrder item (item_order item) = item.
Proof. destruct item as [[]|[]]; reflexivity. Qed.

Lemma renumberItems_dense_id (its : list FormItem) :
  denseItems its = true -> renumberItems its = its.
Proof.
  rewrite denseItems_spec. intros Hdense. apply list_eq. intros i.
  unfold renumberItems. rewrite list_lookup_imap.
  destruct (its !! i) as [item|] eqn:Hi; [|reflexivity]. cbn.
  rewrite <- (Hdense i item Hi), setItemOrder_same. reflexivity.
Qed.

(** [handleDeleteField] on an id that is gone only re-numbers the root: it
    changes nothing in a schema whose root is densely ordered. *)
Lemma delete_missing_field (ed : Editor) (fid : string) :
  locate fid (items (schema ed)) = None ->
  denseItems (items (schema ed)) = true ->
  items (schema (handleDeleteField fid ed)) = items (schema ed).
Proof.
  intros Hloc Hdense. unfold handleDeleteField. rewrite Hloc. cbn.
  apply renumberItems_dense_id, Hdense.
Qed.

(** [handleAddField] on a section that is gone leaves the items as they
    were, yet reports the id of the field it did not insert as the
    selection. *)
Lemma add_field_missing_section (newId fieldType sid : string)
    (position : option Z) (ed ed' : Editor) :
  sid <> "" ->
  Forall (fun item => isSectionWithId sid item = false) (items (schema ed)) ->
  handleAddField newId fieldType (Some sid) position ed = Normal ed' ->
  items (schema ed') = items (schema ed) /\ selectedField ed' = Some newId.
Proof.
  intros Hsid Habs Hrun. unfold handleAddField in Hrun.
  destruct (createDefaultField fieldType) as [body|e]; [|discriminate].
  injection Hrun as <-. cbn. split; [|reflexivity].
  unfold insertAt, given. apply String.eqb_neq in Hsid. rewrite Hsid.
  rewrite (findIndex_absent _ _ Habs). reflexivity.
Qed.

(** ** Validation of a list of sections *)

(** [validateForm] itself: the errors are those of the sections' fields,
    sections in order and fields in order. *)
Lemma validateForm_errors `{JSHost} (st : PropStore)
    (secs : list FormSection) (values : gmap string JSValue)
    (E : FormField -> list ValidationError) :
  (forall f, f ∈ flat_map fields secs ->
             validateField st f (valueOf values (id f)) = Normal (E f)) ->
  exists res,
    validateForm st secs values = Normal res
    /\ errors res = flat_map E (flat_map fields secs).
Proof.
  intros HE. unfold validateForm.
  rewrite (mapM_all_normal _ (fun s => flat_map E (fields s))).
  - eexists. split; [reflexivity|]. cbn.
    rewrite <- flat_map_concat_map. clear HE.
    induction secs as [|s secs IH]; cbn; [reflexivity|].
    rewrite flat_map_app, IH. reflexivity.
  - intros s Hs. rewrite (mapM_all_normal _ E).
    + cbn. rewrite <- flat_map_concat_map. reflexivity.
    + intros f Hf. apply HE. apply list_elem_of_In, in_flat_map.
      exists s. split; apply list_elem_of_In; assumption.
Qed.

(** ** The ids of a document under the structural handlers *)

Lemma documentIds_app (l1 l2 : list FormItem) :
  documentIds (l1 ++ l2) = documentIds l1 ++ documentIds l2.
Proof. apply flat_map_app. Qed.

Lemma map_imap_invariant {A B} (h : A -> B) (g : nat -> A -> A) (l : list A) :
  (forall i x, h (g i x) = h x) -> map h (imap g l) = map h l.
Proof.
  intros Hg. revert g Hg. induction l as [|x l IH]; intros g Hg; [reflexivity|].
  cbn. rewrite Hg. f_equal. apply IH. intros i y. apply Hg.
Qed.

Lemma renumberFields_ids (fs : list FormField) :
  map id (renumberFields fs) = map id fs.
Proof. apply map_imap_invariant. reflexivity. Qed.

Lemma documentIds_renumberItems (its : list FormItem) :
  documentIds (renumberItems its) = documentIds its.
Proof.
  unfold documentIds, renumberItems. rewrite !flat_map_concat_map. f_equal.
  apply map_imap_invariant. intros i [f|s]; reflexivity.
Qed.

Lemma documentIds_spliceInsert (start : Z) (x : FormItem)
    (its : list FormItem) :
  documentIds (spliceInsert start x its) ≡ₚ itemIds x ++ documentIds its.
Proof.
  unfold spliceInsert. set (k := spliceStart (length its) start).
  rewrite <- (take_drop k its) at 3.
  rewrite !documentIds_app. cbn [documentIds flat_map].
  fold (documentIds (drop k its)).
  rewrite (Permutation_app_swap_app (itemIds x)). reflexivity.
Qed.

Lemma ids_spliceInsert (start : Z) (f : FormField) (fs : list FormField) :
  map id (spliceInsert start f fs) ≡ₚ id f :: map id fs.
Proof.
  unfold spliceInsert. set (k := spliceStart (length fs) start).
  rewrite <- (take_drop k fs) at 3.
  rewrite !map_app. cbn [map]. symmetry. apply Permutation_middle.
Qed.

Lemma spliceRemove_nat {A} (i : nat) (l : list A) :
  (i < length l)%nat -> spliceRemove (Z.of_nat i) l = take i l ++ drop (S i) l.
Proof.
  intros Hi. unfold spliceRemove. rewrite spliceStart_nat.
  replace (Nat.min i (length l)) with i by lia. reflexivity.
Qed.

Lemma documentIds_spliceRemove (i : nat) (x : FormItem) (its : list FormItem) :
  its !! i = Some x ->
  itemIds x ++ documentIds (spliceRemove (Z.of_nat i) its) ≡ₚ documentIds its.
Proof.
  intros Hi. rewrite spliceRemove_nat by (apply lookup_lt_Some in Hi; exact Hi).
  rewrite <- (take_drop_middle _ _ _ Hi) at 3.
  rewrite !documentIds_app. cbn [documentIds flat_map].
  fold (documentIds (drop (S i) its)).
  rewrite (Permutation_app_swap_app (documentIds (take i its))). reflexivity.
Qed.

Lemma ids_spliceRemove (j : nat) (f : FormField) (fs : list FormField) :
  fs !! j = Some f ->
  id f :: map id (spliceRemove (Z.of_nat j) fs) ≡ₚ map id fs.
Proof.
  intros Hj. rewrite spliceRemove_nat by (apply lookup_lt_Some in Hj; exact Hj).
  rewrite <- (take_drop_middle _ _ _ Hj) at 3.
  rewrite !map_app. cbn [map]. apply Permutation_middle.
Qed.

(** The ids of a document, split around the section at index [k]. *)
Lemma documentIds_around (k : nat) (s : FormSection)
    (g : list FormField -> list FormField) (its : list FormItem) :
  its !! k = Some (Section s) ->
  documentIds (onSectionAt (Z.of_nat k) g its)
  = documentIds (take k its)
    ++ (section_id s :: map id (g (fields s)))
    ++ documentIds (drop (S k) its).
Proof.
  intros Hk. rewrite (onSectionAt_section _ _ _ _ Hk).
  assert (k < length its)%nat as Hlt by (apply lookup_lt_Some in Hk; exact Hk).
  rewrite insert_take_drop by exact Hlt.
  rewrite documentIds_app. reflexivity.
Qed.

Lemma documentIds_split (k : nat) (s : FormSection) (its : list FormItem) :
  its !! k = Some (Section s) ->
  documentIds its
  = documentIds (take k its)
    ++ (section_id s :: map id (fields s))
    ++ documentIds (drop (S k) its).
Proof.
  intros Hk. rewrite <- (take_drop_middle _ _ _ Hk) at 1.
  rewrite documentIds_app. reflexivity.
Qed.

Lemma documentIds_onSectionAt_add (k : nat) (s : FormSection) (x : string)
    (g : list FormField -> list FormField) (its : list FormItem) :
  its !! k = Some (Section s) ->
  map id (g (fields s)) ≡ₚ x :: map id (fields s) ->
  documentIds (onSectionAt (Z.of_nat k) g its) ≡ₚ x :: documentIds its.
Proof.
  intros Hk Hg. rewrite (documentIds_around _ _ _ _ Hk), (documentIds_split _ _ _ Hk).
  rewrite Hg.
  change (x :: documentIds (take k its) ++ ?r)
    with ([x] ++ documentIds (take k its) ++ r).
  rewrite (Permutation_app_swap_app [x]). cbn.
  apply Permutation_app_head. apply perm_swap.
Qed.

Lemma documentIds_onSectionAt_remove (k : nat) (s : FormSection) (x : string)
    (g : list FormField -> list FormField) (its : list FormItem) :
  its !! k = Some (Section s) ->
  x :: map id (g (fields s)) ≡ₚ map id (fields s) ->
  x :: documentIds (onSectionAt (Z.of_nat k) g its) ≡ₚ documentIds its.
Proof.
  intros Hk Hg. rewrite (documentIds_around _ _ _ _ Hk), (documentIds_split _ _ _ Hk).
  rewrite <- Hg.
  change (x :: documentIds (take k its) ++ ?r)
    with ([x] ++ documentIds (take k its) ++ r).
  rewrite (Permutation_app_swap_app [x]). cbn.
  apply Permutation_app_head. apply perm_swap.
Qed.

Lemma documentIds_onSectionAt_same (i : Z)
    (g : list FormField -> list FormField) (its : list FormItem) :
  (forall fs, map id (g fs) = map id fs) ->
  documentIds (onSectionAt i g its) = documentIds its.
Proof.
  intros Hg. unfold onSectionAt. destruct (i <? 0); [reflexivity|].
  generalize (Z.to_nat i). clear i.
  induction its as [|x its IH]; intros [|n]; try reflexivity.
  - destruct x as [f|s]; cbn; [reflexivity|]. rewrite Hg. reflexivity.
  - cbn. f_equal. apply IH.
Qed.

Lemma findIndex_found {A} (p : A -> bool) (l : list A) :
  Exists (fun x => p x = true) l ->
  exists k x, findIndex p l = Z.of_nat k /\ l !! k = Some x /\ p x = true.
Proof.
  intros Hex. unfold findIndex.
  destruct (findIndexFrom_cases p l 0) as [[_ Hall]|[k [x [Hk Hx]]]].
  - apply Exists_exists in Hex as [x [Hin Hpx]].
    rewrite Forall_forall in Hall. rewrite (Hall x Hin) in Hpx. discriminate.
  - exists k, x. rewrite Hk, Z.add_0_l. split; [reflexivity | exact Hx].
Qed.

Lemma isSectionWithId_inv (sid : string) (item : FormItem) :
  isSectionWithId sid item = true ->
  exists s, item = Section s /\ section_id s = sid.
Proof.
  destruct item as [f|s]; cbn; [discriminate|].
  intros Hs. exists s. split; [reflexivity|]. apply String.eqb_eq, Hs.
Qed.

Lemma insertAt_ids (targetId : option string) (position : option Z)
    (f : FormField) (its : list FormItem) :
  TargetExists targetId its ->
  documentIds (insertAt targetId position f its) ≡ₚ id f :: documentIds its.
Proof.
  unfold TargetExists, insertAt. destruct (given targetId) as [sid|]; intros Hex.
  - destruct (findIndex_found _ _ Hex) as [k [x [Hk [Hx Hp]]]].
    destruct (isSectionWithId_inv _ _ Hp) as [s [-> _]].
    rewrite Hk. apply (documentIds_onSectionAt_add _ _ _ _ _ Hx).
    rewrite renumberFields_ids. apply ids_spliceInsert.
  - rewrite documentIds_renumberItems. apply documentIds_spliceInsert.
Qed.

Lemma Exists_section_after_remove (sid : string) (i : nat) (f : FormField)
    (its : list FormItem) :
  its !! i = Some (Field f) ->
  Exists (fun item => isSectionWithId sid item = true) its ->
  Exists (fun item => isSectionWithId sid item = true)
         (spliceRemove (Z.of_nat i) its).
Proof.
  intros Hi Hex.
  rewrite spliceRemove_nat by (apply lookup_lt_Some in Hi; exact Hi).
  rewrite <- (take_drop_middle _ _ _ Hi) in Hex.
  apply Exists_app in Hex as [Hex|Hex]; apply Exists_app; [left; exact Hex|].
  apply Exists_cons in Hex as [Hex|Hex]; [discriminate | right; exact Hex].
Qed.

Lemma Exists_section_after_alter (sid : string) (i : Z)
    (g : list FormField -> list FormField) (its : list FormItem) :
  Exists (fun item => isSectionWithId sid item = true) its ->
  Exists (fun item => isSectionWithId sid item = true) (onSectionAt i g its).
Proof.
  unfold onSectionAt. destruct (i <? 0); [tauto|].
  generalize (Z.to_nat i). clear i.
  induction its as [|x its IH]; intros n Hex; [inversion Hex|].
  apply Exists_cons in Hex. destruct n as [|n]; cbn; apply Exists_cons.
  - destruct Hex as [Hx|Hex]; [left | right; exact Hex].
    destruct x as [f|s]; exact Hx.
  - destruct Hex as [Hx|Hex]; [left; exact Hx | right; apply IH, Hex].
Qed.

Lemma TargetExists_after_remove (targetId : option string) (i : nat)
    (f : FormField) (its : list FormItem) :
  its !! i = Some (Field f) ->
  TargetExists targetId its ->
  TargetExists targetId (spliceRemove (Z.of_nat i) its).
Proof.
  unfold TargetExists. destruct (given targetId); [|tauto].
  apply Exists_section_after_remove.
Qed.

Lemma TargetExists_after_alter (targetId : option string) (i : Z)
    (g : list FormField -> list FormField) (its : list FormItem) :
  TargetExists targetId its -> TargetExists targetId (onSectionAt i g its).
Proof.
  unfold TargetExists. destruct (given targetId); [|tauto].
  apply Exists_section_after_alter.
Qed.

(** X1: moving a field neither loses nor duplicates anything.  When the
    field is found and the target is the main area or a section of the
    schema, the ids of the document after [handleReorderField] are the ids
    before, up to their order; so ids that were pairwise distinct stay
    so. *)
Theorem move_field_keeps_ids (ed : Editor) (fid : string)
    (targetId : option string) (position : option Z) (loc : Located) :
  locate fid (items (schema ed)) = Some loc ->
  TargetExists targetId (items (schema ed)) ->
  documentIds (items (schema (handleReorderField fid targetId position ed)))
  ≡ₚ documentIds (items (schema ed))
  /\ (NoDup (documentIds (items (schema ed))) ->
      NoDup (documentIds
               (items (schema (handleReorderField fid targetId position ed))))).
Proof.
  intros Hloc Htarget.
  assert (documentIds
            (items (schema (handleReorderField fid targetId position ed)))
          ≡ₚ documentIds (items (schema ed))) as Hperm.
  { unfold handleReorderField. rewrite Hloc.
    destruct loc as [i f|i s j f]; rewrite items_withItems.
    - destruct (locate_InMain _ _ _ _ Hloc) as [Hi _].
      rewrite insertAt_ids by (apply (TargetExists_after_remove _ _ _ _ Hi), Htarget).
      apply (documentIds_spliceRemove _ _ _ Hi).
    - destruct (locate_InSection _ _ _ _ _ _ Hloc) as [Hi [Hj _]].
      assert (documentIds
                (insertAt targetId position f
                   (onSectionAt (Z.of_nat i) (spliceRemove (Z.of_nat j))
                      (items (schema ed))))
              ≡ₚ documentIds (items (schema ed))) as Hins.
      { rewrite insertAt_ids by (apply TargetExists_after_alter, Htarget).
        apply (documentIds_onSectionAt_remove _ _ _ _ _ Hi).
        apply (ids_spliceRemove _ _ _ Hj). }
      destruct (String.eqb (section_id s) ""); [exact Hins|].
      rewrite documentIds_onSectionAt_same by apply renumberFields_ids.
      exact Hins. }
  split; [exact Hperm|]. intros Hnodup. rewrite Hperm. exact Hnodup.
Qed.

Lemma move_field_keeps_ids_witness :
  documentIds
    (items (schema (handleReorderField "a" (Some "s") (Some 1)
                      (editorOf twoBags mixedItems))))
  ≡ₚ documentIds mixedItems.
Proof.
  apply (move_field_keeps_ids (editorOf twoBags mixedItems) "a" (Some "s")
           (Some 1) (InMain 0 fieldA) eq_refl).
  unfold TargetExists. cbn. right. left. reflexivity.
Defined.

(** X2: cloning adds exactly one id, the generated one.  When the field is
    found, the ids after [handleCloneField] are the generated id together
    with the ids before; if the generated id was unused and the ids were
    pairwise distinct, they still are. *)
Theorem clone_adds_one_id (ed : Editor) (newId fid : string) (loc : Located) :
  locate fid (items (schema ed)) = Some loc ->
  documentIds (items (schema (handleCloneField newId fid ed)))
  ≡ₚ newId :: documentIds (items (schema ed))
  /\ (newId ∉ documentIds (items (schema ed)) ->
      NoDup (documentIds (items (schema ed))) ->
      NoDup (documentIds (items (schema (handleCloneField newId fid ed))))).
Proof.
  intros Hloc.
  assert (documentIds (items (schema (handleCloneField newId fid ed)))
          ≡ₚ newId :: documentIds (items (schema ed))) as Hperm.
  { unfold handleCloneField. rewrite Hloc.
    destruct loc as [i f|i s j f]; rewrite items_withItems.
    - apply (documentIds_spliceInsert _ (Field (cloneOf newId f _))).
    - destruct (locate_InSection _ _ _ _ _ _ Hloc) as [Hi _].
      apply (documentIds_onSectionAt_add _ _ _ _ _ Hi).
      rewrite renumberFields_ids.
      apply (ids_spliceInsert _ (cloneOf newId f _)). }
  split; [exact Hperm|]. intros Hfresh Hnodup. rewrite Hperm.
  apply NoDup_cons. split; assumption.
Qed.

Lemma clone_adds_one_id_witness :
  NoDup (documentIds
           (items (schema (handleCloneField "c" "b"
                             (editorOf twoBags mixedItems))))).
Proof.
  apply (clone_adds_one_id (editorOf twoBags mixedItems) "c" "b"
           (InSection 1 (mkSection "s" "S" None [fieldB] 1) 0 fieldB) eq_refl).
  - vm_compute. intros Hin. repeat (apply elem_of_cons in Hin as [Hin|Hin];
      [discriminate|]). inversion Hin.
  - vm_compute. repeat (apply NoDup_cons; split;
      [intros Hin; repeat (apply elem_of_cons in Hin as [Hin|Hin];
         [discriminate|]); inversion Hin|]). apply NoDup_nil. exact I.
Defined.

(** X3: deleting a field removes that field and nothing else.  When the
    field is found, the ids before [handleDeleteField] are its id together
    with the ids after; with pairwise distinct ids no element carries the
    id any more.  The selection is cleared exactly when the deleted field
    was the selected one, and the store is untouched. *)
Theorem delete_field_removes_one_id (ed : Editor) (fid : string)
    (loc : Located) :
  locate fid (items (schema ed)) = Some loc ->
  fid :: documentIds (items (schema (handleDeleteField fid ed)))
  ≡ₚ documentIds (items (schema ed))
  /\ (NoDup (documentIds (items (schema ed))) ->
      fid ∉ documentIds (items (schema (handleDeleteField fid ed))))
  /\ selectedField (handleDeleteField fid ed)
     = (if bool_decide (selectedField ed = Some fid) then None
        else selectedField ed)
  /\ store (handleDeleteField fid ed) = store ed.
Proof.
  intros Hloc.
  assert (fid :: documentIds (items (schema (handleDeleteField fid ed)))
          ≡ₚ documentIds (items (schema ed))) as Hperm.
  { unfold handleDeleteField. rewrite Hloc. cbn [items schema setItems].
    rewrite documentIds_renumberItems.
    destruct loc as [i f|i s j f].
    - destruct (locate_InMain _ _ _ _ Hloc) as [Hi <-].
      apply (documentIds_spliceRemove _ _ _ Hi).
    - destruct (locate_InSection _ _ _ _ _ _ Hloc) as [Hi [Hj <-]].
      apply (documentIds_onSectionAt_remove _ _ _ _ _ Hi).
      rewrite renumberFields_ids. apply (ids_spliceRemove _ _ _ Hj). }
  split; [exact Hperm|]. split; [|split; reflexivity].
  intros Hnodup. rewrite <- Hperm in Hnodup.
  apply NoDup_cons in Hnodup. apply Hnodup.
Qed.

Lemma delete_field_removes_one_id_witness :
  "b" :: documentIds
           (items (schema (handleDeleteField "b" (editorOf twoBags mixedItems))))
  ≡ₚ documentIds mixedItems.
Proof.
  apply (delete_field_removes_one_id (editorOf twoBags mixedItems) "b"
           (InSection 1 (mkSection "s" "S" None [fieldB] 1) 0 fieldB) eq_refl).
Defined.

(** X4: a field dropped from the palette arrives once.  When
    [handleAddField] returns and the target is the main area or a section
    of the schema, the ids afterwards are the generated id together with
    the ids before, the new field is the selection, and order density is
    kept. *)
Theorem add_field_adds_one_id (newId fieldType : string)
    (targetId : option string) (position : option Z) (ed ed' : Editor) :
  handleAddField newId fieldType targetId position ed = Normal ed' ->
  TargetExists targetId (items (schema ed)) ->
  documentIds (items (schema ed')) ≡ₚ newId :: documentIds (items (schema ed))
  /\ selectedField ed' = Some newId
  /\ (orderDense (items (schema ed)) = true ->
      orderDense (items (schema ed')) = true).
Proof.
  unfold handleAddField. intros Hrun Htarget.
  destruct (createDefaultField fieldType) as [body|e]; [|discriminate].
  injection Hrun as <-. cbn [items schema setItems selectedField].
  split; [|split; [reflexivity|]].
  - exact (insertAt_ids _ _ (mkField newId _ _ _ _ _ _ 0) _ Htarget).
  - apply insertAt_keeps_order_density.
Qed.

Lemma add_field_adds_one_id_witness :
  exists ed',
    handleAddField "n" "number" (Some "s") (Some 0)
                   (editorOf twoBags mixedItems) = Normal ed'
    /\ documentIds (items (schema ed')) ≡ₚ "n" :: documentIds mixedItems.
Proof.
  eexists. split; [reflexivity|].
  apply (add_field_adds_one_id "n" "number" (Some "s") (Some 0)
           (editorOf twoBags mixedItems) _ eq_refl).
  unfold TargetExists. cbn. right. left. reflexivity.
Defined.

(** ** More on validation *)

Lemma mapM_Normal_inv {A B} (f : A -> completion B) (l : list A)
    (ys : list B) :
  mapM f l = Normal ys -> Forall2 (fun x y => f x = Normal y) l ys.
Proof.
  revert ys. induction l as [|x l IH]; intros ys Hrun; cbn in Hrun.
  - injection Hrun as <-. constructor.
  - destruct (f x) as [y|e] eqn:Hx; cbn in Hrun; [|discriminate].
    destruct (mapM f l) as [zs|e]; cbn in Hrun; [|discriminate].
    injection Hrun as <-. constructor; [exact Hx | apply IH; reflexivity].
Qed.

Lemma mapM_total {A B} (f : A -> completion B) (l : list A) :
  Forall (fun x => exists y, f x = Normal y) l ->
  exists ys, mapM f l = Normal ys.
Proof.
  induction 1 as [|x l [y Hy] _ [ys Hys]]; cbn.
  - eexists. reflexivity.
  - rewrite Hy. cbn. rewrite Hys. cbn. eexists. reflexivity.
Qed.

Lemma mapM_throws {A B} (f : A -> completion B) (l : list A) (x : A)
    (e : JSError) :
  x ∈ l -> f x = Throw e -> exists e', mapM f l = Throw e'.
Proof.
  intros Hin Hx. induction l as [|y l IH]; [inversion Hin|].
  apply elem_of_cons in Hin as [<-|Hin]; cbn.
  - rewrite Hx. eexists. reflexivity.
  - destruct (f y); cbn; [|eexists; reflexivity].
    destruct (IH Hin) as [e' ->]. eexists. reflexivity.
Qed.

Section MoreValidation.
Context `{JSHost}.
Variable st : PropStore.

Ltac split_checks :=
  repeat match goal with
         | |- context [match ?x with Some _ => _ | None => _ end] => destruct x
         | |- context [if ?b then _ else _] => destruct b
         end.

Ltac attributed :=
  split_checks; repeat (apply Forall_app; split);
  repeat first [apply Forall_nil_2 | apply Forall_cons_2; [reflexivity|]].

(** The errors of one field all carry the id of that field. *)
Lemma validateField_attribution (f : FormField) (v : JSValue)
    (errs : list ValidationError) :
  validateField st f v = Normal errs ->
  Forall (fun e => fieldId e = id f) errs.
Proof.
  unfold validateField.
  destruct (required f && isBlank v);
    [intros [= <-]; repeat constructor|].
  destruct (isBlank v); [intros [= <-]; constructor|].
  destruct (typeCase (type f)).
  - destruct v; try (intros [= <-]; constructor).
    unfold textChecks, propertiesOf.
    destruct (st !! properties f) as [p|]; [|discriminate]. cbn.
    destruct (validation p ≫= pattern) as [pat|];
      [destruct (String.eqb pat ""); [|destruct (RegExp_test pat s) as [[]|]]|];
      try discriminate; intros [= <-]; attributed.
  - unfold numberChecks, propertiesOf.
    destruct (JS.isNaN (Number v)); [intros [= <-]; repeat constructor|].
    destruct (st !! properties f) as [p|]; [|discriminate]. cbn.
    intros [= <-]. attributed.
  - unfold dateChecks.
    destruct (truthy v && negb (isValidDate v)); intros [= <-];
      repeat constructor.
  - unfold dropdownChecks, propertiesOf.
    destruct (st !! properties f) as [p|]; [|discriminate]. cbn.
    intros [= <-]. destruct (selectionType p) as [[]|]; attributed.
  - unfold fileChecks, propertiesOf.
    assert (forall files errs',
               (fileProperties ← match st !! properties f with
                                 | Some p => Normal p
                                 | None => Throw TypeError
                                 end;
                Normal
                  ((match acceptedTypes fileProperties with
                    | Some (t :: ts) =>
                        if existsb
                             (fun v0 =>
                                match v0 with
                                | JFile f0 =>
                                    negb (includes (t :: ts) (extensionOf f0))
                                | _ => false
                                end) files
                        then [err f (" accepts only " +:+ JS.join ", " (t :: ts)
                                     +:+ " files")]
                        else []
                    | _ => []
                    end)
                   ++ (match maxSize fileProperties with
                       | Some m =>
                           if JS.numTruthy m
                              && existsb
                                   (fun v0 =>
                                      match v0 with
                                      | JFile f0 => JS.gtb (file_size f0) m
                                      | _ => false
                                      end) files
                           then [err f (" file size must be less than "
                                        +:+ formatFileSize m)]
                           else []
                       | None => []
                       end)
                   ++ (if negb (default false (multiple fileProperties))
                          && (1 <? length files)%nat
                       then [err f " allows only single file upload"]
                       else []))) = Normal errs' ->
               Forall (fun e => fieldId e = id f) errs') as Hfiles.
    { intros files errs'.
      destruct (st !! properties f) as [p|]; [|discriminate]. cbn.
      intros [= <-].
      destruct (acceptedTypes p) as [[|t ts]|]; attributed. }
    destruct v; try (intros [= <-]; constructor); apply Hfiles.
  - intros [= <-]. constructor.
Qed.

Ltac at_most_three :=
  eexists; split; [reflexivity|];
  rewrite ?length_app; split_checks; cbn; lia.

(** With its property bag in the store and patterns that compile, a field
    is validated without a throw, and gets at most three errors. *)
Lemma validateField_returns (f : FormField) (v : JSValue) :
  is_Some (st !! properties f) ->
  PatternCompiles st f ->
  exists errs, validateField st f v = Normal errs /\ (length errs <= 3)%nat.
Proof.
  intros [p Hp] Hre. unfold validateField.
  destruct (required f && isBlank v); [at_most_three|].
  destruct (isBlank v); [at_most_three|].
  destruct (typeCase (type f)).
  - destruct v; try at_most_three.
    unfold textChecks, propertiesOf. rewrite Hp. cbn.
    destruct (validation p ≫= pattern) as [pat|] eqn:Hrule;
      [destruct (String.eqb pat "") eqn:Hempty;
       [|destruct (RegExp_test pat s) as [[]|] eqn:Hpat;
         [| |exfalso; apply String.eqb_neq in Hempty;
             exact (Hre p pat Hp Hrule Hempty s Hpat)]]|];
      at_most_three.
  - unfold numberChecks, propertiesOf. rewrite Hp.
    destruct (JS.isNaN (Number v)); cbn; at_most_three.
  - unfold dateChecks.
    destruct (truthy v && negb (isValidDate v)); at_most_three.
  - unfold dropdownChecks, propertiesOf. rewrite Hp. cbn.
    destruct (selectionType p) as [[]|]; at_most_three.
  - unfold fileChecks, propertiesOf.
    destruct v; try at_most_three; rewrite Hp; cbn;
      destruct (acceptedTypes p) as [[|t ts]|]; at_most_three.
  - at_most_three.
Qed.

End MoreValidation.

Lemma mapM_concat_elem {A B} (f : A -> completion (list B)) (l : list A)
    (ys : list (list B)) (e : B) :
  mapM f l = Normal ys ->
  e ∈ concat ys ->
  exists x y, x ∈ l /\ f x = Normal y /\ e ∈ y.
Proof.
  intros Hrun%mapM_Normal_inv Hin.
  induction Hrun as [|x y l ys Hx _ IH]; cbn in Hin; [inversion Hin|].
  apply elem_of_app in Hin as [Hin|Hin].
  - exists x, y. split; [apply list_elem_of_here | split; assumption].
  - destruct (IH Hin) as [x' [y' [Hx' Hrest]]].
    exists x', y'. split; [apply list_elem_of_further, Hx' | exact Hrest].
Qed.

Lemma submitValidation_inv `{JSHost} (st : PropStore) (sch : FormSchema)
    (values : gmap string JSValue) (res : ValidationResult) :
  submitValidation st sch values = Normal res ->
  exists per,
    mapM (fun field => validateField st field (valueOf values (id field)))
         (getAllFields (items sch)) = Normal per
    /\ errors res = concat per
    /\ isValid res = Nat.eqb (length (concat per)) 0.
Proof.
  unfold submitValidation, validateForm, tempSections. cbn [mapM fields].
  destruct (mapM _ (getAllFields (items sch))) as [per|e]; cbn; [|discriminate].
  intros [= <-]. exists per. cbn. rewrite app_nil_r. repeat split.
Qed.

(** X5: every error a submission reports belongs to a field of the form.
    Each entry of the error list carries the id of a field of the schema,
    and it is one of the errors [validateField] gives for that field and
    its current value. *)
Theorem submit_errors_belong_to_fields `{JSHost} (st : PropStore)
    (sch : FormSchema) (values : gmap string JSValue)
    (res : ValidationResult) :
  submitValidation st sch values = Normal res ->
  forall e, e ∈ errors res ->
    exists f errs,
      f ∈ getAllFields (items sch)
      /\ validateField st f (valueOf values (id f)) = Normal errs
      /\ e ∈ errs
      /\ fieldId e = id f.
Proof.
  intros Hrun e He.
  destruct (submitValidation_inv _ _ _ _ Hrun) as [per [Hper [Herr _]]].
  rewrite Herr in He.
  destruct (mapM_concat_elem _ _ _ _ Hper He) as [f [errs [Hf [Hv Hin]]]].
  exists f, errs. repeat split; try assumption.
  pose proof (validateField_attribution st f _ _ Hv) as Hattr.
  rewrite Forall_forall in Hattr. apply Hattr, Hin.
Qed.

Lemma submit_errors_belong_to_fields_witness :
  exists f,
    f ∈ getAllFields [Field (textField "q1" "Name" true 0 0)]
    /\ fieldId (mkError "q1" "Name is required") = id f.
Proof.
  assert (submitValidation (H := exampleHost) ∅
            (schemaOf [Field (textField "q1" "Name" true 0 0)]) ∅
          = Normal (mkResult false [mkError "q1" "Name is required"])) as Hrun
    by reflexivity.
  destruct (submit_errors_belong_to_fields (H := exampleHost) ∅
              (schemaOf [Field (textField "q1" "Name" true 0 0)]) ∅
              (mkResult false [mkError "q1" "Name is required"]) Hrun
              (mkError "q1" "Name is required"))
    as [f [errs [Hf [_ [_ Hid]]]]].
  - apply list_elem_of_here.
  - exists f. split; assumption.
Defined.

(** X6: validation does not throw on a well-formed schema.  When the
    property bag of every field is in the store and the host compiles the
    validation pattern of every field of the schema (other patterns it may
    reject), the validation of a submission returns a result, whatever the
    values; so does [handleSubmit]. *)
Theorem submit_validation_returns `{JSHost} (st : PropStore)
    (sch : FormSchema) (rs : RendererState) :
  Forall (fun f => is_Some (st !! properties f)) (getAllFields (items sch)) ->
  Forall (PatternCompiles st) (getAllFields (items sch)) ->
  (exists res, submitValidation st sch (formValues rs) = Normal res)
  /\ (exists rs', handleSubmit st sch rs = Normal rs').
Proof.
  intros Hbags Hre.
  assert (Forall (fun f => is_Some (st !! properties f)
                          /\ PatternCompiles st f)
                 (getAllFields (items sch))) as Hboth.
  { rewrite Forall_forall in Hbags, Hre |- *. intros f Hf.
    split; [apply Hbags | apply Hre]; exact Hf. }
  assert (exists res, submitValidation st sch (formValues rs) = Normal res)
    as [res Hres].
  { unfold submitValidation, validateForm, tempSections. cbn [mapM fields].
    destruct (mapM_total
                (fun field =>
                   validateField st field (valueOf (formValues rs) (id field)))
                (getAllFields (items sch))) as [per Hper].
    - eapply Forall_impl; [exact Hboth|]. intros f [Hf Hpat]. cbn.
      destruct (validateField_returns st f (valueOf (formValues rs) (id f))
                  Hf Hpat) as [errs [Herrs _]].
      exists errs. exact Herrs.
    - rewrite Hper. cbn. eexists. reflexivity. }
  split; [exists res; exact Hres|].
  unfold handleSubmit. rewrite Hres. cbn.
  destruct (negb (isValid res)); eexists; reflexivity.
Qed.

Lemma submit_validation_returns_witness :
  exists res,
    submitValidation (H := strictHost) {[ 0%nat := letterPattern ]}
      (schemaOf [Field (textField "q1" "Name" true 0 0)])
      (formValues (mkRenderer {[ "q1" := JStr "ada" ]} ∅ false))
    = Normal res.
Proof.
  apply (submit_validation_returns (H := strictHost)
           {[ 0%nat := letterPattern ]}
           (schemaOf [Field (textField "q1" "Name" true 0 0)])
           (mkRenderer {[ "q1" := JStr "ada" ]} ∅ false)).
  - repeat constructor; eexists; reflexivity.
  - repeat constructor. intros p pat Hp Hrule _ s.
    vm_compute in Hp. injection Hp as <-.
    vm_compute in Hrule. injection Hrule as <-. discriminate.
Defined.

(** X7: one throwing check aborts the whole submission.  If the check of
    any one field throws (a pattern that does not compile, say), then
    [validateForm] throws, and so does [handleSubmit]: no error of any
    other field is recorded and the form is not marked submitted. *)
Theorem one_throw_aborts_submission `{JSHost} (st : PropStore)
    (sch : FormSchema) (rs : RendererState) (f : FormField) (e : JSError) :
  f ∈ getAllFields (items sch) ->
  validateField st f (valueOf (formValues rs) (id f)) = Throw e ->
  (exists e', submitValidation st sch (formValues rs) = Throw e')
  /\ (exists e', handleSubmit st sch rs = Throw e').
Proof.
  intros Hf Hthrow.
  assert (exists e', submitValidation st sch (formValues rs) = Throw e')
    as [e' He'].
  { unfold submitValidation, validateForm, tempSections. cbn [mapM fields].
    destruct (mapM_throws
                (fun field =>
                   validateField st field (valueOf (formValues rs) (id field)))
                _ f e Hf Hthrow) as [e' ->].
    exists e'. reflexivity. }
  split; [exists e'; exact He'|].
  unfold handleSubmit. rewrite He'. exists e'. reflexivity.
Qed.

Lemma one_throw_aborts_submission_witness :
  exists e',
    handleSubmit (H := strictHost) {[ 0%nat := badPattern ]}
      (schemaOf [Field (textField "b" "B" true 1 0); Field fieldA])
      (mkRenderer {[ "a" := JStr "x" ]} ∅ false)
    = Throw e'.
Proof.
  apply (one_throw_aborts_submission (H := strictHost) {[ 0%nat := badPattern ]}
           (schemaOf [Field (textField "b" "B" true 1 0); Field fieldA])
           (mkRenderer {[ "a" := JStr "x" ]} ∅ false) fieldA SyntaxError).
  - apply list_elem_of_further, list_elem_of_here.
  - reflexivity.
Defined.

Lemma not_blank_answered `{JSHost} (v : JSValue) :
  isBlank v = false -> answered v = true.
Proof.
  unfold isBlank. intros Hb. apply orb_false_iff in Hb as [Ht _].
  apply negb_false_iff in Ht. destruct v; cbn in *; try discriminate;
    try reflexivity. exact Ht.
Qed.

(** X8: a submission that validates was submit-ready.  Whenever the
    validation run by [handleSubmit] returns [isValid = true], every
    required field counts as answered, so [canSubmit] is true. *)
Theorem valid_submission_was_ready `{JSHost} (st : PropStore)
    (sch : FormSchema) (values : gmap string JSValue)
    (res : ValidationResult) :
  submitValidation st sch values = Normal res ->
  isValid res = true ->
  canSubmit sch values = true.
Proof.
  intros Hrun Hvalid.
  destruct (submitValidation_inv _ _ _ _ Hrun) as [per [Hper [_ Hlen]]].
  rewrite Hvalid in Hlen. symmetry in Hlen. apply Nat.eqb_eq in Hlen.
  apply length_zero_iff_nil in Hlen.
  apply mapM_Normal_inv in Hper.
  unfold canSubmit. apply forallb_forall. intros f Hin.
  apply list_elem_of_In, list_elem_of_filter in Hin as [Hreq Hf].
  revert Hlen Hf. induction Hper as [|x y l ys Hx _ IH]; intros Hlen Hf;
    [inversion Hf|].
  cbn in Hlen. apply app_eq_nil in Hlen as [-> Hrest].
  apply elem_of_cons in Hf as [->|Hf]; [|apply IH; assumption].
  unfold validateField in Hx. rewrite Hreq in Hx. cbn in Hx.
  destruct (isBlank (valueOf values (id x))) eqn:Hb; [discriminate|].
  apply not_blank_answered, Hb.
Qed.

Lemma valid_submission_was_ready_witness :
  canSubmit (schemaOf [Field (textField "q1" "Name" true 0 0)])
            {[ "q1" := JStr "Ada" ]} = true.
Proof.
  apply (valid_submission_was_ready (H := exampleHost) twoBags
           (schemaOf [Field (textField "q1" "Name" true 0 0)])
           {[ "q1" := JStr "Ada" ]} (mkResult true [])); reflexivity.
Defined.

(** X9: with [multiple] off, the picked file is not checked.  The file
    input then reports the first file itself, not an array, and
    [validateField] looks at files only inside a [FileList] or an array:
    whatever the accepted types and the size limit, a file-upload field
    whose value is that file gets no error. *)
Theorem single_file_is_not_checked `{JSHost} (st : PropStore)
    (f : FormField) (p : FieldProperties) (file : File) (others : list File) :
  type f = "file-upload" ->
  st !! properties f = Some p ->
  multiple p <> Some true ->
  validateField st f (fileInputValue (multiple p) (file :: others)) = Normal [].
Proof.
  intros Hty Hp Hmulti. unfold fileInputValue.
  destruct (multiple p) as [[]|]; try congruence; cbn;
    unfold validateField; rewrite andb_false_r; cbn; rewrite Hty; reflexivity.
Qed.

Lemma single_file_is_not_checked_witness :
  validateField (H := exampleHost) {[ 5%nat := pdfOnly ]} uploadField
    (fileInputValue (multiple pdfOnly) [mkFile "virus.exe" (JS.ofZ 999999)])
  = Normal [].
Proof.
  apply (single_file_is_not_checked (H := exampleHost) {[ 5%nat := pdfOnly ]}
           uploadField pdfOnly (mkFile "virus.exe" (JS.ofZ 999999)) []).
  - reflexivity.
  - reflexivity.
  - discriminate.
Defined.

(** The same file inside an array is checked. *)
Example file_in_array_is_checked :
  validateField (H := exampleHost) {[ 5%nat := pdfOnly ]} uploadField
    (JArr [JFile (mkFile "virus.exe" (JS.ofZ 999999))])
  = Normal [mkError "up" "Report accepts only .pdf files";
            mkError "up" "Report file size must be less than 0 Bytes"].
Proof. vm_compute. reflexivity. Qed.

Lemma toLowerAscii_dot (c : ascii) :
  Ascii.eqb (JS.toLowerAscii c) "."%char = Ascii.eqb c "."%char.
Proof. destruct c as [[] [] [] [] [] [] [] []]; reflexivity. Qed.

Lemma toLowerCaseASCII_rev_app (s acc : string) :
  JS.toLowerCaseASCII (String.rev_app s acc)
  = String.rev_app (JS.toLowerCaseASCII s) (JS.toLowerCaseASCII acc).
Proof.
  revert acc. induction s as [|c s IH]; intros acc; [reflexivity|].
  cbn. rewrite IH. reflexivity.
Qed.

(** Lower-casing commutes with taking the text after the last dot. *)
Lemma toLowerCaseASCII_lastSegment (acc s : string) :
  JS.toLowerCaseASCII (JS.lastSegment acc s)
  = JS.lastSegment (JS.toLowerCaseASCII acc) (JS.toLowerCaseASCII s).
Proof.
  revert acc. induction s as [|c s IH]; intros acc; cbn.
  - unfold String.rev. apply toLowerCaseASCII_rev_app.
  - rewrite toLowerAscii_dot. destruct (Ascii.eqb c "."); apply IH.
Qed.

Lemma isASCII_rev_app (s acc : string) :
  JS.isASCII s = true -> JS.isASCII acc = true ->
  JS.isASCII (String.rev_app s acc) = true.
Proof.
  revert acc. induction s as [|c s IH]; intros acc Hs Hacc; [exact Hacc|].
  cbn in Hs. apply andb_true_iff in Hs as [Hc Hs].
  cbn. apply IH; [exact Hs|]. cbn. rewrite Hc, Hacc. reflexivity.
Qed.

(** The text after the last dot of an ASCII name is ASCII. *)
Lemma isASCII_lastSegment (acc s : string) :
  JS.isASCII acc = true -> JS.isASCII s = true ->
  JS.isASCII (JS.lastSegment acc s) = true.
Proof.
  revert acc. induction s as [|c s IH]; intros acc Hacc Hs; cbn.
  - unfold String.rev. apply isASCII_rev_app; [exact Hacc | reflexivity].
  - cbn in Hs. apply andb_true_iff in Hs as [Hc Hs].
    destruct (Ascii.eqb c "."); apply IH; try exact Hs; try reflexivity.
    cbn. rewrite Hc, Hacc. reflexivity.
Qed.

(** X10: the accepted-type check does not see the case of an ASCII file
    name.  On a host that lower-cases ASCII strings the ASCII way, two
    files whose names are made of ASCII characters and differ only in the
    case of letters have the same extension for [validateField], so one is
    accepted exactly when the other is. *)
Theorem extension_ignores_case `{JSHost} (f1 f2 : File)
    (accepted : list string) :
  LowersASCII ->
  JS.isASCII (file_name f1) = true ->
  JS.isASCII (file_name f2) = true ->
  JS.toLowerCaseASCII (file_name f1) = JS.toLowerCaseASCII (file_name f2) ->
  extensionOf f1 = extensionOf f2
  /\ includes accepted (extensionOf f1) = includes accepted (extensionOf f2).
Proof.
  intros Hhost Hascii1 Hascii2 Hname.
  assert (extensionOf f1 = extensionOf f2) as Hext.
  { unfold extensionOf. f_equal.
    rewrite !Hhost by (apply isASCII_lastSegment; [reflexivity | assumption]).
    rewrite !(toLowerCaseASCII_lastSegment EmptyString).
    cbn [JS.toLowerCaseASCII]. rewrite Hname. reflexivity. }
  split; [exact Hext | rewrite Hext; reflexivity].
Qed.

Lemma extension_ignores_case_witness :
  extensionOf (H := exampleHost) (mkFile "Report.PDF" (JS.ofZ 1))
  = extensionOf (H := exampleHost) (mkFile "report.pdf" (JS.ofZ 2)).
Proof.
  apply (extension_ignores_case (H := exampleHost)
           (mkFile "Report.PDF" (JS.ofZ 1))
           (mkFile "report.pdf" (JS.ofZ 2)) []).
  - intros s _. reflexivity.
  - reflexivity.
  - reflexivity.
  - reflexivity.
Defined.

(** A name without a dot counts as its own extension. *)
Example extension_of_dotless_name :
  extensionOf (H := exampleHost) (mkFile "PDF" (JS.ofZ 1)) = ".pdf".
Proof. reflexivity. Qed.

(** ** The renderer's state *)

Lemma errorMapOf_snoc (errs : list ValidationError) (e : ValidationError) :
  errorMapOf (errs ++ [e])
  = assignText (errorMapOf errs) (fieldId e) (message e).
Proof. unfold errorMapOf. rewrite fold_left_app. reflexivity. Qed.

Lemma errorMapOf_lookup (errs : list ValidationError) (fid : string) :
  errorMapOf errs !! fid
  = if String.eqb fid "__proto__" then None
    else last (message <$> filter (fun e => fieldId e = fid) errs).
Proof.
  induction errs as [|e errs IH] using rev_ind.
  - destruct (String.eqb fid "__proto__"); reflexivity.
  - rewrite errorMapOf_snoc, filter_app, fmap_app. unfold assignText.
    destruct (decide (fieldId e = fid)) as [Heq|Hne].
    + rewrite Heq. destruct (String.eqb fid "__proto__") eqn:Hproto.
      * exact IH.
      * rewrite lookup_insert_eq, filter_cons_True by exact Heq.
        cbn. rewrite last_snoc. reflexivity.
    + rewrite filter_cons_False by exact Hne. cbn. rewrite app_nil_r.
      destruct (String.eqb (fieldId e) "__proto__"); [exact IH|].
      rewrite lookup_insert_ne by exact Hne. exact IH.
Qed.

(** X11: what a failed submission records.  When [handleSubmit] returns
    and the validation failed, the form is not marked submitted, the values
    are kept, and the error map holds for a field id the last error the
    validation reported for it (a field with several errors keeps only
    that one; a field without errors has no entry).  The one id that never
    gets an entry is [__proto__]: the assignment to that key does not
    create a property.  When the validation passed, the form is marked
    submitted and the error map is empty. *)
Theorem submit_outcome `{JSHost} (st : PropStore) (sch : FormSchema)
    (rs rs' : RendererState) :
  handleSubmit st sch rs = Normal rs' ->
  exists res,
    submitValidation st sch (formValues rs) = Normal res
    /\ formValues rs' = formValues rs
    /\ (isValid res = true ->
        isSubmitted rs' = true /\ validationErrors rs' = ∅)
    /\ (isValid res = false ->
        isSubmitted rs' = isSubmitted rs
        /\ forall fid,
            validationErrors rs' !! fid
            = if String.eqb fid "__proto__" then None
              else last (message <$>
                           filter (fun e => fieldId e = fid) (errors res))).
Proof.
  unfold handleSubmit. intros Hrun.
  destruct (submitValidation st sch (formValues rs)) as [res|e];
    cbn in Hrun; [|discriminate].
  exists res. split; [reflexivity|].
  destruct (isValid res) eqn:Hvalid; cbn in Hrun; injection Hrun as Hrs;
    subst rs'; cbn.
  - repeat split; congruence.
  - split; [reflexivity|]. split; [discriminate|]. intros _.
    split; [reflexivity|]. intros fid. apply errorMapOf_lookup.
Qed.

Lemma submit_outcome_witness :
  validationErrors
    (mkRenderer ∅ (errorMapOf [mkError "q1" "Name is required"]) false)
  !! "q1" = Some "Name is required".
Proof.
  assert (handleSubmit (H := exampleHost) ∅
            (schemaOf [Field (textField "q1" "Name" true 0 0)])
            (mkRenderer ∅ ∅ false)
          = Normal (mkRenderer ∅ (errorMapOf [mkError "q1" "Name is required"])
                               false)) as Hrun by reflexivity.
  destruct (submit_outcome (H := exampleHost) ∅
              (schemaOf [Field (textField "q1" "Name" true 0 0)])
              (mkRenderer ∅ ∅ false) _ Hrun)
    as [res [Hres [_ [_ Hfail]]]].
  injection Hres as <-. destruct (Hfail eq_refl) as [_ Herr].
  rewrite Herr. reflexivity.
Defined.

(** Editing a field after a failed submission drops the error of that
    field, unless its message is empty, and keeps those of the others. *)
Lemma updateValue_errors (fid other : string) (v : JSValue)
    (rs : RendererState) :
  (validationErrors rs !! fid <> Some "" ->
   validationErrors (updateValue fid v rs) !! fid = None)
  /\ (other <> fid ->
      validationErrors (updateValue fid v rs) !! other
      = validationErrors rs !! other)
  /\ valueOf (formValues (updateValue fid v rs)) fid = v.
Proof.
  unfold updateValue, valueOf. cbn. split; [|split].
  - intros Hmsg. rewrite bool_decide_eq_false_2 by exact Hmsg.
    apply lookup_delete_eq.
  - intros Hne. destruct (bool_decide _); [reflexivity|].
    apply lookup_delete_ne. congruence.
  - rewrite lookup_insert_eq. reflexivity.
Qed.

(** ** The order and numbering of the rendered questions *)

Lemma numberFrom_spec (n : nat) (fs : list FormField) :
  map fst (numberFrom n fs).1 = seq n (length fs)
  /\ map snd (numberFrom n fs).1 = fs
  /\ (numberFrom n fs).2 = (n + length fs)%nat.
Proof.
  revert n. induction fs as [|f fs IH]; intros n; cbn.
  - repeat split. lia.
  - destruct (IH (S n)) as [Hfst [Hsnd Hcnt]].
    destruct (numberFrom (S n) fs) as [numbered after]. cbn in *.
    rewrite Hfst, Hsnd, Hcnt. repeat split. lia.
Qed.

Lemma numberSections_spec (n : nat) (secs : list FormSection) :
  map fst (numberSections n secs) = seq n (length (flat_map fields secs))
  /\ map snd (numberSections n secs) = flat_map fields secs.
Proof.
  revert n. induction secs as [|s secs IH]; intros n; cbn; [split; reflexivity|].
  destruct (numberFrom_spec n (fields s)) as [Hfst [Hsnd Hcnt]].
  destruct (numberFrom n (fields s)) as [numbered after]. cbn in *.
  destruct (IH after) as [IHfst IHsnd].
  rewrite !map_app, Hfst, Hsnd, IHfst, IHsnd, Hcnt, length_app, seq_app.
  split; reflexivity.
Qed.

Lemma sectionsWithFields_fields (its : list FormItem) :
  flat_map fields (sectionsWithFields its)
  = flat_map (fun item =>
                match item with
                | Section s => fields s
                | Field _ => []
                end) its.
Proof.
  induction its as [|[f|s] its IH]; [reflexivity|exact IH|].
  change (sectionsWithFields (Section s :: its))
    with ((if (0 <? length (fields s))%nat then [s] else [])
          ++ sectionsWithFields its).
  rewrite flat_map_app, IH. cbn [flat_map].
  destruct (fields s) as [|g gs] eqn:Hs; cbn; [reflexivity|].
  rewrite Hs, app_nil_r. reflexivity.
Qed.

Lemma render_order_perm (its : list FormItem) :
  standaloneFields its ++ flat_map fields (sectionsWithFields its)
  ≡ₚ getAllFields its.
Proof.
  rewrite sectionsWithFields_fields.
  induction its as [|[f|s] its IH]; cbn; [reflexivity| |].
  - apply perm_skip, IH.
  - rewrite Permutation_app_swap_app. apply Permutation_app_head, IH.
Qed.

Lemma no_sections_flat (its : list FormItem) :
  sectionsWithFields its = [] -> standaloneFields its = getAllFields its.
Proof.
  induction its as [|[f|s] its IH]; cbn; intros Hnone; [reflexivity| |].
  - f_equal. apply IH, Hnone.
  - change (sectionsWithFields (Section s :: its))
      with ((if (0 <? length (fields s))%nat then [s] else [])
            ++ sectionsWithFields its) in Hnone.
    apply app_eq_nil in Hnone as [Hs Hrest].
    destruct (fields s) as [|g gs]; [|discriminate]. cbn. apply IH, Hrest.
Qed.

(** X12: every field is shown once, and the question numbers run from 1
    without a gap.  The renderer shows the standalone fields first and then
    the fields of the sections, so the fields shown are those of the schema
    up to their order, numbered 1, 2, ..., n in the order shown; when no
    section has a field (the flat layout) the order shown is the document
    order. *)
Theorem rendered_questions_numbering (its : list FormItem) :
  map snd (renderedQuestions its)
  = standaloneFields its ++ flat_map fields (sectionsWithFields its)
  /\ map snd (renderedQuestions its) ≡ₚ getAllFields its
  /\ map fst (renderedQuestions its) = seq 1 (length (getAllFields its))
  /\ (hasAnySections its = false ->
      map snd (renderedQuestions its) = getAllFields its).
Proof.
  assert (map snd (renderedQuestions its)
          = standaloneFields its ++ flat_map fields (sectionsWithFields its)
          /\ map fst (renderedQuestions its)
             = seq 1 (length (standaloneFields its
                              ++ flat_map fields (sectionsWithFields its))))
    as [Hsnd Hfst].
  { unfold renderedQuestions.
    destruct (numberFrom_spec 1 (standaloneFields its)) as [Hf [Hs Hc]].
    destruct (numberFrom 1 (standaloneFields its)) as [standalone counter].
    cbn in *.
    destruct (numberSections_spec counter (sectionsWithFields its)) as [Gf Gs].
    rewrite !map_app, Hf, Hs, Gf, Gs, Hc, length_app, seq_app.
    split; reflexivity. }
  split; [exact Hsnd|]. split; [rewrite Hsnd; apply render_order_perm|].
  split.
  - rewrite Hfst. f_equal. apply Permutation_length, render_order_perm.
  - intros Hflat. rewrite Hsnd. unfold hasAnySections in Hflat.
    destruct (sectionsWithFields its) as [|s secs] eqn:Hsecs; [|discriminate].
    cbn. rewrite app_nil_r. apply no_sections_flat, Hsecs.
Qed.

Lemma rendered_questions_numbering_witness :
  map snd (renderedQuestions
             [Section (emptySection "s" 0); Field fieldA; Field fieldB])
  = getAllFields [Section (emptySection "s" 0); Field fieldA; Field fieldB].
Proof.
  apply (rendered_questions_numbering
           [Section (emptySection "s" 0); Field fieldA; Field fieldB]).
  reflexivity.
Defined.

(** In the sectioned layout the order shown can differ from the document
    order: a standalone field placed after a section is shown before it. *)
Example sectioned_layout_reorders :
  map (fun q => (q.1, id q.2))
      (renderedQuestions [Section (mkSection "s" "S" None [fieldB] 0);
                          Field fieldA])
  = [(1%nat, "a"); (2%nat, "b")].
Proof. reflexivity. Qed.

(** ** Where insertions and moves land *)

Lemma spliceStart_in_range (len : nat) (p : Z) :
  0 <= p <= Z.of_nat len -> spliceStart len p = Z.to_nat p.
Proof.
  intros Hp. unfold spliceStart.
  destruct (Z.ltb_spec p 0); [lia|]. lia.
Qed.

Lemma spliceInsert_lands {A} (p : Z) (x : A) (l : list A) :
  0 <= p <= Z.of_nat (length l) ->
  spliceInsert p x l !! Z.to_nat p = Some x
  /\ delete (Z.to_nat p) (spliceInsert p x l) = l.
Proof.
  intros Hp. unfold spliceInsert. rewrite spliceStart_in_range by exact Hp.
  assert (Z.to_nat p <= length l)%nat as Hle by lia.
  split; [apply lookup_inserted_at, Hle|].
  rewrite <- (length_take_le l (Z.to_nat p) Hle) at 1.
  rewrite delete_middle. apply take_drop.
Qed.

Lemma renumberItems_item_ids (its : list FormItem) :
  item_id <$> renumberItems its = item_id <$> its.
Proof.
  apply (map_imap_invariant item_id). intros i [f|s]; reflexivity.
Qed.

(** X13: an inserted field lands where it was asked to.  When
    [handleAddField] returns for a position within the target list (the
    end of the list when no position is given), the new field sits at that
    index with that [order], and taking it out again leaves the ids of the
    list as they were, in their old order; this holds for the main area and
    for a section. *)
Theorem add_field_lands_at_position (newId fieldType : string)
    (targetId : option string) (position : option Z) (ed ed' : Editor) :
  handleAddField newId fieldType targetId position ed = Normal ed' ->
  (given targetId = None ->
   let p := default (Z.of_nat (length (items (schema ed)))) position in
   0 <= p <= Z.of_nat (length (items (schema ed))) ->
   exists nf,
     items (schema ed') !! Z.to_nat p = Some (Field nf)
     /\ id nf = newId /\ order nf = p /\ type nf = fieldType
     /\ item_id <$> delete (Z.to_nat p) (items (schema ed'))
        = item_id <$> items (schema ed))
  /\ (forall sid k s,
         given targetId = Some sid ->
         findIndex (isSectionWithId sid) (items (schema ed)) = Z.of_nat k ->
         items (schema ed) !! k = Some (Section s) ->
         let p := default (Z.of_nat (length (fields s))) position in
         0 <= p <= Z.of_nat (length (fields s)) ->
         exists s' nf,
           items (schema ed') !! k = Some (Section s')
           /\ fields s' !! Z.to_nat p = Some nf
           /\ id nf = newId /\ order nf = p /\ type nf = fieldType
           /\ id <$> delete (Z.to_nat p) (fields s') = id <$> fields s).
Proof.
  unfold handleAddField. intros Hrun.
  unfold createDefaultField in Hrun.
  destruct (FIELD_TYPES_label fieldType) as [lbl|]; [|discriminate].
  cbn in Hrun. injection Hrun as <-. cbn [items schema setItems].
  unfold insertAt. split.
  - intros -> Hp.
    set (p := default (Z.of_nat (length (items (schema ed)))) position) in *.
    destruct (spliceInsert_lands p
                (Field (mkField newId fieldType lbl (Some "") false false
                                (fresh (dom (store ed))) 0))
                (items (schema ed)) Hp) as [Hat Hdel].
    eexists. unfold renumberItems. rewrite list_lookup_imap, Hat. cbn.
    repeat split; [cbn; lia|].
    rewrite list_fmap_delete.
    change (imap (fun i item => setItemOrder item (Z.of_nat i)) ?l)
      with (renumberItems l).
    rewrite renumberItems_item_ids, <- list_fmap_delete, Hdel. reflexivity.
  - intros sid k s -> Hk Hs Hp.
    rewrite Hk, (onSectionAt_section _ _ _ _ Hs).
    destruct (spliceInsert_lands
                (default (Z.of_nat (length (fields s))) position)
                (mkField newId fieldType lbl (Some "") false false
                         (fresh (dom (store ed))) 0)
                (fields s) Hp) as [Hat Hdel].
    eexists _, _.
    rewrite list_lookup_insert_eq by (apply lookup_lt_Some in Hs; exact Hs).
    split; [reflexivity|]. cbn [fields setFields].
    rewrite renumberFields_lookup, Hat. cbn.
    repeat split; [cbn; lia|].
    rewrite list_fmap_delete.
    change (id <$> renumberFields ?l) with (map id (renumberFields l)).
    rewrite renumberFields_ids.
    change (map id ?l) with (id <$> l).
    rewrite <- list_fmap_delete, Hdel. reflexivity.
Qed.

Lemma add_field_lands_at_position_witness :
  exists ed' nf,
    handleAddField "n" "number" None
      (Some (Z.of_nat (getDropZonePosition threeFields 25 threeRects None)))
      (editorOf twoBags threeFields) = Normal ed'
    /\ items (schema ed') !! 1%nat = Some (Field nf)
    /\ id nf = "n" /\ order nf = 1.
Proof.
  eexists.
  assert (handleAddField "n" "number" None
            (Some (Z.of_nat (getDropZonePosition threeFields 25 threeRects None)))
            (editorOf twoBags threeFields)
          = Normal
              (mkEditor
                 (<[fresh (dom twoBags) := defaultProperties "number" "Number"]>
                    twoBags)
                 (setItems (schemaOf threeFields)
                    (insertAt None (Some 1)
                       (mkField "n" "number" "Number" (Some "") false false
                                (fresh (dom twoBags)) 0) threeFields))
                 (Some "n") ∅)) as Hrun by reflexivity.
  destruct (proj1 (add_field_lands_at_position _ _ _ _ _ _ Hrun) eq_refl)
    as [nf [Hat [Hid [Hord _]]]].
  - change (0 <= 1 <= 3). lia.
  - exists nf. split; [exact Hrun|]. repeat split; assumption.
Defined.

Lemma findIndexFrom_first {A} (p : A -> bool) (l : list A) (i0 : Z) (k : nat) :
  0 <= i0 ->
  findIndexFrom p l i0 = i0 + Z.of_nat k ->
  exists x, l !! k = Some x /\ p x = true
            /\ Forall (fun a => p a = false) (take k l).
Proof.
  revert i0 k. induction l as [|a l IH]; intros i0 k Hi0 Hk; cbn in Hk; [lia|].
  destruct (p a) eqn:Hpa.
  - assert (k = 0%nat) as -> by lia. exists a. repeat split; [exact Hpa|].
    constructor.
  - destruct (findIndexFrom_cases p l (i0 + 1)) as [[Hm _]|[k' [y [Hk' _]]]];
      [lia|].
    assert (k = S k') as -> by lia.
    destruct (IH (i0 + 1) k' ltac:(lia) Hk') as [x [Hx [Hpx Hall]]].
    exists x. repeat split; [exact Hx | exact Hpx |].
    cbn. constructor; assumption.
Qed.

Lemma findIndex_first {A} (p : A -> bool) (l : list A) (k : nat) :
  findIndex p l = Z.of_nat k ->
  exists x, l !! k = Some x /\ p x = true
            /\ Forall (fun a => p a = false) (take k l).
Proof. intros Hk. apply (findIndexFrom_first p l 0 k); [lia | exact Hk]. Qed.

Lemma moveItem_lands (i : nat) (p : Z) (x : FormItem) (its : list FormItem) :
  its !! i = Some x ->
  0 <= p ->
  let m := Z.to_nat (Z.min p (Z.of_nat (length its) - 1)) in
  moveItem (Z.of_nat i) p its !! m = Some (setItemOrder x (Z.of_nat m))
  /\ item_id <$> delete m (moveItem (Z.of_nat i) p its)
     = item_id <$> delete i its.
Proof.
  intros Hi Hp m.
  assert (i < length its)%nat as Hlt by (apply lookup_lt_Some in Hi; exact Hi).
  unfold moveItem. rewrite spliceStart_nat.
  replace (Nat.min i (length its)) with i by lia. rewrite Hi.
  rewrite spliceRemove_nat, <- delete_take_drop by exact Hlt.
  assert (length (delete i its) = (length its - 1)%nat) as Hlen.
  { rewrite length_delete by (eexists; exact Hi). lia. }
  unfold spliceInsert. rewrite Hlen.
  assert (spliceStart (length its - 1) p = m) as ->.
  { unfold spliceStart, m. destruct (Z.ltb_spec p 0); lia. }
  assert (m <= length (delete i its))%nat as Hm by (rewrite Hlen; unfold m; lia).
  split.
  - unfold renumberItems. rewrite list_lookup_imap.
    rewrite lookup_inserted_at by exact Hm. reflexivity.
  - rewrite list_fmap_delete, renumberItems_item_ids, <- list_fmap_delete.
    rewrite <- (length_take_le _ _ Hm) at 1.
    rewrite delete_middle, take_drop. reflexivity.
Qed.

(** X14: where a moved section lands.  [handleReorderSection] takes its
    position as an index into [schema.items], fields included.  For a
    section of the schema and a position [p >= 0], the section ends at index
    [min p (length - 1)] with that [order] and its fields as they were, and
    the other items keep their relative order.  The dialog handler does the
    same. *)
Theorem section_move_lands (ed : Editor) (sid : string) (p : Z) :
  Exists (fun item => isSectionWithId sid item = true) (items (schema ed)) ->
  0 <= p ->
  let its := items (schema ed) in
  let its' := items (schema (handleReorderSection sid (Some p) ed)) in
  let m := Z.to_nat (Z.min p (Z.of_nat (length its) - 1)) in
  exists i s,
    findIndex (isSectionWithId sid) its = Z.of_nat i
    /\ its !! i = Some (Section s)
    /\ section_id s = sid
    /\ its' !! m
       = Some (Section (mkSection sid (title s) (section_description s)
                                  (fields s) (Z.of_nat m)))
    /\ item_id <$> delete m its' = item_id <$> delete i its
    /\ handleDialogSectionReorder sid (Some p) ed
       = handleReorderSection sid (Some p) ed.
Proof.
  intros Hex Hp its its' m. subst its its' m.
  destruct (findIndex_found _ _ Hex) as [i [x [Hi [Hx Hpx]]]].
  destruct (isSectionWithId_inv _ _ Hpx) as [s [-> Hsid]].
  exists i, s. split; [exact Hi|]. split; [exact Hx|]. split; [exact Hsid|].
  unfold handleReorderSection, handleDialogSectionReorder. rewrite Hi.
  replace (0 <=? Z.of_nat i) with true by (symmetry; apply Z.leb_le; lia).
  replace (negb (Z.of_nat i =? -1)) with true
    by (symmetry; apply negb_true_iff, Z.eqb_neq; lia).
  rewrite items_withItems.
  destruct (moveItem_lands i p _ _ Hx Hp) as [Hat Hothers].
  split; [rewrite Hat, <- Hsid; reflexivity|].
  split; [exact Hothers | reflexivity].
Qed.

Lemma section_move_lands_witness :
  exists s',
    items (schema (handleReorderSection "s0" (Some 5)
                     (editorOf ∅ threeSections))) !! 2%nat
    = Some (Section s')
    /\ section_id s' = "s0" /\ section_order s' = 2.
Proof.
  destruct (section_move_lands (editorOf ∅ threeSections) "s0" 5)
    as [i [s [_ [_ [_ [Hat _]]]]]].
  - left. reflexivity.
  - lia.
  - eexists. split; [exact Hat|]. split; reflexivity.
Defined.

(** ** Moving a section up and back down *)

Lemma eraseOrder_setItemOrder (item : FormItem) (o : Z) :
  eraseOrder (setItemOrder item o) = eraseOrder item.
Proof. destruct item as [f|s]; reflexivity. Qed.

Lemma setItemOrder_erase (item : FormItem) (o : Z) :
  setItemOrder (eraseOrder item) o = setItemOrder item o.
Proof. destruct item as [f|s]; reflexivity. Qed.

Lemma renumberItems_erase (its : list FormItem) :
  eraseOrder <$> renumberItems its = eraseOrder <$> its.
Proof.
  apply (map_imap_invariant eraseOrder). intros i item.
  apply eraseOrder_setItemOrder.
Qed.

Lemma renumberItems_ext (l l' : list FormItem) :
  eraseOrder <$> l = eraseOrder <$> l' -> renumberItems l = renumberItems l'.
Proof.
  intros Heq. apply list_eq. intros k. unfold renumberItems.
  rewrite !list_lookup_imap.
  assert ((eraseOrder <$> l) !! k = (eraseOrder <$> l') !! k) as Hk
    by (rewrite Heq; reflexivity).
  rewrite !list_lookup_fmap in Hk.
  destruct (l !! k) as [a|], (l' !! k) as [b|]; cbn in *; try discriminate;
    [|reflexivity].
  injection Hk as Hk. rewrite <- (setItemOrder_erase a), Hk, setItemOrder_erase.
  reflexivity.
Qed.

Lemma spliceInsert_fmap {A B} (h : A -> B) (p : Z) (x : A) (l : list A) :
  h <$> spliceInsert p x l = spliceInsert p (h x) (h <$> l).
Proof.
  unfold spliceInsert. rewrite length_fmap, fmap_app, fmap_take.
  cbn. rewrite fmap_drop. reflexivity.
Qed.

Lemma spliceRemove_fmap {A B} (h : A -> B) (p : Z) (l : list A) :
  h <$> spliceRemove p l = spliceRemove p (h <$> l).
Proof.
  unfold spliceRemove. rewrite length_fmap, fmap_app, fmap_take, fmap_drop.
  reflexivity.
Qed.

Lemma spliceInsert_app {A} (l1 l2 : list A) (x : A) :
  spliceInsert (Z.of_nat (length l1)) x (l1 ++ l2) = l1 ++ x :: l2.
Proof.
  unfold spliceInsert. rewrite spliceStart_nat, length_app.
  replace (Nat.min (length l1) (length l1 + length l2)) with (length l1) by lia.
  rewrite take_app_length, drop_app_length. reflexivity.
Qed.

Lemma spliceRemove_app {A} (l1 l2 : list A) (x : A) :
  spliceRemove (Z.of_nat (length l1)) (l1 ++ x :: l2) = l1 ++ l2.
Proof.
  rewrite spliceRemove_nat by (rewrite length_app; cbn; lia).
  rewrite take_app_length.
  change (l1 ++ x :: l2) with (l1 ++ [x] ++ l2). rewrite app_assoc.
  replace (S (length l1)) with (length (l1 ++ [x]))
    by (rewrite length_app; cbn; lia).
  rewrite drop_app_length. reflexivity.
Qed.

Lemma swap_up {A} (l1 l2 : list A) (y x : A) :
  spliceInsert (Z.of_nat (length l1)) x
    (spliceRemove (Z.of_nat (S (length l1))) (l1 ++ y :: x :: l2))
  = l1 ++ x :: y :: l2.
Proof.
  change (l1 ++ y :: x :: l2) with (l1 ++ [y] ++ x :: l2). rewrite app_assoc.
  replace (S (length l1)) with (length (l1 ++ [y]))
    by (rewrite length_app; cbn; lia).
  rewrite spliceRemove_app, <- app_assoc. apply spliceInsert_app.
Qed.

Lemma swap_down {A} (l1 l2 : list A) (y x : A) :
  spliceInsert (Z.of_nat (S (length l1))) x
    (spliceRemove (Z.of_nat (length l1)) (l1 ++ x :: y :: l2))
  = l1 ++ y :: x :: l2.
Proof.
  rewrite spliceRemove_app.
  change (l1 ++ y :: l2) with (l1 ++ [y] ++ l2). rewrite app_assoc.
  replace (S (length l1)) with (length (l1 ++ [y]))
    by (rewrite length_app; cbn; lia).
  rewrite spliceInsert_app, <- app_assoc. reflexivity.
Qed.

Lemma findIndexFrom_fmap {A B} (h : A -> B) (q : B -> bool) (p : A -> bool)
    (l : list A) (i0 : Z) :
  (forall a, q (h a) = p a) ->
  findIndexFrom q (h <$> l) i0 = findIndexFrom p l i0.
Proof.
  intros Hq. revert i0. induction l as [|a l IH]; intros i0; [reflexivity|].
  cbn. rewrite Hq. destruct (p a); [reflexivity | apply IH].
Qed.

Lemma isSectionWithId_erase (sid : string) (item : FormItem) :
  isSectionWithId sid (eraseOrder item) = isSectionWithId sid item.
Proof. destruct item as [f|s]; reflexivity. Qed.

Lemma findIndex_renumberItems (sid : string) (its : list FormItem) :
  findIndex (isSectionWithId sid) (renumberItems its)
  = findIndex (isSectionWithId sid) its.
Proof.
  unfold findIndex.
  rewrite <- (findIndexFrom_fmap eraseOrder (isSectionWithId sid) _
                (renumberItems its)) by apply isSectionWithId_erase.
  rewrite renumberItems_erase.
  apply findIndexFrom_fmap, isSectionWithId_erase.
Qed.

Lemma findIndexFrom_app_first {A} (p : A -> bool) (l1 l2 : list A) (x : A)
    (i0 : Z) :
  Forall (fun a => p a = false) l1 ->
  p x = true ->
  findIndexFrom p (l1 ++ x :: l2) i0 = i0 + Z.of_nat (length l1).
Proof.
  intros Hall Hx. revert i0.
  induction Hall as [|a l1 Ha _ IH]; intros i0; cbn.
  - rewrite Hx. lia.
  - rewrite Ha, IH. lia.
Qed.

Lemma withItems_same (ed : Editor) :
  withItems ed (items (schema ed)) = ed.
Proof. destruct ed as [st [? ? ? ? ? ?] sel op]. reflexivity. Qed.

Lemma withItems_twice (ed : Editor) (l l' : list FormItem) :
  withItems (withItems ed l) l' = withItems ed l'.
Proof. reflexivity. Qed.

(** X15: moving a section up and then down restores the schema.  For a
    section that is not the first item of a densely ordered root,
    [handleMoveSectionDown] after [handleMoveSectionUp] gives back the
    editor state it started from. *)
Theorem move_section_up_then_down (ed : Editor) (sid : string) (i : nat) :
  findIndex (isSectionWithId sid) (items (schema ed)) = Z.of_nat (S i) ->
  denseItems (items (schema ed)) = true ->
  handleMoveSectionDown sid (handleMoveSectionUp sid ed) = ed.
Proof.
  intros Hfind Hdense.
  destruct (findIndex_first _ _ _ Hfind) as [x [Hx [Hpx Hbefore]]].
  assert (S i < length (items (schema ed)))%nat as Hlt
    by (apply lookup_lt_Some in Hx; exact Hx).
  destruct (lookup_lt_is_Some_2 (items (schema ed)) i ltac:(lia)) as [y Hy].
  set (l1 := take i (items (schema ed))).
  set (l2 := drop (S (S i)) (items (schema ed))).
  assert (length l1 = i) as Hl1 by (unfold l1; rewrite length_take; lia).
  assert (items (schema ed) = l1 ++ y :: x :: l2) as Hsplit.
  { unfold l1, l2. rewrite <- (take_drop i (items (schema ed))) at 1.
    rewrite (drop_S _ _ _ Hy), (drop_S _ _ _ Hx). reflexivity. }
  assert (Forall (fun a => isSectionWithId sid a = false) l1) as Hl1none.
  { rewrite Hsplit in Hbefore.
    replace (S i) with (length (l1 ++ [y])) in Hbefore
      by (rewrite length_app; cbn; lia).
    change (l1 ++ y :: x :: l2) with (l1 ++ [y] ++ x :: l2) in Hbefore.
    rewrite app_assoc, take_app_length in Hbefore.
    apply Forall_app in Hbefore. apply Hbefore. }
  (* the move up *)
  assert (items (schema (handleMoveSectionUp sid ed))
          = renumberItems (l1 ++ x :: y :: l2)) as Hup.
  { unfold handleMoveSectionUp. rewrite Hfind.
    replace (0 <? Z.of_nat (S i)) with true by (symmetry; apply Z.ltb_lt; lia).
    rewrite items_withItems. unfold moveItem.
    rewrite spliceStart_nat.
    replace (Nat.min (S i) (length (items (schema ed)))) with (S i) by lia.
    rewrite Hx. replace (Z.of_nat (S i) - 1) with (Z.of_nat (length l1)) by lia.
    rewrite Hsplit. rewrite <- Hl1 at 1. rewrite swap_up. reflexivity. }
  assert (handleMoveSectionUp sid ed
          = withItems ed (renumberItems (l1 ++ x :: y :: l2))) as Hed1.
  { rewrite <- Hup. unfold handleMoveSectionUp. rewrite Hfind.
    replace (0 <? Z.of_nat (S i)) with true by (symmetry; apply Z.ltb_lt; lia).
    reflexivity. }
  rewrite Hed1. unfold handleMoveSectionDown. rewrite items_withItems.
  rewrite findIndex_renumberItems. unfold findIndex.
  rewrite (findIndexFrom_app_first _ _ _ _ _ Hl1none Hpx), Z.add_0_l, Hl1.
  assert (length (renumberItems (l1 ++ x :: y :: l2))
          = length (items (schema ed))) as Hlen.
  { unfold renumberItems. rewrite length_imap, Hsplit, !length_app. reflexivity. }
  rewrite Hlen.
  replace (Z.of_nat i <? Z.of_nat (length (items (schema ed))) - 1) with true
    by (symmetry; apply Z.ltb_lt; lia).
  rewrite withItems_twice. rewrite <- (withItems_same ed) at 2. f_equal.
  unfold moveItem. rewrite spliceStart_nat, Hlen.
  replace (Nat.min i (length (items (schema ed)))) with i by lia.
  assert (renumberItems (l1 ++ x :: y :: l2) !! i
          = Some (setItemOrder x (Z.of_nat i))) as Hx1.
  { unfold renumberItems. rewrite list_lookup_imap.
    rewrite <- Hl1 at 1. rewrite list_lookup_middle by reflexivity.
    reflexivity. }
  rewrite Hx1. rewrite <- (renumberItems_dense_id _ Hdense) at 1.
  apply renumberItems_ext.
  rewrite spliceInsert_fmap, spliceRemove_fmap, renumberItems_erase.
  rewrite eraseOrder_setItemOrder, Hsplit, !fmap_app. cbn [fmap list_fmap].
  replace (Z.of_nat i) with (Z.of_nat (length (eraseOrder <$> l1)))
    by (rewrite length_fmap, Hl1; reflexivity).
  replace (Z.of_nat (length (eraseOrder <$> l1)) + 1)
    with (Z.of_nat (S (length (eraseOrder <$> l1)))) by lia.
  apply swap_down.
Qed.

Lemma move_section_up_then_down_witness :
  handleMoveSectionDown "s1" (handleMoveSectionUp "s1" (editorOf ∅ threeSections))
  = editorOf ∅ threeSections.
Proof.
  apply (move_section_up_then_down (editorOf ∅ threeSections) "s1" 0);
    reflexivity.
Defined.

(** ** Sections added and deleted, fields appended *)

(** X16: deleting a section deletes its fields with it and nothing else.
    For a section of the schema, the ids before [handleDeleteSection] are
    the section's id and the ids of its fields together with the ids
    after; the other items keep their order, the root is re-numbered, and
    the selection is left as it was (also when the selected field was in
    the section). *)
Theorem delete_section_removes_its_fields (ed : Editor) (sid : string) :
  Exists (fun item => isSectionWithId sid item = true) (items (schema ed)) ->
  let its := items (schema ed) in
  let its' := items (schema (handleDeleteSection sid ed)) in
  exists k s,
    its !! k = Some (Section s)
    /\ section_id s = sid
    /\ (sid :: map id (fields s)) ++ documentIds its' ≡ₚ documentIds its
    /\ item_id <$> its' = item_id <$> delete k its
    /\ denseItems its' = true
    /\ selectedField (handleDeleteSection sid ed) = selectedField ed.
Proof.
  intros Hex its its'. subst its its'.
  destruct (findIndex_found _ _ Hex) as [k [x [Hk [Hx Hpx]]]].
  destruct (isSectionWithId_inv _ _ Hpx) as [s [-> Hsid]].
  exists k, s. split; [exact Hx|]. split; [exact Hsid|].
  unfold handleDeleteSection. rewrite Hk.
  replace (0 <=? Z.of_nat k) with true by (symmetry; apply Z.leb_le; lia).
  rewrite items_withItems, documentIds_renumberItems, renumberItems_item_ids.
  split; [|split; [|split; [apply renumberItems_dense | reflexivity]]].
  - rewrite <- Hsid. apply (documentIds_spliceRemove _ (Section s) _ Hx).
  - rewrite spliceRemove_nat by (apply lookup_lt_Some in Hx; exact Hx).
    rewrite delete_take_drop. reflexivity.
Qed.

Lemma delete_section_removes_its_fields_witness :
  exists k s,
    mixedItems !! k = Some (Section s)
    /\ ("s" :: map id (fields s))
       ++ documentIds
            (items (schema (handleDeleteSection "s" (editorOf twoBags mixedItems))))
       ≡ₚ documentIds mixedItems.
Proof.
  destruct (delete_section_removes_its_fields (editorOf twoBags mixedItems) "s")
    as [k [s [Hk [_ [Hperm _]]]]].
  - right. left. reflexivity.
  - exists k, s. split; assumption.
Defined.

(** X17: appending keeps the invariants.  A field added from the palette
    by a click ([handleFieldAdd]) and a section added by the button
    ([handleAddSection]) go to the end of [schema.items] with [order] the
    old length: the ids afterwards are the old ids followed by the new one,
    and a densely ordered schema stays densely ordered.  The new field is
    selected and [updatedAt] is stamped; the new section is open and no
    field changes. *)
Theorem appending_keeps_invariants (newId : string) (ed : Editor) :
  (forall fieldType now ed',
      handleFieldAdd newId fieldType now ed = Normal ed' ->
      documentIds (items (schema ed'))
      = documentIds (items (schema ed)) ++ [newId]
      /\ (orderDense (items (schema ed)) = true ->
          orderDense (items (schema ed')) = true)
      /\ selectedField ed' = Some newId
      /\ updatedAt (schema ed') = now)
  /\ documentIds (items (schema (handleAddSection newId ed)))
     = documentIds (items (schema ed)) ++ [newId]
  /\ (orderDense (items (schema ed)) = true ->
      orderDense (items (schema (handleAddSection newId ed))) = true)
  /\ getAllFields (items (schema (handleAddSection newId ed)))
     = getAllFields (items (schema ed))
  /\ openSections (handleAddSection newId ed) !! newId = Some true.
Proof.
  split; [|split; [|split; [|split]]].
  - intros fieldType now ed' Hrun. unfold handleFieldAdd in Hrun.
    destruct (createDefaultField fieldType) as [body|e]; [|discriminate].
    injection Hrun as <-. cbn [items schema selectedField updatedAt].
    split; [apply documentIds_app|]. split; [|split; reflexivity].
    intros Hdense. apply orderDense_split in Hdense as [Hroot Hsec].
    apply orderDense_split. split.
    + rewrite denseItems_spec in Hroot |- *. intros k item Hk.
      apply lookup_app_Some in Hk as [Hk|[Hge Hk]]; [apply (Hroot _ _ Hk)|].
      apply list_lookup_singleton_Some in Hk as [Hk <-]. cbn. lia.
    + apply Forall_app. split; [exact Hsec|]. repeat constructor.
  - unfold handleAddSection. cbn [items schema setItems]. apply documentIds_app.
  - apply add_section_keeps_order_density.
  - unfold handleAddSection. cbn [items schema setItems].
    unfold getAllFields. rewrite flat_map_app. cbn. apply app_nil_r.
  - unfold handleAddSection. cbn. apply lookup_insert_eq.
Qed.

Lemma appending_keeps_invariants_witness :
  orderDense
    (items (schema (handleAddSection "t" (editorOf ∅ threeSections)))) = true.
Proof.
  apply (appending_keeps_invariants "t" (editorOf ∅ threeSections)).
  reflexivity.
Defined.

(** ** Dropdown options *)

(** X18: a dragged dropdown option always goes to the front.  The drag data
    built by [handleOptionDragStart] has no [toIndex], the reducer reads
    [toIndex] from that data and not from the drop position, and
    [splice(undefined, 0, x)] inserts at index 0: for an option in range,
    whatever index it is dropped at, the new list is that option followed
    by the others in their old order. *)
Theorem dragged_option_goes_first (opts : list DropdownOption) (i : nat)
    (o : DropdownOption) (fieldId : string) (dropPosition : option Z) :
  opts !! i = Some o ->
  optionDropReducer "dropdown-option" (optionDragData (Z.of_nat i) fieldId)
                    dropPosition (Some opts)
  = NewOptions (Some <$> o :: delete i opts).
Proof.
  intros Hi. unfold optionDropReducer, optionDragData. cbn.
  assert (i < length opts)%nat as Hlt by (apply lookup_lt_Some in Hi; exact Hi).
  rewrite spliceStart_nat, length_fmap.
  replace (Nat.min i (length opts)) with i by lia.
  rewrite list_lookup_fmap, Hi. cbn.
  rewrite spliceRemove_nat by (rewrite length_fmap; exact Hlt).
  rewrite <- delete_take_drop, <- list_fmap_delete.
  replace (Z.to_nat (0 `min` Z.of_nat (length (Some <$> delete i opts))))
    with 0%nat by lia.
  reflexivity.
Qed.

Lemma dragged_option_goes_first_witness :
  optionDropReducer "dropdown-option" (optionDragData 1 "f") (Some 2)
                    (Some twoOptions)
  = NewOptions [Some (mkOption "2" "Option 2" "option2");
                Some (mkOption "1" "Option 1" "option1")].
Proof.
  apply (dragged_option_goes_first twoOptions 1
           (mkOption "2" "Option 2" "option2") "f" (Some 2)).
  reflexivity.
Defined.

(** ** Auto-scroll *)

Lemma scroll_amount_range (d : Q) :
  (0 <= d)%Q -> (d < 80)%Q ->
  (1 <= Qmax 1 (8 * (1 - d / 80)) /\ Qmax 1 (8 * (1 - d / 80)) <= 8)%Q.
Proof.
  intros H0 H80. unfold Qdiv. change (/ 80)%Q with (1 # 80)%Q.
  destruct (Q.max_spec 1 (8 * (1 - d * (1 # 80)))) as [[Hlt Heq]|[Hle Heq]];
    rewrite Heq; split; lra.
Qed.

(** X19: the canvas auto-scroll stays within the scroll range and always
    moves.  For a container whose [scrollTop] lies between 0 and
    [scrollHeight - clientHeight], whenever [handleGlobalDragOver] requests
    a frame, the value written lies in the same range and differs from the
    old one by more than 0 and at most [scrollSpeed = 8], upwards or
    downwards; without a drag in progress no frame is requested. *)
Theorem canvas_auto_scroll_in_range (clientY : Q) (c : ScrollBox) (t : Q) :
  (0 <= scrollTop c)%Q ->
  (scrollTop c <= maxScroll c)%Q ->
  canvasAutoScroll true clientY c = Some t ->
  (0 <= t /\ t <= maxScroll c)%Q
  /\ ((t < scrollTop c /\ scrollTop c - 8 <= t)%Q
      \/ (scrollTop c < t /\ t <= scrollTop c + 8)%Q)
  /\ canvasAutoScroll false clientY c = None.
Proof.
  intros Hlo Hhi. unfold canvasAutoScroll. cbn [negb].
  destruct (Qle_bool (box_top c) clientY) eqn:Htop; [|discriminate].
  destruct (Qle_bool clientY (box_bottom c)) eqn:Hbot; [|discriminate].
  apply Qle_bool_iff in Htop, Hbot. cbn [andb].
  destruct (JS.Qltb (clientY - box_top c) 80) eqn:Hnear.
  - destruct (JS.Qltb 0 (scrollTop c)) eqn:Hpos; cbn [andb].
    + intros [= <-]. apply Qltb_lt in Hnear, Hpos.
      destruct (scroll_amount_range (clientY - box_top c)) as [Ha1 Ha8];
        [lra | exact Hnear |].
      set (a := Qmax 1 (8 * (1 - (clientY - box_top c) / 80))) in *.
      split; [|split; [left|reflexivity]];
        destruct (Q.max_spec 0 (scrollTop c - a)) as [[Hlt Heq]|[Hle Heq]];
        rewrite Heq; split; lra.
    + destruct (JS.Qltb (box_bottom c - clientY) 80) eqn:Hnearb; [|discriminate].
      destruct (JS.Qltb (scrollTop c) (maxScroll c)) eqn:Hroom; [|discriminate].
      cbn [andb]. intros [= <-]. apply Qltb_lt in Hnearb, Hroom.
      destruct (scroll_amount_range (box_bottom c - clientY)) as [Ha1 Ha8];
        [lra | exact Hnearb |].
      set (a := Qmax 1 (8 * (1 - (box_bottom c - clientY) / 80))) in *.
      split; [|split; [right|reflexivity]];
        destruct (Q.min_spec (maxScroll c) (scrollTop c + a))
          as [[Hlt Heq]|[Hle Heq]];
        rewrite Heq; split; lra.
  - cbn [andb].
    destruct (JS.Qltb (box_bottom c - clientY) 80) eqn:Hnearb; [|discriminate].
    destruct (JS.Qltb (scrollTop c) (maxScroll c)) eqn:Hroom; [|discriminate].
    cbn [andb]. intros [= <-]. apply Qltb_lt in Hnearb, Hroom.
    destruct (scroll_amount_range (box_bottom c - clientY)) as [Ha1 Ha8];
      [lra | exact Hnearb |].
    set (a := Qmax 1 (8 * (1 - (box_bottom c - clientY) / 80))) in *.
    split; [|split; [right|reflexivity]];
      destruct (Q.min_spec (maxScroll c) (scrollTop c + a))
        as [[Hlt Heq]|[Hle Heq]];
      rewrite Heq; split; lra.
Qed.

Lemma canvas_auto_scroll_in_range_witness :
  (0 <= 7680 # 80 /\ 7680 # 80 <= maxScroll (mkBox 0 400 100 900 400))%Q.
Proof.
  apply (canvas_auto_scroll_in_range 40 (mkBox 0 400 100 900 400) (7680 # 80)).
  - discriminate.
  - discriminate.
  - reflexivity.
Defined.

(** X20: the hook's auto-scroll step stays within the scroll range.  For a
    container whose [scrollTop] lies between 0 and
    [scrollHeight - clientHeight], [handleAutoScroll] leaves it in that
    range and moves it by at most [scrollSpeed = 5]; with the [autoScroll]
    option off it does not move it. *)
Theorem hook_auto_scroll_in_range (autoScroll : bool) (clientY : Q)
    (c : ScrollBox) :
  (0 <= scrollTop c)%Q ->
  (scrollTop c <= maxScroll c)%Q ->
  (0 <= hookAutoScroll autoScroll clientY c
   /\ hookAutoScroll autoScroll clientY c <= maxScroll c
   /\ scrollTop c - 5 <= hookAutoScroll autoScroll clientY c
   /\ hookAutoScroll autoScroll clientY c <= scrollTop c + 5)%Q
  /\ hookAutoScroll false clientY c = scrollTop c.
Proof.
  intros Hlo Hhi. split; [|reflexivity]. unfold hookAutoScroll.
  destruct autoScroll; cbn [negb]; [|repeat split; lra].
  destruct (JS.Qltb clientY (box_top c + 50)).
  - destruct (Q.max_spec 0 (scrollTop c - 5)) as [[Hlt Heq]|[Hle Heq]];
      rewrite Heq; repeat split; lra.
  - destruct (JS.Qltb (box_bottom c - 50) clientY); [|repeat split; lra].
    destruct (Q.min_spec (maxScroll c) (scrollTop c + 5))
      as [[Hlt Heq]|[Hle Heq]];
      rewrite Heq; repeat split; lra.
Qed.

Lemma hook_auto_scroll_in_range_witness :
  (0 <= hookAutoScroll true 10 (mkBox 0 400 3 900 400))%Q.
Proof.
  apply (hook_auto_scroll_in_range true 10 (mkBox 0 400 3 900 400));
    discriminate.
Defined.

(** ** The drag state *)

Lemma dragStep_invariant (s : DragState) (ev : DragEvent) :
  DragInvariant s ->
  (ev = DragLeave -> 0 < dragCounter s) ->
  DragInvariant (dragStep s ev).
Proof.
  intros [Hcnt [Hzero Hscroll]] Hnested. unfold DragInvariant.
  destruct ev as [item| |attr| |]; cbn.
  - split; [exact Hcnt|]. split; [exact Hzero | reflexivity].
  - split; [lia|]. split; [intros _; split; reflexivity | discriminate].
  - split; [lia|]. split; [intros; lia|].
    intros Hor. apply orb_true_iff in Hor as [Hs|Hd]; [apply Hscroll|]; assumption.
  - specialize (Hnested eq_refl).
    destruct (Z.eqb_spec (dragCounter s - 1) 0) as [Heq|Hne]; cbn.
    + split; [lia|]. split; [intros _; split; reflexivity | discriminate].
    + split; [lia|]. split; [intros; lia | exact Hscroll].
  - split; [lia|]. split; [intros _; split; reflexivity | discriminate].
Qed.

(** X21: the drag state stays consistent and both ways out clean up.
    From a consistent state, through any sequence of drag events in which
    every leave answers an earlier enter, the enter/leave counter is never
    negative, a counter at zero means no drop target and no auto-scroll
    interval, and the interval is only set while a drag is in progress.  A
    sequence that ends with a drop or with the end of the drag leaves no
    drop target, a counter at zero and no interval. *)
Theorem drag_state_consistent (s : DragState) (evs : list DragEvent) :
  DragInvariant s ->
  Nested s evs ->
  DragInvariant (dragRun s evs)
  /\ (forall ev, (ev = Drop \/ ev = DragEnd) ->
        dropTarget (dragRun s (evs ++ [ev])) = None
        /\ dragCounter (dragRun s (evs ++ [ev])) = 0
        /\ scrollInterval (dragRun s (evs ++ [ev])) = false).
Proof.
  intros Hinv Hnested. split.
  - revert s Hinv Hnested. induction evs as [|ev evs IH]; intros s Hinv Hnested;
      [exact Hinv|].
    destruct Hnested as [Hev Hrest]. cbn.
    apply IH; [apply dragStep_invariant; assumption | exact Hrest].
  - intros ev Hev. unfold dragRun. rewrite fold_left_app. cbn.
    destruct Hev as [-> | ->]; repeat split.
Qed.

Lemma drag_state_consistent_witness :
  DragInvariant
    (dragRun idle [DragStart "f1"; DragEnter (Some "main");
                   DragEnter (Some "s"); DragLeave; DragLeave]).
Proof.
  apply (drag_state_consistent idle
           [DragStart "f1"; DragEnter (Some "main"); DragEnter (Some "s");
            DragLeave; DragLeave]).
  - repeat split; try reflexivity; discriminate.
  - cbn. repeat split; try discriminate; intros _; reflexivity.
Defined.

(** Without that nesting the counter and the target drift apart: a leave
    at zero followed by an enter leaves a drop target at counter zero. *)
Example unanswered_leave_breaks_consistency :
  let s := dragRun idle [DragLeave; DragEnter (Some "main")] in
  dragCounter s = 0 /\ dropTarget s = Some "main".
Proof. split; reflexivity. Qed.

(** ** More on single checks *)

(** X22: a dropdown answer is not checked against the options.  For a
    dropdown that is not multi-select, every string answer that is not
    blank is accepted, whether or not it is the value of one of the
    field's options. *)
Theorem dropdown_answer_not_checked_against_options `{JSHost}
    (st : PropStore) (f : FormField) (p : FieldProperties) (answer : string) :
  type f = "dropdown" ->
  st !! properties f = Some p ->
  selectionType p <> Some multi ->
  JS.trim answer <> "" ->
  validateField st f (JStr answer) = Normal [].
Proof.
  intros Hty Hp Hsel Hanswer.
  assert (isBlank (JStr answer) = false) as Hb.
  { unfold isBlank. cbn. apply String.eqb_neq in Hanswer. rewrite Hanswer.
    rewrite orb_false_r. apply negb_false_iff, negb_true_iff.
    apply String.eqb_neq. intros ->. apply String.eqb_neq in Hanswer.
    apply Hanswer. reflexivity. }
  unfold validateField. rewrite Hb, andb_false_r, Hty. cbn.
  unfold dropdownChecks, propertiesOf. rewrite Hp. cbn.
  destruct (selectionType p) as [[]|]; try reflexivity. congruence.
Qed.

Lemma dropdown_answer_not_checked_against_options_witness :
  validateField (H := exampleHost) {[ 0%nat := singleSelect ]}
    (typedField "d" "dropdown" "Choice" true 0 0) (JStr "not an option")
  = Normal [].
Proof.
  apply (dropdown_answer_not_checked_against_options (H := exampleHost)
           {[ 0%nat := singleSelect ]}
           (typedField "d" "dropdown" "Choice" true 0 0) singleSelect
           "not an option").
  - reflexivity.
  - reflexivity.
  - discriminate.
  - discriminate.
Defined.

(** ** Submit readiness *)

(** A key that a plain object does not own reads as an answer exactly when
    [Object.prototype] has a member of that name. *)
Lemma answered_inherited (key : string) :
  answered (valueOf ∅ key) = true <-> is_Some (ObjectPrototype key).
Proof.
  unfold valueOf, ObjectPrototype. rewrite lookup_empty.
  destruct (String.eqb key "__proto__");
    [split; [intros _; eexists; reflexivity | reflexivity]|].
  destruct (existsb (String.eqb key) ObjectPrototype_functions).
  - split; [intros _; eexists; reflexivity | reflexivity].
  - split; [discriminate | intros [v Hv]; discriminate].
Qed.

(** X23: filling in a field never disables the submit control, and a
    cleared form can be submitted only if nothing is required or the
    required ids are inherited names.  If [canSubmit] holds and a field is
    given a value that counts as answered, [canSubmit] still holds; after
    [handleClear], [canSubmit] holds exactly when the id of every required
    field names a member of [Object.prototype], which the empty object
    inherits and which counts as an answer. *)
Theorem submit_readiness (sch : FormSchema) (rs : RendererState) :
  (forall fid v,
      answered v = true ->
      canSubmit sch (formValues rs) = true ->
      canSubmit sch (formValues (updateValue fid v rs)) = true)
  /\ (canSubmit sch (formValues (handleClear rs)) = true
      <-> Forall (fun f => required f = true ->
                           is_Some (ObjectPrototype (id f)))
                 (getAllFields (items sch))).
Proof.
  split.
  - intros fid v Hv Hready. unfold canSubmit in *.
    rewrite forallb_forall in Hready |- *. intros f Hf.
    specialize (Hready f Hf). unfold updateValue, valueOf in *. cbn.
    destruct (decide (fid = id f)) as [->|Hne].
    + rewrite lookup_insert_eq. exact Hv.
    + rewrite lookup_insert_ne by exact Hne. exact Hready.
  - unfold canSubmit, handleClear. cbn. rewrite forallb_forall, Forall_forall.
    split.
    + intros Hready f Hf Hreq. apply answered_inherited, Hready.
      apply list_elem_of_In, list_elem_of_filter. split; assumption.
    + intros Hnone f Hf.
      apply list_elem_of_In, list_elem_of_filter in Hf as [Hreq Hf].
      apply answered_inherited, (Hnone f Hf Hreq).
Qed.

Lemma submit_readiness_witness :
  canSubmit (schemaOf [Field (textField "q1" "Name" true 0 0)])
            (formValues (updateValue "q2" (JStr "x")
                           (mkRenderer {[ "q1" := JStr "Ada" ]} ∅ false)))
  = true.
Proof.
  apply (proj1 (submit_readiness
                  (schemaOf [Field (textField "q1" "Name" true 0 0)])
                  (mkRenderer {[ "q1" := JStr "Ada" ]} ∅ false)));
    reflexivity.
Defined.

(** A required field whose id is [constructor] is never missing: the empty
    form is ready to submit and validates, while the same field under the
    id [q1] is reported. *)
Example inherited_member_counts_as_answer :
  canSubmit (schemaOf [Field (textField "constructor" "Name" true 0 0)]) ∅
  = true
  /\ submitValidation (H := exampleHost) ∅
       (schemaOf [Field (textField "constructor" "Name" true 0 0)]) ∅
     = Normal (mkResult true [])
  /\ canSubmit (schemaOf [Field (textField "q1" "Name" true 0 0)]) ∅ = false
  /\ submitValidation (H := exampleHost) ∅
       (schemaOf [Field (textField "q1" "Name" true 0 0)]) ∅
     = Normal (mkResult false [mkError "q1" "Name is required"]).
Proof. repeat split; reflexivity. Qed.

(** ** Re-numbering repairs stale orders *)

(** X24: the handlers that re-number the root repair it.  Whatever the
    [order] values of the root items were (stale after a root clone, say),
    as long as every section's fields are densely ordered, the schema is
    densely ordered after [handleDeleteField] (found or not), after
    [handleAddField] into the main area and after [handleDeleteSection] of a
    section of the schema. *)
Theorem renumbering_repairs_density (ed : Editor) :
  SectionsDense (items (schema ed)) ->
  (forall fid, orderDense (items (schema (handleDeleteField fid ed))) = true)
  /\ (forall newId fieldType position ed',
         handleAddField newId fieldType None position ed = Normal ed' ->
         orderDense (items (schema ed')) = true)
  /\ (forall sid,
         Exists (fun item => isSectionWithId sid item = true)
                (items (schema ed)) ->
         orderDense (items (schema (handleDeleteSection sid ed))) = true).
Proof.
  intros Hsec. split; [|split].
  - intros fid. unfold handleDeleteField. cbn [items schema setItems].
    apply renumbered_orderDense.
    destruct (locate fid (items (schema ed))) as [[i f|i s j f]|].
    + apply spliceRemove_Forall, Hsec.
    + unfold onSectionAt. rewrite of_nat_ltb_0.
      apply Forall_alter; [exact Hsec|].
      intros [g|t] _ _; [exact I | apply renumberFields_dense].
    + exact Hsec.
  - intros newId fieldType position ed' Hrun. unfold handleAddField in Hrun.
    destruct (createDefaultField fieldType) as [body|e]; [|discriminate].
    injection Hrun as <-. cbn [items schema setItems]. unfold insertAt. cbn.
    apply renumbered_orderDense, spliceInsert_Forall; [exact Hsec | exact I].
  - intros sid Hex. destruct (findIndex_found _ _ Hex) as [k [x [Hk _]]].
    unfold handleDeleteSection. rewrite Hk.
    replace (0 <=? Z.of_nat k) with true by (symmetry; apply Z.leb_le; lia).
    rewrite items_withItems.
    apply renumbered_orderDense, spliceRemove_Forall, Hsec.
Qed.

Lemma renumbering_repairs_density_witness :
  orderDense
    (items (schema (handleDeleteField "b"
                      (handleCloneField "c" "a"
                         (editorOf twoBags [Field fieldA; Field fieldB])))))
  = true.
Proof.
  apply (renumbering_repairs_density
           (handleCloneField "c" "a"
              (editorOf twoBags [Field fieldA; Field fieldB]))).
  repeat constructor.
Defined.
